(** * DineBook backend: booking availability, capacity gate, soft delete

    A shallow embedding of the request handlers of the DineBook API
    (restaurant controller, booking controller and favourites
    controller) over an explicit document store and the two in-process
    caches, and of what the pages of the client compute from their
    answers, followed by the properties the specification states about
    them and further properties of the handlers.

    Conventions.
    - A collection is the list of its documents in natural (insertion)
      order; [_id] values are strings.
    - JavaScript numbers that the handlers treat as integers (guest
      counts, capacities, page numbers) are [Z]; coordinates, radii and
      distances are exact rationals [Q].
    - A handler is a function from the state before the request to the
      response and the state after it.  A handler that awaits the store
      twice with other requests possibly running in between is split at
      that point into phases, and the sequential handler is their
      composition.
    - Code of the repository that the controllers import but that is not
      part of the sources at hand is either a field of a class of
      collaborators (when the specification does not fix its behaviour)
      or a definition marked "Modelled from the spec". *)

From Stdlib Require Import ZArith QArith Lia.
From stdpp Require Import base strings list gmap pretty sorting.

Local Open Scope Z_scope.

(** ** Documents *)

(** Booking status, the enumeration of the booking schema. *)
Inductive BookingStatus := confirmed | pending | cancelled | completed.

Definition BookingStatus_eqb (a b : BookingStatus) : bool :=
  match a, b with
  | confirmed, confirmed | pending, pending
  | cancelled, cancelled | completed, completed => true
  | _, _ => false
  end.

(** [status: { $in: ['confirmed', 'pending'] }] *)
Definition inConfirmedPending (s : BookingStatus) : bool :=
  match s with
  | confirmed | pending => true
  | cancelled | completed => false
  end.

Record Booking := {
  bk_id : string;
  bk_customerId : string;
  bk_restaurantId : string;
  bk_date : string;
  bk_time : string;
  bk_guests : Z;
  bk_specialRequests : option string;
  bk_status : BookingStatus
}.

(** One row of the weekly opening-hours table. *)
Record DayHours := { open : string; close : string }.

(** The restaurant schema; the fields no handler below reads (description,
    phone number, address, menu items, rating) are left out. *)
Record Restaurant := {
  r_id : string;
  r_name : string;
  r_cuisine : string;
  r_location : string;
  r_geometry : option (Q * Q);   (* GeoJSON point, [longitude, latitude] *)
  r_priceRange : Z;
  r_ownerId : string;
  r_capacity : Z;
  r_openingHours : gmap string DayHours;
  r_isActive : bool
}.

Record User := { u_id : string; u_name : string; u_email : string }.

Record Review := {
  rv_id : string;
  rv_customerId : string;
  rv_restaurantId : string;
  rv_rating : Z;
  rv_comment : string
}.

(** The document store: four collections. *)
Record Store := {
  restaurants : list Restaurant;
  bookings : list Booking;
  reviews : list Review;
  users : list User
}.

Definition set_bookings (bs : list Booking) (db : Store) : Store :=
  {| restaurants := restaurants db; bookings := bs;
     reviews := reviews db; users := users db |}.

Definition set_restaurants (rs : list Restaurant) (db : Store) : Store :=
  {| restaurants := rs; bookings := bookings db;
     reviews := reviews db; users := users db |}.

(** ** Responses *)

Record SlotInfo := {
  slot_time : string;
  slot_available : bool;
  slot_availableCapacity : Z;
  slot_totalCapacity : Z
}.

(** The booking object of the booking responses (time stamps left out). *)
Record BookingView := {
  bv_id : string;
  bv_customerId : string;
  bv_restaurantId : string;
  bv_restaurantName : string;
  bv_date : string;
  bv_time : string;
  bv_guests : Z;
  bv_specialRequests : option string;
  bv_status : BookingStatus
}.

(** A restaurant as the listing endpoints return it: the document, its
    populated owner and, on the geospatial paths, the distance fields. *)
Record ListedRestaurant := {
  lr_doc : Restaurant;
  lr_owner : option (string * string);
  lr_distance : option Q;
  lr_distanceKm : option Q
}.

(** [page], [limit] and [total] of the pagination object (the page count
    derived from them is left out). *)
Record Pagination := { pg_page : option Z; pg_limit : option Z; pg_total : Z }.

(** JSON bodies of the responses (and the values kept in the caches). *)
Inductive Body :=
| ErrorBody (error : string)
| MessageBody (message : string)
| ClosedBody (restaurantId date : string) (availableSlots : list SlotInfo)
    (message : string)
| AvailabilityBody (restaurantId restaurantName date dayOfWeek : string)
    (openingHours : DayHours) (availableSlots : list SlotInfo) (totalSlots : nat)
| BookingBody (message : option string) (booking : BookingView)
| RestaurantBody (restaurant : Restaurant) (owner : option (string * string))
| ListingBody (listed : list ListedRestaurant) (pagination : Pagination)
| Cached (body : Body).              (* [{ ...cached, cache: true }] *)

Record Response := { status : Z; body : Body }.

(** [res.json(x)] answers 200. *)
Definition json (b : Body) : Response := {| status := 200; body := b |}.

(** What a store helper or a store call throws. *)
Inductive Exn :=
| NotFoundError (message : string)
| CastError
| ValidationError (message : string)
| OtherError.

(** Modelled from the spec: [ResponseHelper] of utils/booking-helpers, which
    is not among the sources.  The error taxonomy of the specification:
    validation errors answer 400, not-found 404, conflicts 409, and
    [sendError] answers the status it is given; the body carries the
    message. *)
Definition sendError (code : Z) (msg : string) : Response :=
  {| status := code; body := ErrorBody msg |}.
Definition sendValidationError (msg : string) : Response := sendError 400 msg.
Definition sendNotFoundError (msg : string) : Response := sendError 404 msg.
Definition sendConflictError (msg : string) : Response := sendError 409 msg.

(** ** State of the service *)

(** The two controllers own one [NodeCache] each. *)
Record State := {
  store : Store;
  restaurantCache : gmap string Body;
  bookingCache : gmap string Body
}.

Definition set_store (db : Store) (st : State) : State :=
  {| store := db; restaurantCache := restaurantCache st;
     bookingCache := bookingCache st |}.

Definition set_restaurantCache (c : gmap string Body) (st : State) : State :=
  {| store := store st; restaurantCache := c; bookingCache := bookingCache st |}.

Definition set_bookingCache (c : gmap string Body) (st : State) : State :=
  {| store := store st; restaurantCache := restaurantCache st;
     bookingCache := c |}.

(** ** Collaborators *)

(** The query of an availability request. *)
Record AvailabilityQuery := { aq_restaurantId : string; aq_date : string }.

(** The body of a booking request, [CreateBookingBody]. *)
Record CreateBookingBody := {
  cb_restaurantId : string;
  cb_date : string;
  cb_time : string;
  cb_guests : Z;
  cb_specialRequests : option string
}.

(** The functions of utils/booking-helpers whose behaviour the
    specification leaves open: weekday resolution, the slot interval, the
    opening-hours test on a requested time and the two input validators
    (which answer the message of the first violated rule, if any). *)
Class BookingHelpers := {
  getDayOfWeek : string -> string;
  generateTimeSlots : string -> string -> list string;
  isTimeWithinHours : string -> string -> string -> bool;
  validateAvailabilityInput : AvailabilityQuery -> option string;
  validateCreateBookingInput : CreateBookingBody -> option string
}.

(** A populated [restaurantId] path: the restaurant document reduced to
    the selected field, [name], and its [_id]. *)
Record RestaurantRef := { ref_id : string; ref_name : string }.

(** What the handlers use of the JavaScript runtime and of the object
    mapper: [parseFloat] and [parseInt] ([None] is NaN), [String.trim],
    the time value of [new Date(date + "T" + time + ":00")] ([None] is an
    invalid date), and the string that a populated restaurant document
    turns into inside a template literal, which is the result of the
    document's own [toString]. *)
Class JsRuntime := {
  parseFloat : string -> option Q;
  parseInt : string -> option Z;
  trim : string -> string;
  dateTimeValue : string -> string -> option Z;
  refToString : RestaurantRef -> string
}.

(** ** Store helpers *)

Definition find_by {A} (p : A -> bool) (l : list A) : option A := List.find p l.

(** Modelled from the spec: [BookingDatabase.findRestaurantById] of
    utils/booking-helpers, not among the sources.  It yields the
    restaurant with the given id and throws a not-found error otherwise
    (both callers map an error named [NotFoundError] to 404). *)
Definition findRestaurantById (db : Store) (id : string) : Exn + Restaurant :=
  match find_by (fun r => String.eqb (r_id r) id) (restaurants db) with
  | Some r => inr r
  | None => inl (NotFoundError "Restaurant not found")
  end.

(** Modelled from the spec: [BookingDatabase.findUserById], not among the
    sources: the user with the given id, or a not-found error. *)
Definition findUserById (db : Store) (id : string) : Exn + User :=
  match find_by (fun u => String.eqb (u_id u) id) (users db) with
  | Some u => inr u
  | None => inl (NotFoundError "User not found")
  end.

(** Modelled from the spec: [TimeHelper.getOpeningHours], not among the
    sources: "look up that weekday's open/close pair". *)
Definition getOpeningHours (restaurant : Restaurant) (dayOfWeek : string)
  : option DayHours :=
  r_openingHours restaurant !! dayOfWeek.

(** Modelled from the spec: [TimeHelper.isRestaurantClosed], not among the
    sources: "if absent or equal, restaurant is closed that day". *)
Definition isRestaurantClosed (openingHours : option DayHours) : bool :=
  match openingHours with
  | None => true
  | Some h => String.eqb (open h) (close h)
  end.

(** ** Booking controller: availability *)

Definition availabilityKey (restaurantId date : string) : string :=
  "availability-" +:+ restaurantId +:+ "-" +:+ date.

(** [x || 0] on a number that may be undefined. *)
Definition orZero (x : option Z) : Z :=
  match x with
  | Some v => if v =? 0 then 0 else v
  | None => 0
  end.

(** [Booking.find({ restaurantId, date, status: { $in: [...] } })] *)
Definition existingBookings (db : Store) (restaurantId date : string)
  : list Booking :=
  List.filter
    (fun b => String.eqb (bk_restaurantId b) restaurantId
              && String.eqb (bk_date b) date
              && inConfirmedPending (bk_status b))
    (bookings db).

(** The [forEach] that fills [bookingCounts], an object used as a map from
    time label to guest count (a time label such as "19:00" never names a
    property that an empty object inherits). *)
Definition bookingCounts (existing : list Booking) : gmap string Z :=
  foldl (fun counts b =>
           <[bk_time b := orZero (counts !! bk_time b) + bk_guests b]> counts)
        ∅ existing.

(** The body of the [timeSlots.map] callback. *)
Definition slotFor (capacity : Z) (counts : gmap string Z) (time : string)
  : SlotInfo :=
  let bookedGuests := orZero (counts !! time) in
  let availableCapacity := capacity - bookedGuests in
  {| slot_time := time;
     slot_available := 0 <? availableCapacity;
     slot_availableCapacity := availableCapacity;
     slot_totalCapacity := capacity |}.

(** The [catch] block of [getAvailability]. *)
Definition availabilityError (e : Exn) : Response :=
  match e with
  | CastError => sendValidationError "Invalid restaurant ID"
  | NotFoundError m => sendNotFoundError m
  | _ => sendError 500 "Failed to fetch availability"
  end.

Section BookingController.
Context `{!BookingHelpers} `{!JsRuntime}.

Definition getAvailability (st : State) (q : AvailabilityQuery)
  : Response * State :=
  let restaurantId := aq_restaurantId q in
  let date := aq_date q in
  let cacheKey := availabilityKey restaurantId date in
  match bookingCache st !! cacheKey with
  | Some cachedAvailability => (json cachedAvailability, st)
  | None =>
    match validateAvailabilityInput q with
    | Some validationError => (sendValidationError validationError, st)
    | None =>
      match findRestaurantById (store st) restaurantId with
      | inl e => (availabilityError e, st)
      | inr restaurant =>
        let dayOfWeek := getDayOfWeek date in
        let openingHours := getOpeningHours restaurant dayOfWeek in
        if isRestaurantClosed openingHours then
          (json (ClosedBody restaurantId date []
                   ("Restaurant is closed on " +:+ dayOfWeek)), st)
        else
          match openingHours with
          | None => (availabilityError OtherError, st)
          | Some h =>
            let timeSlots := generateTimeSlots (open h) (close h) in
            let counts :=
              bookingCounts (existingBookings (store st) restaurantId date) in
            let availableSlots :=
              map (slotFor (r_capacity restaurant) counts) timeSlots in
            let response :=
              AvailabilityBody restaurantId (r_name restaurant) date dayOfWeek
                h availableSlots (length timeSlots) in
            (json response,
             set_bookingCache (<[cacheKey := response]> (bookingCache st)) st)
          end
      end
    end
  end.

(** *** Booking creation *)

(** [handleBookingError] *)
Definition handleBookingError (e : Exn) : Response :=
  match e with
  | CastError => sendValidationError "Invalid ID format"
  | ValidationError m => sendValidationError ("Validation error: " +:+ m)
  | NotFoundError m => sendNotFoundError m
  | OtherError => sendError 500 "An unexpected error occurred"
  end.

(** The documents the [$match] stage of the capacity aggregate selects. *)
Definition slotBookings (db : Store) (restaurantId date time : string)
  : list Booking :=
  List.filter
    (fun b => String.eqb (bk_restaurantId b) restaurantId
              && String.eqb (bk_date b) date
              && String.eqb (bk_time b) time
              && inConfirmedPending (bk_status b))
    (bookings db).

Definition sumGuests (bs : list Booking) : Z :=
  foldr (fun b acc => bk_guests b + acc) 0 bs.

(** [existingBookingsCount[0]?.totalGuests]: the [$group] stage yields one
    document when at least one booking matched and none otherwise. *)
Definition totalGuests (db : Store) (restaurantId date time : string)
  : option Z :=
  match slotBookings db restaurantId date time with
  | [] => None
  | bs => Some (sumGuests bs)
  end.

(** What the store, the mailer and the log see of one request, in order. *)
Inductive Effect :=
| Aggregate (restaurantId date time : string)
| StartSession
| StartTransaction
| Save (b : Booking)
| CommitTransaction
| AbortTransaction
| EndSession
| SendEmail (to bookingId : string)
| LogError (what : string)
| Respond (r : Response)
| CacheDel (key : string).

(** A request that passed the capacity gate and is about to insert. *)
Record Cleared := {
  cl_customerId : string;
  cl_body : CreateBookingBody;
  cl_restaurant : Restaurant;
  cl_user : User
}.

(** What is outside the handler's control while it writes: the id the
    driver generates for the new document, whether [save] or the commit
    throws, and whether the mailer throws. *)
Record WriteEnv := {
  newId : string;
  saveError : option Exn;
  commitError : option Exn;
  emailFails : bool
}.

Definition userBookingsKey (customerId : string)
    (status dateFrom dateTo : option string) : string :=
  "user-bookings-" +:+ customerId +:+ "-" +:+ default "all" status
    +:+ "-" +:+ default "" dateFrom +:+ "-" +:+ default "" dateTo.

(** [specialRequests?.trim() || undefined] *)
Definition trimmedRequests (specialRequests : option string) : option string :=
  match specialRequests with
  | None => None
  | Some s => let t := trim s in if String.eqb t "" then None else Some t
  end.

(** First phase of [createBooking]: everything up to and including the
    capacity gate.  It only reads the store. *)
Definition createBooking_check (st : State) (customerId : string)
    (b : CreateBookingBody) : (Response + Cleared) * list Effect :=
  let restaurantId := cb_restaurantId b in
  let date := cb_date b in
  let time := cb_time b in
  let guests := cb_guests b in
  match validateCreateBookingInput b with
  | Some validationError => (inl (sendValidationError validationError), [])
  | None =>
    match findRestaurantById (store st) restaurantId,
          findUserById (store st) customerId with
    | inl e, _ => (inl (handleBookingError e), [LogError "Booking creation error"])
    | _, inl e => (inl (handleBookingError e), [LogError "Booking creation error"])
    | inr restaurant, inr user =>
      let dayOfWeek := getDayOfWeek date in
      let openingHours := getOpeningHours restaurant dayOfWeek in
      if isRestaurantClosed openingHours then
        (inl (sendValidationError ("Restaurant is closed on " +:+ dayOfWeek)), [])
      else
        match openingHours with
        | None =>
          (inl (handleBookingError OtherError), [LogError "Booking creation error"])
        | Some h =>
          if negb (isTimeWithinHours time (open h) (close h)) then
            (inl (sendValidationError
                    ("Restaurant is closed at " +:+ time +:+ ". Hours: "
                       +:+ open h +:+ " - " +:+ close h)), [])
          else
            let bookedGuests :=
              orZero (totalGuests (store st) restaurantId date time) in
            let availableCapacity := r_capacity restaurant - bookedGuests in
            let seen := [Aggregate restaurantId date time] in
            if availableCapacity <? guests then
              if availableCapacity <=? 0 then
                (inl (sendConflictError
                        ("No tables available at " +:+ time +:+ " on " +:+ date)),
                 seen)
              else
                (inl (sendConflictError
                        ("Only " +:+ pretty availableCapacity
                           +:+ " seats available at " +:+ time
                           +:+ " on " +:+ date)),
                 seen)
            else
              (inr {| cl_customerId := customerId; cl_body := b;
                      cl_restaurant := restaurant; cl_user := user |},
               seen)
        end
    end
  end.

(** [new Booking({ ..., status: 'confirmed' })] *)
Definition newBooking (env : WriteEnv) (c : Cleared) : Booking :=
  {| bk_id := newId env;
     bk_customerId := cl_customerId c;
     bk_restaurantId := cb_restaurantId (cl_body c);
     bk_date := cb_date (cl_body c);
     bk_time := cb_time (cl_body c);
     bk_guests := cb_guests (cl_body c);
     bk_specialRequests := trimmedRequests (cb_specialRequests (cl_body c));
     bk_status := confirmed |}.

Definition bookingView (b : Booking) (restaurantName : string) : BookingView :=
  {| bv_id := bk_id b;
     bv_customerId := bk_customerId b;
     bv_restaurantId := bk_restaurantId b;
     bv_restaurantName := restaurantName;
     bv_date := bk_date b;
     bv_time := bk_time b;
     bv_guests := bk_guests b;
     bv_specialRequests := bk_specialRequests b;
     bv_status := bk_status b |}.

(** [sendConfirmationEmail]: the mailer is called once and whatever it
    throws is caught and logged (two [console.error] lines). *)
Definition sendConfirmationEmail (env : WriteEnv) (userEmail : string)
    (booking : Booking) : list Effect :=
  SendEmail userEmail (bk_id booking) ::
  (if emailFails env
   then [LogError "Failed to send confirmation email";
         LogError "Email error details"]
   else []).

(** The part of [createBooking] that runs when the transaction block
    throws: inner [catch], [finally], then the outer [catch]. *)
Definition failedWrite (e : Exn) : list Effect :=
  [LogError "Error during booking creation"; AbortTransaction; EndSession;
   LogError "Booking creation error"; Respond (handleBookingError e)].

(** Second phase of [createBooking]: session, transaction, insert, commit,
    confirmation mail, response, cache invalidation.  It runs on the state
    the service is in when the handler resumes. *)
Definition createBooking_insert (env : WriteEnv) (st : State) (c : Cleared)
  : Response * State * list Effect :=
  let booking := newBooking env c in
  let opened := [StartSession; StartTransaction; Save booking] in
  match saveError env with
  | Some e => (handleBookingError e, st, opened ++ failedWrite e)
  | None =>
    match commitError env with
    | Some e =>
      (handleBookingError e, st, opened ++ CommitTransaction :: failedWrite e)
    | None =>
      let db' := set_bookings (bookings (store st) ++ [booking]) (store st) in
      let response :=
        {| status := 201;
           body := BookingBody (Some "Booking created successfully")
                     (bookingView booking (r_name (cl_restaurant c))) |} in
      let userKey := userBookingsKey (cl_customerId c) None None None in
      let slotKey :=
        availabilityKey (cb_restaurantId (cl_body c)) (cb_date (cl_body c)) in
      (response,
       set_bookingCache (delete slotKey (delete userKey (bookingCache st)))
         (set_store db' st),
       opened ++ CommitTransaction
         :: sendConfirmationEmail env (u_email (cl_user c)) booking
         ++ [EndSession; Respond response; CacheDel userKey; CacheDel slotKey])
    end
  end.

(** [createBooking], one request running alone. *)
Definition createBooking (env : WriteEnv) (st : State) (customerId : string)
    (b : CreateBookingBody) : Response * State * list Effect :=
  match createBooking_check st customerId b with
  | (inl r, seen) => (r, st, seen ++ [Respond r])
  | (inr c, seen) =>
    let '(r, st', done) := createBooking_insert env st c in
    (r, st', seen ++ done)
  end.

(** *** Reading and cancelling a booking *)

(** A booking whose [restaurantId] path has been populated with the
    restaurant's name ([None] when the restaurant document is gone). *)
Record PopulatedBooking := {
  pb_doc : Booking;
  pb_restaurant : option RestaurantRef
}.

Definition populateRestaurant (db : Store) (restaurantId : string)
  : option RestaurantRef :=
  match find_by (fun r => String.eqb (r_id r) restaurantId) (restaurants db) with
  | Some r => Some {| ref_id := r_id r; ref_name := r_name r |}
  | None => None
  end.

(** Modelled from the spec: [BookingDatabase.findUserBookingById], not among
    the sources.  "Allowed only by the owning customer": the booking with
    the given id that belongs to the given customer, or a not-found error.
    Its [restaurantId] path is populated with the restaurant's name, as
    in [getUserBookings]: both callers read [restaurantId.name] off the
    result, and [getBookingById] reads [restaurantId._id] to get at the
    id. *)
Definition findUserBookingById (db : Store) (id customerId : string)
  : Exn + PopulatedBooking :=
  match find_by (fun b => String.eqb (bk_id b) id
                          && String.eqb (bk_customerId b) customerId)
                (bookings db) with
  | Some b =>
    inr {| pb_doc := b;
           pb_restaurant := populateRestaurant db (bk_restaurantId b) |}
  | None => inl (NotFoundError "Booking not found")
  end.

Definition getBookingById (st : State) (customerId id : string) : Response :=
  match findUserBookingById (store st) id customerId with
  | inl e => handleBookingError e
  | inr booking =>
    match pb_restaurant booking with
    | None => handleBookingError OtherError
    | Some ref =>
      json (BookingBody None
              {| bv_id := bk_id (pb_doc booking);
                 bv_customerId := bk_customerId (pb_doc booking);
                 bv_restaurantId := ref_id ref;
                 bv_restaurantName := ref_name ref;
                 bv_date := bk_date (pb_doc booking);
                 bv_time := bk_time (pb_doc booking);
                 bv_guests := bk_guests (pb_doc booking);
                 bv_specialRequests := bk_specialRequests (pb_doc booking);
                 bv_status := bk_status (pb_doc booking) |})
    end
  end.

(** [doc.save()] after [doc.status = s]: the store rewrites the document
    with that [_id]. *)
Definition withStatus (s : BookingStatus) (b : Booking) : Booking :=
  {| bk_id := bk_id b; bk_customerId := bk_customerId b;
     bk_restaurantId := bk_restaurantId b; bk_date := bk_date b;
     bk_time := bk_time b; bk_guests := bk_guests b;
     bk_specialRequests := bk_specialRequests b; bk_status := s |}.

Fixpoint saveStatus (id : string) (s : BookingStatus) (bs : list Booking)
  : list Booking :=
  match bs with
  | [] => []
  | b :: bs' =>
    if String.eqb (bk_id b) id then withStatus s b :: bs'
    else b :: saveStatus id s bs'
  end.

(** [bookingDateTime < now]; a comparison with an invalid date is false. *)
Definition isPast (bookingDateTime : option Z) (now : Z) : bool :=
  match bookingDateTime with
  | Some t => t <? now
  | None => false
  end.

(** The populated [restaurantId] inside the template literal of the cache
    key, [`availability-${booking.restaurantId}-${booking.date}`]. *)
Definition refString (r : option RestaurantRef) : string :=
  match r with
  | Some ref => refToString ref
  | None => "null"
  end.

Definition cancelBooking (now : Z) (st : State) (customerId id : string)
  : Response * State :=
  match findUserBookingById (store st) id customerId with
  | inl e => (handleBookingError e, st)
  | inr booking =>
    let doc := pb_doc booking in
    if BookingStatus_eqb (bk_status doc) cancelled then
      (sendValidationError "Booking is already cancelled", st)
    else if isPast (dateTimeValue (bk_date doc) (bk_time doc)) now then
      (sendValidationError "Cannot cancel past bookings", st)
    else
      let db' :=
        set_bookings (saveStatus (bk_id doc) cancelled (bookings (store st)))
          (store st) in
      let userKey := userBookingsKey customerId None None None in
      let slotKey :=
        availabilityKey (refString (pb_restaurant booking)) (bk_date doc) in
      let st' :=
        set_bookingCache (delete slotKey (delete userKey (bookingCache st)))
          (set_store db' st) in
      match pb_restaurant booking with
      | None => (handleBookingError OtherError, st')
      | Some ref =>
        (json (BookingBody (Some "Booking cancelled successfully")
                 {| bv_id := bk_id doc;
                    bv_customerId := bk_customerId doc;
                    bv_restaurantId := ref_id ref;
                    bv_restaurantName := ref_name ref;
                    bv_date := bk_date doc;
                    bv_time := bk_time doc;
                    bv_guests := bk_guests doc;
                    bv_specialRequests := bk_specialRequests doc;
                    bv_status := cancelled |}),
         st')
      end
  end.

End BookingController.

(** ** Restaurant controller *)

(** [RestaurantQueryParams]: every parameter is an optional string. *)
Record RestaurantQueryParams := {
  qp_location : option string;
  qp_cuisine : option string;
  qp_priceRange : option string;
  qp_page : option string;
  qp_limit : option string;
  qp_latitude : option string;
  qp_longitude : option string;
  qp_radius : option string
}.

(** What the restaurant controller uses of the store and the runtime
    beyond plain filtering: [JSON.stringify] of the query object, the
    spherical distance in metres that [$geoNear] computes, [$round] to two
    places, the case-insensitive [$regex] match, and the cast of a string
    to an object id that [findById] performs. *)
Class RestaurantRuntime := {
  stringifyQuery : RestaurantQueryParams -> string;
  geoDistance : Q * Q -> Q * Q -> Q;
  roundTo2 : Q -> Q;
  regexMatches : string -> string -> bool;
  validObjectId : string -> bool
}.

(** Truthiness of an optional string parameter. *)
Definition given (x : option string) : bool :=
  match x with
  | Some s => negb (String.eqb s "")
  | None => false
  end.

Definition Qlt_bool (a b : Q) : bool := negb (Qle_bool b a).

(** Stable insertion sort, the model of a [$sort] stage or [.sort()]. *)
Fixpoint insertBy {A} (leb : A -> A -> bool) (x : A) (l : list A) : list A :=
  match l with
  | [] => [x]
  | y :: l' => if leb x y then x :: l else y :: insertBy leb x l'
  end.

Definition sortBy {A} (leb : A -> A -> bool) (l : list A) : list A :=
  foldr (insertBy leb) [] l.

(** [(parseInt(page) - 1) * parseInt(limit)]; NaN when either is. *)
Definition skipOf (page limit : option Z) : option Z :=
  match page, limit with
  | Some p, Some l => Some ((p - 1) * l)
  | _, _ => None
  end.

(** The [$skip] and [$limit] stages of an aggregation: the pipeline is
    rejected unless the skip is a non-negative number and the limit a
    positive one. *)
Definition window {A} (skip limit : option Z) (l : list A) : option (list A) :=
  match skip, limit with
  | Some s, Some n =>
    if (0 <=? s) && (0 <? n)
    then Some (take (Z.to_nat n) (drop (Z.to_nat s) l))
    else None
  | _, _ => None
  end.

(** [.skip(s).limit(n)] on a query: a limit of 0 stands for no limit and
    a negative limit for its absolute value; the query is rejected when
    the skip or the limit is not a number or the skip is negative. *)
Definition cursorWindow {A} (skip limit : option Z) (l : list A)
  : option (list A) :=
  match skip, limit with
  | Some s, Some n =>
    if 0 <=? s then
      Some (if n =? 0 then drop (Z.to_nat s) l
            else take (Z.to_nat (Z.abs n)) (drop (Z.to_nat s) l))
    else None
  | _, _ => None
  end.

(** [$count] on what is left after [$skip]. *)
Definition afterSkip {A} (skip : option Z) (l : list A) : option (list A) :=
  match skip with
  | Some s => if 0 <=? s then Some (drop (Z.to_nat s) l) else None
  | None => None
  end.

(** [{ priceRange: parseInt(priceRange) }] as the store matches it: NaN
    matches no document.  This is what reaches the store from an
    aggregation; a [find] casts its filter first, see [castsFilter]. *)
Definition priceIs (price : option Z) (r : Restaurant) : bool :=
  match price with
  | Some p => r_priceRange r =? p
  | None => false
  end.

Definition byDistance (a b : ListedRestaurant) : bool :=
  match lr_distance a, lr_distance b with
  | Some x, Some y => Qle_bool x y
  | None, _ => true
  | Some _, None => false
  end.

Definition byName (a b : ListedRestaurant) : bool :=
  String.leb (r_name (lr_doc a)) (r_name (lr_doc b)).

(** [populate("ownerId", "name email")] and the [$lookup]/[$unwind] pair. *)
Definition ownerOf (db : Store) (r : Restaurant) : option (string * string) :=
  match find_by (fun u => String.eqb (u_id u) (r_ownerId r)) (users db) with
  | Some u => Some (u_name u, u_email u)
  | None => None
  end.

Definition withOwner (db : Store) (l : ListedRestaurant) : ListedRestaurant :=
  {| lr_doc := lr_doc l; lr_owner := ownerOf db (lr_doc l);
     lr_distance := lr_distance l; lr_distanceKm := lr_distanceKm l |}.

Definition plain (r : Restaurant) : ListedRestaurant :=
  {| lr_doc := r; lr_owner := None; lr_distance := None; lr_distanceKm := None |}.

Section RestaurantController.
Context `{!JsRuntime} `{!RestaurantRuntime}.

(** The [$geoNear] stage: the documents that carry a point, lie within
    [maxDistance] of [near] and satisfy [query], each with its distance,
    nearest first. *)
Definition geoNear (near : Q * Q) (maxDistance : Q) (query : Restaurant -> bool)
    (rs : list Restaurant) : list ListedRestaurant :=
  sortBy byDistance
    (omap (fun r =>
             match r_geometry r with
             | Some point =>
               let d := geoDistance near point in
               if Qle_bool d maxDistance && query r
               then Some {| lr_doc := r; lr_owner := None;
                            lr_distance := Some d; lr_distanceKm := None |}
               else None
             | None => None
             end) rs).

(** [$addFields: { distanceKm: { $round: [{ $divide: ["$distance", 1000] }, 2] } }] *)
Definition addDistanceKm (l : ListedRestaurant) : ListedRestaurant :=
  {| lr_doc := lr_doc l; lr_owner := lr_owner l;
     lr_distance := lr_distance l;
     lr_distanceKm :=
       match lr_distance l with
       | Some d => Some (roundTo2 (d / 1000)%Q)
       | None => None
       end |}.

(** The mock distance of the fallback: 1000 m, 1.0 km. *)
Definition mockDistance (r : Restaurant) : ListedRestaurant :=
  {| lr_doc := r; lr_owner := None;
     lr_distance := Some 1000%Q; lr_distanceKm := Some 1%Q |}.

(** The filter object of [getNearbyRestaurants]. *)
Definition nearbyFilter (q : RestaurantQueryParams) (r : Restaurant) : bool :=
  r_isActive r
  && (if given (qp_cuisine q)
      then String.eqb (r_cuisine r) (default "" (qp_cuisine q)) else true)
  && (if given (qp_priceRange q)
      then priceIs (parseInt (default "" (qp_priceRange q))) r else true).

(** [Restaurant.find(filter)] and [countDocuments(filter)] cast the
    filter to the schema before they query the store: a [priceRange] that
    is NaN is no number and the cast throws.  An aggregation sends its
    stages as they are, and there NaN matches no document. *)
Definition castsFilter (q : RestaurantQueryParams) : bool :=
  if given (qp_priceRange q)
  then match parseInt (default "" (qp_priceRange q)) with
       | Some _ => true
       | None => false
       end
  else true.

Definition badRequest (msg : string) : Response :=
  {| status := 400; body := ErrorBody msg |}.

(** The two aggregations inside the inner [try] of
    [getNearbyRestaurants]: the page of results and the total count;
    [None] when one of them throws.  [geoFails] tells whether the store
    rejects the geospatial stage for a reason of its own (such as a
    missing index). *)
Definition nearbyGeoQuery (geoFails : bool) (db : Store)
    (q : RestaurantQueryParams) (lat lng radiusKm : Q)
  : option (list ListedRestaurant * Z) :=
  let page := default "1" (qp_page q) in
  let limit := default "10" (qp_limit q) in
  let skip := skipOf (parseInt page) (parseInt limit) in
  let near := geoNear (lng, lat) (radiusKm * 1000)%Q (nearbyFilter q)
                (restaurants db) in
  if geoFails then None
  else
    match window skip (parseInt limit)
            (sortBy byDistance (map addDistanceKm near)) with
    | Some restaurants => Some (restaurants, Z.of_nat (length near))
    | None => None
    end.

(** The inner [catch]: a plain query with the same filter, each result
    given the mock distance; [None] when the query throws, which it does
    when the filter cannot be cast or the page cannot be cut. *)
Definition nearbyFallback (db : Store) (q : RestaurantQueryParams)
  : option (list ListedRestaurant * Z) :=
  let page := default "1" (qp_page q) in
  let limit := default "10" (qp_limit q) in
  let skip := skipOf (parseInt page) (parseInt limit) in
  let matching := List.filter (nearbyFilter q) (restaurants db) in
  if castsFilter q then
    match cursorWindow skip (parseInt limit) matching with
    | Some restaurants =>
      Some (map mockDistance restaurants, Z.of_nat (length matching))
    | None => None
    end
  else None.

Definition getNearbyRestaurants (geoFails : bool) (st : State)
    (q : RestaurantQueryParams) : Response :=
  let radius := default "5" (qp_radius q) in
  let page := default "1" (qp_page q) in
  let limit := default "10" (qp_limit q) in
  if negb (given (qp_latitude q)) || negb (given (qp_longitude q)) then
    badRequest "Latitude and longitude are required for location-based search"
  else
    match parseFloat (default "" (qp_latitude q)),
          parseFloat (default "" (qp_longitude q)),
          parseFloat radius with
    | Some lat, Some lng, Some radiusKm =>
      if Qlt_bool lat (-90) || Qlt_bool 90 lat then
        badRequest "Latitude must be between -90 and 90"
      else if Qlt_bool lng (-180) || Qlt_bool 180 lng then
        badRequest "Longitude must be between -180 and 180"
      else if Qle_bool radiusKm 0 then
        badRequest "Radius must be greater than 0"
      else
        let found :=
          match nearbyGeoQuery geoFails (store st) q lat lng radiusKm with
          | Some answer => Some answer
          | None => nearbyFallback (store st) q
          end in
        match found with
        | Some (restaurants, total) =>
          json (ListingBody restaurants
                  {| pg_page := parseInt page; pg_limit := parseInt limit;
                     pg_total := total |})
        | None =>
          {| status := 500; body := ErrorBody "Failed to fetch nearby restaurants" |}
        end
    | _, _, _ => badRequest "Invalid coordinate or radius values"
    end.

(** The condition under which [getRestaurants] reads and fills the cache. *)
Definition defaultBrowse (q : RestaurantQueryParams) : bool :=
  negb (given (qp_location q)) && negb (given (qp_cuisine q))
  && negb (given (qp_priceRange q)) && negb (given (qp_latitude q))
  && negb (given (qp_longitude q)).

(** The store part of [getRestaurants] (the body of its [try]) up to the
    point where the response object is built: [None] when a store call
    throws, [inl] for the early return on unusable coordinates, [inr] for
    the response object.  With coordinates the filters are [$match]
    stages of the aggregation; without, they make the filter of a [find],
    which is cast. *)
Definition queryRestaurants (geoFails : bool) (db : Store)
    (q : RestaurantQueryParams) : option (Response + Body) :=
  let page := default "1" (qp_page q) in
  let limit := default "10" (qp_limit q) in
  let radius := default "10" (qp_radius q) in
  let skip := skipOf (parseInt page) (parseInt limit) in
  let pagination total :=
    {| pg_page := parseInt page; pg_limit := parseInt limit; pg_total := total |} in
  if given (qp_latitude q) && given (qp_longitude q) then
    match parseFloat (default "" (qp_latitude q)),
          parseFloat (default "" (qp_longitude q)),
          parseFloat radius with
    | Some lat, Some lng, Some radiusInKm =>
      let matched :=
        List.filter
          (fun l =>
             r_isActive (lr_doc l)
             && (if given (qp_cuisine q)
                 then String.eqb (r_cuisine (lr_doc l)) (default "" (qp_cuisine q))
                 else true)
             && (if given (qp_priceRange q)
                 then priceIs (parseInt (default "" (qp_priceRange q))) (lr_doc l)
                 else true))
          (geoNear (lng, lat) (radiusInKm * 1000)%Q (fun _ => true)
             (restaurants db)) in
      let sorted := sortBy byDistance matched in
      if geoFails then None
      else
        match window skip (parseInt limit) sorted, afterSkip skip sorted with
        | Some restaurants, Some counted =>
          Some (inr (ListingBody (map (withOwner db) restaurants)
                       (pagination (Z.of_nat (length counted)))))
        | _, _ => None
        end
    | _, _, _ => Some (inl (badRequest "Invalid coordinates or radius"))
    end
  else
    let filter r :=
      r_isActive r
      && (if given (qp_location q)
          then regexMatches (default "" (qp_location q)) (r_location r) else true)
      && (if given (qp_cuisine q)
          then String.eqb (r_cuisine r) (default "" (qp_cuisine q)) else true)
      && (if given (qp_priceRange q)
          then priceIs (parseInt (default "" (qp_priceRange q))) r else true) in
    let matching := List.filter filter (restaurants db) in
    if castsFilter q then
      match cursorWindow skip (parseInt limit)
              (sortBy byName (map (withOwner db) (map plain matching))) with
      | Some restaurants =>
        Some (inr (ListingBody restaurants
                     (pagination (Z.of_nat (length matching)))))
      | None => None
      end
    else None.

Definition getRestaurants (geoFails : bool) (st : State)
    (q : RestaurantQueryParams) : Response * State :=
  let cacheKey := stringifyQuery q in
  match (if defaultBrowse q then restaurantCache st !! cacheKey else None) with
  | Some cached => (json (Cached cached), st)
  | None =>
    match queryRestaurants geoFails (store st) q with
    | Some (inl early) => (early, st)
    | Some (inr response) =>
      if defaultBrowse q then
        (json response,
         set_restaurantCache (<[cacheKey := response]> (restaurantCache st)) st)
      else (json response, st)
    | None =>
      ({| status := 500; body := ErrorBody "Failed to fetch restaurants" |}, st)
    end
  end.

(** [Restaurant.findById]: a string that is not an object id makes the
    cast throw. *)
Definition findById (db : Store) (id : string) : Exn + option Restaurant :=
  if validObjectId id
  then inr (find_by (fun r => String.eqb (r_id r) id) (restaurants db))
  else inl CastError.

Definition restaurantKey (id : string) : string := "restaurant_" +:+ id.

Definition getRestaurantById (st : State) (id : string) : Response * State :=
  let cacheKey := restaurantKey id in
  match restaurantCache st !! cacheKey with
  | Some cached => (json (Cached cached), st)
  | None =>
    match findById (store st) id with
    | inl CastError =>
      ({| status := 400; body := ErrorBody "Invalid restaurant ID" |}, st)
    | inl _ =>
      ({| status := 500; body := ErrorBody "Failed to fetch restaurant" |}, st)
    | inr None =>
      ({| status := 404; body := ErrorBody "Restaurant not found" |}, st)
    | inr (Some restaurant) =>
      if negb (r_isActive restaurant) then
        ({| status := 404; body := ErrorBody "Restaurant is not available" |}, st)
      else
        let found := RestaurantBody restaurant (ownerOf (store st) restaurant) in
        (json found,
         set_restaurantCache (<[cacheKey := found]> (restaurantCache st)) st)
    end
  end.

(** [restaurant.isActive = false; await restaurant.save()]: of the
    fields of the record the flag alone changes.  (The [updatedAt] stamp,
    which the record leaves out, moves as on every save.) *)
Definition deactivate (r : Restaurant) : Restaurant :=
  {| r_id := r_id r; r_name := r_name r; r_cuisine := r_cuisine r;
     r_location := r_location r; r_geometry := r_geometry r;
     r_priceRange := r_priceRange r; r_ownerId := r_ownerId r;
     r_capacity := r_capacity r; r_openingHours := r_openingHours r;
     r_isActive := false |}.

Fixpoint saveInactive (id : string) (rs : list Restaurant) : list Restaurant :=
  match rs with
  | [] => []
  | r :: rs' =>
    if String.eqb (r_id r) id then deactivate r :: rs'
    else r :: saveInactive id rs'
  end.

Definition deleteRestaurant (st : State) (ownerId restaurantId : string)
  : Response * State :=
  match findById (store st) restaurantId with
  | inl _ =>
    ({| status := 500; body := ErrorBody "Failed to delete restaurant" |}, st)
  | inr None =>
    ({| status := 404; body := ErrorBody "Restaurant not found" |}, st)
  | inr (Some restaurant) =>
    if negb (String.eqb (r_ownerId restaurant) ownerId) then
      ({| status := 403;
          body := ErrorBody "You don't have permission to delete this restaurant" |},
       st)
    else
      (json (MessageBody "Restaurant deleted successfully"),
       set_store (set_restaurants
                    (saveInactive (r_id restaurant) (restaurants (store st)))
                    (store st)) st)
  end.

End RestaurantController.

(** Modelled from the spec: reading a review by its id.  The review
    controller is not among the sources (only its routes are mounted,
    under /api/reviews); the spec says that the reviews of a restaurant
    remain retrievable by id, and this is the review of the collection
    that carries the id. *)
Definition findReviewById (db : Store) (id : string) : option Review :=
  find_by (fun v => String.eqb (rv_id v) id) (reviews db).

(** ** Restaurant controller: the owner's views *)

(** A response whose body has a type of its own. *)
Record Reply (B : Type) := { rp_status : Z; rp_body : B }.
Arguments rp_status {B} _.
Arguments rp_body {B} _.

(** The [createdAt] stamp that [timestamps: true] keeps on a restaurant
    or booking document and that the records above leave out.  A document
    keeps the stamp it was created with, so the stamp is a function of
    the [_id]. *)
Class Timestamps := { createdAt : string -> Z }.

(** [.sort({ createdAt: -1 })] on documents whose [_id] is [id]. *)
Definition newestFirst `{!Timestamps} {A} (id : A -> string) (a b : A) : bool :=
  createdAt (id b) <=? createdAt (id a).

(** The [stats] object of [getRestaurantStats]. *)
Record RestaurantStats := {
  totalBookings : Z;
  todayBookings : Z;
  upcomingBookings : Z;
  totalReviews : Z;
  averageRating : Q
}.

(** A booking whose [customerId] path has been populated ([name email]). *)
Record OwnerBooking := {
  ob_doc : Booking;
  ob_customer : option (string * string)
}.

Inductive OwnerBody :=
| OwnerError (error : string)
| MyRestaurantsBody (restaurants : list ListedRestaurant) (total : Z)
| RestaurantBookingsBody (restaurantId restaurantName : string)
    (bookings : list OwnerBooking) (total : Z)
| RestaurantStatsBody (restaurantId restaurantName : string)
    (stats : RestaurantStats).

Definition ownerError (code : Z) (msg : string) : Reply OwnerBody :=
  {| rp_status := code; rp_body := OwnerError msg |}.

(** The query of [getRestaurantBookings]. *)
Record BookingsQuery := {
  bq_limit : option string;
  bq_status : option string;
  bq_date : option string
}.

(** The value a status carries in the store. *)
Definition statusName (s : BookingStatus) : string :=
  match s with
  | confirmed => "confirmed"
  | pending => "pending"
  | cancelled => "cancelled"
  | completed => "completed"
  end.

Definition customerOf (db : Store) (b : Booking) : OwnerBooking :=
  {| ob_doc := b;
     ob_customer :=
       match find_by (fun u => String.eqb (u_id u) (bk_customerId b)) (users db) with
       | Some u => Some (u_name u, u_email u)
       | None => None
       end |}.

Definition countWhere {A} (p : A -> bool) (l : list A) : Z :=
  Z.of_nat (length (List.filter p l)).

(** The [$group] stage with [$avg]: one document when a review matched,
    none otherwise. *)
Definition avgRating (matched : list Review) : option Q :=
  let sum := foldr (fun v acc => rv_rating v + acc) 0 matched in
  let count := Z.of_nat (length matched) in
  match matched with
  | [] => None
  | _ => Some (inject_Z sum / inject_Z count)%Q
  end.

(** [averageRating[0]?.avgRating || 0] *)
Definition orZeroQ (x : option Q) : Q :=
  match x with
  | Some v => if Qeq_bool v 0 then 0%Q else v
  | None => 0%Q
  end.

Section OwnerViews.
Context `{!JsRuntime} `{!RestaurantRuntime} `{!Timestamps}.

(** [getMyRestaurants]; the owner id of the filter is cast to an object
    id like any other. *)
Definition getMyRestaurants (st : State) (ownerId : string) : Reply OwnerBody :=
  if validObjectId ownerId then
    let restaurants :=
      sortBy (newestFirst (fun l => r_id (lr_doc l)))
        (map (withOwner (store st))
           (map plain
              (List.filter
                 (fun r => String.eqb (r_ownerId r) ownerId && r_isActive r)
                 (restaurants (store st))))) in
    {| rp_status := 200;
       rp_body := MyRestaurantsBody restaurants (Z.of_nat (length restaurants)) |}
  else ownerError 500 "Failed to fetch restaurants".

(** The filter object of [getRestaurantBookings]. *)
Definition bookingsFilter (restaurantId : string) (q : BookingsQuery)
    (b : Booking) : bool :=
  String.eqb (bk_restaurantId b) restaurantId
  && (if given (bq_status q) && negb (String.eqb (default "" (bq_status q)) "all")
      then String.eqb (statusName (bk_status b)) (default "" (bq_status q))
      else true)
  && (if given (bq_date q)
      then String.eqb (bk_date b) (default "" (bq_date q)) else true).

Definition getRestaurantBookings (st : State) (ownerId restaurantId : string)
    (q : BookingsQuery) : Reply OwnerBody :=
  let limit := default "10" (bq_limit q) in
  match findById (store st) restaurantId with
  | inl _ => ownerError 500 "Failed to fetch bookings"
  | inr None => ownerError 404 "Restaurant not found"
  | inr (Some restaurant) =>
    if negb (String.eqb (r_ownerId restaurant) ownerId) then
      ownerError 403 "You don't have permission to view these bookings"
    else
      match cursorWindow (Some 0) (parseInt limit)
              (sortBy (newestFirst bk_id)
                 (List.filter (bookingsFilter restaurantId q)
                    (bookings (store st)))) with
      | Some found =>
        let bookings := map (customerOf (store st)) found in
        {| rp_status := 200;
           rp_body :=
             RestaurantBookingsBody restaurantId (r_name restaurant) bookings
               (Z.of_nat (length bookings)) |}
      | None => ownerError 500 "Failed to fetch bookings"
      end
  end.

(** [getRestaurantStats]; [today] is
    [new Date().toISOString().split("T")[0]], and [$gte] on two strings
    compares them in binary order. *)
Definition getRestaurantStats (today : string) (st : State)
    (ownerId restaurantId : string) : Reply OwnerBody :=
  match findById (store st) restaurantId with
  | inl _ => ownerError 500 "Failed to fetch restaurant statistics"
  | inr None => ownerError 404 "Restaurant not found"
  | inr (Some restaurant) =>
    if negb (String.eqb (r_ownerId restaurant) ownerId) then
      ownerError 403 "You don't have permission to view these stats"
    else
      let ofRestaurant b := String.eqb (bk_restaurantId b) restaurantId in
      {| rp_status := 200;
         rp_body :=
           RestaurantStatsBody restaurantId (r_name restaurant)
             {| totalBookings := countWhere ofRestaurant (bookings (store st));
                todayBookings :=
                  countWhere
                    (fun b => ofRestaurant b && String.eqb (bk_date b) today
                              && inConfirmedPending (bk_status b))
                    (bookings (store st));
                upcomingBookings :=
                  countWhere
                    (fun b => ofRestaurant b && String.leb today (bk_date b)
                              && inConfirmedPending (bk_status b))
                    (bookings (store st));
                totalReviews :=
                  countWhere
                    (fun v => String.eqb (rv_restaurantId v) restaurantId)
                    (reviews (store st));
                averageRating :=
                  orZeroQ
                    (avgRating
                       (List.filter
                          (fun v => String.eqb (rv_restaurantId v) (r_id restaurant))
                          (reviews (store st)))) |} |}
  end.

End OwnerViews.

(** ** Restaurant controller: creation *)

(** [validateCoordinates] of utils/location (a rational is never NaN). *)
Definition validateCoordinates (latitude longitude : Q) : bool :=
  Qle_bool (-90) latitude && Qle_bool latitude 90
  && Qle_bool (-180) longitude && Qle_bool longitude 180.

Record GeocodeResult := { gc_latitude : Q; gc_longitude : Q }.

(** [geocodeAddress] of utils/location: the mock answers the coordinates
    of Halifax for every address that is not empty. *)
Definition geocodeAddress (address : string) : option GeocodeResult :=
  if negb (String.eqb address "") then
    Some {| gc_latitude := 446488 # 10000; gc_longitude := -635752 # 10000 |}
  else None.

(** The validators of the restaurant schema.  A validation error lists
    the failed paths, each with the message of the validator that failed
    first; the model keeps the path and the kind of validator. *)
Inductive Rule := Required | MaxLength | Enum | Min | Max | Match | Validate | Cast.

(** The body of a [createRestaurant] request as it arrives.  Any field
    of [CreateRestaurantBody] may be missing, and the request may carry
    fields the interface does not name: the handler spreads whatever the
    body holds, except the latitude and the longitude, into the document,
    where the paths of the schema keep it.  Two of those paths are fields
    of the restaurant record, [isActive] and [_id], and the model keeps
    them.  The typed fields hold what the casts of the schema make of the
    body: a price range and a capacity are integers, as in the restaurant
    record, and an [isActive] that is null, which every reader takes for
    false, is [Some false].  [crb_otherErrors] holds the failures that
    the model does not compute: those of a value that cannot be cast, and
    those of the paths that the record leaves out ([_averageRating],
    [coordinates], [address], [menuItems]). *)
Record CreateRestaurantBody := {
  crb_name : option string;
  crb_cuisine : option string;
  crb_location : option string;
  crb_priceRange : option Z;
  crb_description : option string;
  crb_phoneNumber : option string;
  crb_email : option string;
  crb_capacity : option Z;
  crb_latitude : option Q;
  crb_longitude : option Q;
  crb_openingHours : gmap string DayHours;
  crb_isActive : option bool;
  crb_id : option string;
  crb_otherErrors : list (string * Rule)
}.

(** What the validators use of the runtime: the length of a string and
    the tests of the two [match] patterns. *)
Class SchemaRuntime := {
  charCount : string -> Z;
  phonePattern : string -> bool;
  emailPattern : string -> bool
}.

(** The [enum] of the [cuisine] path. *)
Definition cuisines : list string :=
  ["Italian"; "Indian"; "Chinese"; "Mexican"; "American"; "Thai"; "Japanese";
   "Mediterranean"; "French"; "Other"]%string.

(** A required string path: it fails when the value is missing or empty,
    and its other validators run otherwise. *)
Definition requiredText (path : string) (value : option string)
    (others : string -> list (string * Rule)) : list (string * Rule) :=
  match value with
  | Some s => if String.eqb s "" then [(path, Required)] else others s
  | None => [(path, Required)]
  end.

(** A [match] validator: a missing or empty value passes. *)
Definition matchText (path : string) (value : option string)
    (pattern : string -> bool) : list (string * Rule) :=
  match value with
  | Some s =>
    if String.eqb s "" || pattern s then [] else [(path, Match)]
  | None => []
  end.

(** The validator of [geometry.coordinates] on a pair [longitude, latitude]. *)
Definition validPoint (coordinates : Q * Q) : bool :=
  Qle_bool (-180) coordinates.1 && Qle_bool coordinates.1 180
  && Qle_bool (-90) coordinates.2 && Qle_bool coordinates.2 90.

(** The bodies [createRestaurant] answers with. *)
Inductive CreateBody :=
| CreateError (error : string)
| ValidationFailed (error : string) (details : list (string * Rule))
| CreatedBody (message : string) (restaurant : Restaurant)
    (owner : option (string * string)) (coordinates : Q * Q).

Definition createError (code : Z) (msg : string) : Reply CreateBody :=
  {| rp_status := code; rp_body := CreateError msg |}.

(** What is outside the handler's control when it saves: the id the
    driver generates for a document that comes without one, and whether
    the store fails for a reason of its own. *)
Record CreateEnv := { ce_newId : string; ce_saveFails : bool }.

Section RestaurantCreation.
Context `{!JsRuntime} `{!RestaurantRuntime} `{!SchemaRuntime}.

(** What validation reports: the failures of the paths of the record,
    in the order of the schema and with the setters ([trim]) and defaults
    applied, then the cast of a given [_id], then the failures of the
    paths the record leaves out. *)
Definition restaurantErrors (ownerId : string) (b : CreateRestaurantBody)
    (coordinates : Q * Q) : list (string * Rule) :=
  requiredText "name" (trim <$> crb_name b)
    (fun s => if 100 <? charCount s then [("name", MaxLength)] else [])
  ++ requiredText "cuisine" (crb_cuisine b)
       (fun s => if bool_decide (s ∈ cuisines) then [] else [("cuisine", Enum)])
  ++ requiredText "location" (trim <$> crb_location b) (fun _ => [])
  ++ (if validPoint coordinates then [] else [("geometry.coordinates", Validate)])
  ++ match crb_priceRange b with
     | None => [("priceRange", Required)]
     | Some p =>
       if p <? 1 then [("priceRange", Min)]
       else if 4 <? p then [("priceRange", Max)] else []
     end
  ++ (if validObjectId ownerId then [] else [("ownerId", Cast)])
  ++ match crb_description b with
     | Some s => if 500 <? charCount s then [("description", MaxLength)] else []
     | None => []
     end
  ++ matchText "phoneNumber" (crb_phoneNumber b) phonePattern
  ++ matchText "email" (crb_email b) emailPattern
  ++ (if default 50 (crb_capacity b) <? 1 then [("capacity", Min)] else [])
  ++ match crb_id b with
     | Some id => if validObjectId id then [] else [("_id", Cast)]
     | None => []
     end
  ++ crb_otherErrors b.

(** The document that is saved: [new Restaurant({ ...otherData, location,
    geometry, ownerId })].  The geometry and the owner are the handler's;
    every other path takes what the body holds and its default
    otherwise, so a body may name the id and may say that the restaurant
    is not active.  [id] is the id the driver generates when the body
    names none. *)
Definition newRestaurant (id ownerId : string) (b : CreateRestaurantBody)
    (coordinates : Q * Q) : Restaurant :=
  {| r_id := default id (crb_id b);
     r_name := trim (default "" (crb_name b));
     r_cuisine := default "" (crb_cuisine b);
     r_location := trim (default "" (crb_location b));
     r_geometry := Some coordinates;
     r_priceRange := default 0 (crb_priceRange b);
     r_ownerId := ownerId;
     r_capacity := default 50 (crb_capacity b);
     r_openingHours := crb_openingHours b;
     r_isActive := default true (crb_isActive b) |}.

(** The coordinates [createRestaurant] settles on, [longitude, latitude]:
    [inl] when the given pair is rejected, [inr None] when there is
    neither a pair nor an address to geocode. *)
Definition resolveCoordinates (b : CreateRestaurantBody) : unit + option (Q * Q) :=
  match crb_latitude b, crb_longitude b with
  | Some latitude, Some longitude =>
    if negb (validateCoordinates latitude longitude) then inl ()
    else inr (Some (longitude, latitude))
  | _, _ =>
    if given (crb_location b) then
      match geocodeAddress (default "" (crb_location b)) with
      | Some geocodeResult =>
        inr (Some (gc_longitude geocodeResult, gc_latitude geocodeResult))
      | None => inr None
      end
    else inr None
  end.

(** [createRestaurant].  [save] validates the document and inserts it:
    a validation error is answered 400 with its details, and any other
    failure 500, among them the refusal of a document whose [_id] is
    taken, which the index on [_id] raises. *)
Definition createRestaurant (env : CreateEnv) (st : State) (ownerId : string)
    (b : CreateRestaurantBody) : Reply CreateBody * State :=
  match resolveCoordinates b with
  | inl _ => (createError 400 "Invalid latitude or longitude values", st)
  | inr None =>
    (createError 400
       "Could not determine restaurant location. Please provide valid coordinates or address.",
     st)
  | inr (Some coordinates) =>
    let restaurant := newRestaurant (ce_newId env) ownerId b coordinates in
    match restaurantErrors ownerId b coordinates with
    | [] =>
      if ce_saveFails env
         || bool_decide (r_id restaurant ∈ map r_id (restaurants (store st)))
      then
        (createError 500 "Failed to create restaurant", st)
      else
        let db' :=
          set_restaurants (restaurants (store st) ++ [restaurant]) (store st) in
        ({| rp_status := 201;
            rp_body :=
              CreatedBody "Restaurant created successfully" restaurant
                (ownerOf db' restaurant) coordinates |},
         set_store db' st)
    | details =>
      ({| rp_status := 400; rp_body := ValidationFailed "Validation failed" details |},
       st)
    end
  end.

End RestaurantCreation.

(** ** Favourites controller *)

(** The favourite schema: the pair of references and the creation stamp. *)
Record Favorite := {
  fav_id : string;
  fav_userId : string;
  fav_restaurantId : string;
  fav_createdAt : Z
}.

(** [req.user] *)
Record AuthUser := { au_id : string; au_role : string }.

(** The populated [restaurantId] path of a favourite: of the selected
    fields, those the restaurant record carries. *)
Record FavoriteRestaurant := {
  frs_id : string;
  frs_name : string;
  frs_cuisine : string;
  frs_location : string
}.

Record PopulatedFavorite := {
  pf_doc : Favorite;
  pf_restaurant : option FavoriteRestaurant
}.

Inductive FavoriteBody :=
| FavoriteError (error : string)
| ToggledBody (message : string) (isFavorited : bool)
| FavoriteStatusBody (isFavorited : bool)
| FavoritesBody (favorites : list PopulatedFavorite).

Definition favoriteError (code : Z) (msg : string) : Reply FavoriteBody :=
  {| rp_status := code; rp_body := FavoriteError msg |}.

(** What is outside the handler's control when it inserts: the id the
    driver generates and the value of [Date.now]. *)
Record FavoriteEnv := { fe_newId : string; fe_now : Z }.

(** [Favorite.findOne({ userId, restaurantId })] *)
Definition findFavorite (favs : list Favorite) (userId restaurantId : string)
  : option Favorite :=
  find_by (fun f => String.eqb (fav_userId f) userId
                    && String.eqb (fav_restaurantId f) restaurantId) favs.

(** [Favorite.deleteOne({ _id })]: the first document with that id goes. *)
Fixpoint deleteOne (id : string) (favs : list Favorite) : list Favorite :=
  match favs with
  | [] => []
  | f :: favs' =>
    if String.eqb (fav_id f) id then favs' else f :: deleteOne id favs'
  end.

Definition populateFavorite (db : Store) (f : Favorite) : PopulatedFavorite :=
  {| pf_doc := f;
     pf_restaurant :=
       match find_by (fun r => String.eqb (r_id r) (fav_restaurantId f))
               (restaurants db) with
       | Some r =>
         Some {| frs_id := r_id r; frs_name := r_name r;
                 frs_cuisine := r_cuisine r; frs_location := r_location r |}
       | None => None
       end |}.

Section FavoriteController.
Context `{!RestaurantRuntime}.

Definition toggleFavorite (env : FavoriteEnv) (db : Store) (favs : list Favorite)
    (user : AuthUser) (restaurantId : string)
  : Reply FavoriteBody * list Favorite :=
  if negb (String.eqb (au_role user) "customer") then
    (favoriteError 403 "Only customers can manage favorites", favs)
  else
    let userId := au_id user in
    match findById db restaurantId with
    | inl _ => (favoriteError 500 "Failed to manage favorite", favs)
    | inr None =>
      (favoriteError 404 "Restaurant not found or not active", favs)
    | inr (Some restaurant) =>
      if negb (r_isActive restaurant) then
        (favoriteError 404 "Restaurant not found or not active", favs)
      else
        match findFavorite favs userId restaurantId with
        | Some existingFavorite =>
          ({| rp_status := 200;
              rp_body := ToggledBody "Restaurant removed from favorites" false |},
           deleteOne (fav_id existingFavorite) favs)
        | None =>
          let favorite :=
            {| fav_id := fe_newId env; fav_userId := userId;
               fav_restaurantId := restaurantId; fav_createdAt := fe_now env |} in
          ({| rp_status := 201;
              rp_body := ToggledBody "Restaurant added to favorites" true |},
           favs ++ [favorite])
        end
    end.

Definition getFavorites (db : Store) (favs : list Favorite) (user : AuthUser)
  : Reply FavoriteBody :=
  if negb (String.eqb (au_role user) "customer") then
    favoriteError 403 "Only customers can view favorites"
  else
    let favorites :=
      map (populateFavorite db)
        (sortBy (fun a b => fav_createdAt b <=? fav_createdAt a)
           (List.filter (fun f => String.eqb (fav_userId f) (au_id user)) favs)) in
    {| rp_status := 200; rp_body := FavoritesBody favorites |}.

(** [checkFavoriteStatus]; the restaurant id of the filter is cast to an
    object id, and a string that is none makes the query throw. *)
Definition checkFavoriteStatus (favs : list Favorite) (user : AuthUser)
    (restaurantId : string) : Reply FavoriteBody :=
  if negb (String.eqb (au_role user) "customer") then
    favoriteError 403 "Only customers can check favorite status"
  else if validObjectId restaurantId then
    {| rp_status := 200;
       rp_body :=
         FavoriteStatusBody
           (match findFavorite favs (au_id user) restaurantId with
            | Some _ => true
            | None => false
            end) |}
  else favoriteError 500 "Failed to check favorite status".

End FavoriteController.

(** ** The pages that call the favourites controller *)

(** What the HTTP client of the pages hands to a subscriber: the parsed
    body of an answer in the 200s goes to [next], every other answer to
    [error] (or rejects the promise). *)
Definition delivered (r : Reply FavoriteBody) : option FavoriteBody :=
  if (200 <=? rp_status r) && (rp_status r <? 300) then Some (rp_body r)
  else None.

(** [typeof res.<name> === 'boolean']: the boolean a body of the favourites
    controller carries under a field name.  The controller sends
    [{ message, isFavorited }], [{ isFavorited }], [{ favorites }] and
    [{ error }]. *)
Definition booleanField (name : string) (res : FavoriteBody) : option bool :=
  match res with
  | ToggledBody _ isFavorited | FavoriteStatusBody isFavorited =>
    if String.eqb name "isFavorited" then Some isFavorited else None
  | FavoriteError _ | FavoritesBody _ => None
  end.

(** The restaurants list page, [loadRestaurants]: the flag it gives a
    listed restaurant once [checkFavoriteStatus] has answered. *)
Definition listFavoriteFlag (r : Reply FavoriteBody) : bool :=
  match delivered r with
  | Some res =>
    match booleanField "isFavorite" res with
    | Some isFavorite => isFavorite
    | None => false
    end
  | None => false
  end.

(** The restaurants list page, [onToggleFavorite]: the flag of the
    restaurant after [toggleFavorite] has answered. *)
Definition listToggledFlag (flag : bool) (r : Reply FavoriteBody) : bool :=
  match delivered r with
  | Some res =>
    match booleanField "isFavorite" res with
    | Some isFavorite => isFavorite
    | None => flag
    end
  | None => flag
  end.

(** The expression both callbacks of the restaurant detail page assign. *)
Definition readFavorited (res : FavoriteBody) : bool :=
  match booleanField "isFavorited" res with
  | Some isFavorited => isFavorited
  | None =>
    match booleanField "isFavorite" res with
    | Some isFavorite => isFavorite
    | None => false
    end
  end.

(** The restaurant detail page, [checkFavoriteStatus] for a logged-in
    customer. *)
Definition detailFavoriteFlag (r : Reply FavoriteBody) : bool :=
  match delivered r with
  | Some res => readFavorited res
  | None => false
  end.

(** The restaurant detail page, [onToggleFavorite]. *)
Definition detailToggledFlag (flag : bool) (r : Reply FavoriteBody) : bool :=
  match delivered r with
  | Some res => readFavorited res
  | None => flag
  end.

(** ** The reviews panel of the restaurant page *)

(** [ratingDistribution[review.rating]++] on an object used as a map from
    rating to count; [None] is NaN, which is what incrementing a missing
    property leaves behind. *)
Definition countRating (distribution : gmap Z (option Z)) (rating : Z)
  : gmap Z (option Z) :=
  <[rating := match distribution !! rating with
              | Some (Some n) => Some (n + 1)
              | _ => None
              end]> distribution.

(** [{ 5: 0, 4: 0, 3: 0, 2: 0, 1: 0 }] *)
Definition noRatings : gmap Z (option Z) :=
  {[ 5 := Some 0; 4 := Some 0; 3 := Some 0; 2 := Some 0; 1 := Some 0 ]}.

(** The numbers of the page are IEEE doubles.  A count of reviews is an
    integer that a double carries exactly.  A sum of ratings, a quotient
    and a product are rounded, so the three operations are taken from the
    runtime as they are, with no law assumed of them. *)
Class Doubles := {
  double : Type;
  ofInteger : Z -> double;
  plus : double -> double -> double;
  divide : double -> double -> double;
  times : double -> double -> double
}.

Section ReviewsPanel.
Context `{!Doubles}.

Record ReviewStats := {
  rs_totalReviews : Z;
  rs_averageRating : double;
  rs_ratingDistribution : gmap Z (option Z)
}.

(** [calculateStats] of the reviews panel, on the reviews it has loaded. *)
Definition calculateStats (reviews : list Review) : ReviewStats :=
  let totalReviews := Z.of_nat (length reviews) in
  if totalReviews =? 0 then
    {| rs_totalReviews := totalReviews; rs_averageRating := ofInteger 0;
       rs_ratingDistribution := noRatings |}
  else
    let sum :=
      foldl (fun total review => plus total (ofInteger (rv_rating review)))
            (ofInteger 0) reviews in
    {| rs_totalReviews := totalReviews;
       rs_averageRating := divide sum (ofInteger totalReviews);
       rs_ratingDistribution :=
         foldl (fun distribution review =>
                  countRating distribution (rv_rating review))
               noRatings reviews |}.

(** [getRatingPercentage]; [None] is NaN, the quotient of a count that
    is NaN. *)
Definition getRatingPercentage (stats : ReviewStats) (rating : Z)
  : option double :=
  if rs_totalReviews stats =? 0 then Some (ofInteger 0)
  else
    match rs_ratingDistribution stats !! rating with
    | Some (Some n) =>
      Some (times (divide (ofInteger n) (ofInteger (rs_totalReviews stats)))
                  (ofInteger 100))
    | _ => None
    end.

(** [getAverageRating] of the page of a customer's own reviews. *)
Definition getAverageRating (reviews : list Review) : double :=
  let sum :=
    foldl (fun total review => plus total (ofInteger (rv_rating review)))
          (ofInteger 0) reviews in
  if Z.of_nat (length reviews) =? 0 then ofInteger 0
  else divide sum (ofInteger (Z.of_nat (length reviews))).

End ReviewsPanel.

(** ** Requests in flight *)

(** [createBooking] awaits the store between its capacity aggregate and
    its insert, so the handlers of other requests may run in between.  A
    request in flight is at one of three points. *)
Inductive Task :=
| Arrived (env : WriteEnv) (customerId : string) (b : CreateBookingBody)
| Inserting (env : WriteEnv) (c : Cleared)
| Answered (r : Response).

Record System := { sys_state : State; sys_tasks : list Task }.

Section Scheduling.
Context `{!BookingHelpers} `{!JsRuntime}.

(** One turn of one request: the next phase of its handler, on the state
    the service is in at that moment. *)
Definition advance (t : Task) (st : State) : Task * State :=
  match t with
  | Arrived env customerId b =>
    match createBooking_check st customerId b with
    | (inl r, _) => (Answered r, st)
    | (inr c, _) => (Inserting env c, st)
    end
  | Inserting env c =>
    let '(r, st', _) := createBooking_insert env st c in (Answered r, st')
  | Answered r => (Answered r, st)
  end.

Definition turn (sys : System) (i : nat) : System :=
  match sys_tasks sys !! i with
  | Some t =>
    let '(t', st') := advance t (sys_state sys) in
    {| sys_state := st'; sys_tasks := <[i := t']> (sys_tasks sys) |}
  | None => sys
  end.

(** A schedule names, turn by turn, the request that runs next. *)
Definition run (schedule : list nat) (sys : System) : System :=
  foldl turn sys schedule.

End Scheduling.

(** The same write environment with another mailer outcome. *)
Definition withEmailFails (outcome : bool) (env : WriteEnv) : WriteEnv :=
  {| newId := newId env; saveError := saveError env;
     commitError := commitError env; emailFails := outcome |}.

Definition answeredStatus (t : Task) : option Z :=
  match t with
  | Answered r => Some (status r)
  | _ => None
  end.

(** ** Histories *)

(** What can change the bookings collection or the booking cache: the
    three booking handlers, the deletion of a restaurant, and a cache
    entry reaching its time to live. *)
Inductive Request :=
| GetAvailability (q : AvailabilityQuery)
| CreateBooking (env : WriteEnv) (customerId : string) (b : CreateBookingBody)
| CancelBooking (now : Z) (customerId id : string)
| DeleteRestaurant (ownerId restaurantId : string)
| Expire (key : string).

Section Histories.
Context `{!BookingHelpers} `{!JsRuntime} `{!RestaurantRuntime}.

(** The state after one request that runs alone. *)
Definition serve (st : State) (rq : Request) : State :=
  match rq with
  | GetAvailability q => (getAvailability st q).2
  | CreateBooking env customerId b => (createBooking env st customerId b).1.2
  | CancelBooking now customerId id => (cancelBooking now st customerId id).2
  | DeleteRestaurant ownerId restaurantId =>
    (deleteRestaurant st ownerId restaurantId).2
  | Expire key => set_bookingCache (delete key (bookingCache st)) st
  end.

Definition serveAll (st : State) (rqs : list Request) : State :=
  foldl serve st rqs.

(** The driver never generates the id of a stored booking. *)
Fixpoint freshIds (st : State) (rqs : list Request) : Prop :=
  match rqs with
  | [] => True
  | rq :: rqs' =>
    match rq with
    | CreateBooking env _ _ => newId env ∉ map bk_id (bookings (store st))
    | _ => True
    end
    ∧ freshIds (serve st rq) rqs'
  end.

End Histories.

(** ** Specification-level notions *)

Global Instance BookingStatus_eq_dec : EqDecision BookingStatus.
Proof. solve_decision. Defined.

(** A booking counts against a slot when it is for that restaurant, date
    and time and its status is confirmed or pending. *)
Definition CountsAt (restaurantId date time : string) (b : Booking) : Prop :=
  bk_restaurantId b = restaurantId ∧ bk_date b = date ∧ bk_time b = time
  ∧ (bk_status b = confirmed ∨ bk_status b = pending).

Global Instance CountsAt_dec restaurantId date time b :
  Decision (CountsAt restaurantId date time b).
Proof. unfold CountsAt. apply _. Defined.

(** The sum of the guest counts of the confirmed or pending bookings at a
    restaurant, date and time, as the specification words it. *)
Definition committedGuests (db : Store) (restaurantId date time : string) : Z :=
  sumGuests (filter (CountsAt restaurantId date time) (bookings db)).

(** The capacity invariant over the whole store, for the restaurants that
    bookings can be made at. *)
Definition capacityRespected (db : Store) : Prop :=
  ∀ rid restaurant date time,
    findRestaurantById db rid = inr restaurant →
    committedGuests db rid date time <= r_capacity restaurant.

(** [a] is listed with a distance, and [b] with one at least as large. *)
Definition NoFarther (a b : ListedRestaurant) : Prop :=
  match lr_distance a, lr_distance b with
  | Some x, Some y => (x <= y)%Q
  | _, _ => False
  end.

(** An availability answer that agrees with the bookings collection:
    every slot's booked guests (total minus available) are the guests
    committed at that restaurant, date and time. *)
Definition slotsReflect (db : Store) (restaurantId date : string)
    (slots : list SlotInfo) : Prop :=
  Forall (fun s =>
            slot_availableCapacity s
            = slot_totalCapacity s
              - committedGuests db restaurantId date (slot_time s))
         slots.

(** The booking with this id is in the collection, cancelled. *)
Definition cancelledIn (db : Store) (id : string) : Prop :=
  id ∈ map bk_id (bookings db)
  ∧ ∀ x, x ∈ bookings db → bk_id x = id → bk_status x = cancelled.

(** Document ids are unique within the bookings collection. *)
Definition uniqueBookingIds (db : Store) : Prop :=
  NoDup (map bk_id (bookings db)).

(** The state invariant of the booking controller when requests run one
    at a time: booking ids are unique, every booking refers to a stored
    restaurant, and every availability answer in the cache sits under the
    key of its own restaurant and date and agrees with the bookings
    collection. *)
Record Consistent (st : State) : Prop := {
  ids_unique : uniqueBookingIds (store st);
  refs_resolve :
    ∀ b, b ∈ bookings (store st) →
         is_Some (find_by (fun r => String.eqb (r_id r) (bk_restaurantId b))
                    (restaurants (store st)));
  cache_agrees :
    ∀ k rid name date dow h slots n,
      bookingCache st !! k = Some (AvailabilityBody rid name date dow h slots n) →
      k = availabilityKey rid date ∧ slotsReflect (store st) rid date slots
}.

(** ** A concrete environment for the worked examples *)

Definition digitOf (c : Ascii.ascii) : option Z :=
  let n := Z.of_N (Ascii.N_of_ascii c) in
  if (48 <=? n) && (n <=? 57) then Some (n - 48) else None.

Fixpoint readDigits (acc : Z) (s : string) : option Z :=
  match s with
  | EmptyString => Some acc
  | String c s' =>
    match digitOf c with
    | Some d => readDigits (10 * acc + d) s'
    | None => None
    end
  end.

(** Decimal numerals with an optional minus sign; anything else is NaN. *)
Definition readDecimal (s : string) : option Z :=
  match s with
  | EmptyString => None
  | String c s' =>
    if Ascii.eqb c (Ascii.ascii_of_nat 45) then
      match s' with
      | EmptyString => None
      | _ => Z.opp <$> readDigits 0 s'
      end
    else readDigits 0 s
  end.

Definition exampleHelpers : BookingHelpers :=
  {| getDayOfWeek := fun date =>
       if String.eqb date "2025-07-04" then "friday" else "sunday";
     generateTimeSlots := fun _ _ => ["18:00"; "19:00"; "20:00"]%string;
     isTimeWithinHours := fun time o c => String.leb o time && String.ltb time c;
     validateAvailabilityInput := fun _ => None;
     validateCreateBookingInput := fun _ => None |}.

(** A populated document prints as its fields, the way the object mapper
    inspects a document. *)
Definition printed (ref : RestaurantRef) : string :=
  "{ _id: new ObjectId('" +:+ ref_id ref +:+ "'), name: '" +:+ ref_name ref
    +:+ "' }".

Definition exampleRuntime : JsRuntime :=
  {| parseFloat := fun s => inject_Z <$> readDecimal s;
     parseInt := readDecimal;
     trim := fun s => s;
     dateTimeValue := fun _ _ => Some 2000;
     refToString := printed |}.

(** The same runtime, except that a populated document prints as its id. *)
Definition idRuntime : JsRuntime :=
  {| parseFloat := fun s => inject_Z <$> readDecimal s;
     parseInt := readDecimal;
     trim := fun s => s;
     dateTimeValue := fun _ _ => Some 2000;
     refToString := ref_id |}.

Definition Qabs' (x : Q) : Q := if Qle_bool 0 x then x else (- x)%Q.

Definition exampleRestaurantRuntime : RestaurantRuntime :=
  {| stringifyQuery := fun q =>
       "{page:" +:+ default "" (qp_page q) +:+ ",limit:"
         +:+ default "" (qp_limit q) +:+ "}";
     geoDistance := fun a b =>
       (111000 * (Qabs' (a.1 - b.1) + Qabs' (a.2 - b.2)))%Q;
     roundTo2 := fun x => x;
     regexMatches := String.eqb;
     validObjectId := fun _ => true |}.

Definition weekdayEvenings : gmap string DayHours :=
  {[ "friday"%string := {| open := "17:00"; close := "22:00" |} ]}.

Definition trattoria : Restaurant :=
  {| r_id := "r1"; r_name := "Trattoria"; r_cuisine := "Italian";
     r_location := "Halifax"; r_geometry := Some ((-63)%Q, 44%Q);
     r_priceRange := 2; r_ownerId := "o1"; r_capacity := 20;
     r_openingHours := weekdayEvenings; r_isActive := true |}.

Definition bistro : Restaurant :=
  {| r_id := "r2"; r_name := "Bistro"; r_cuisine := "French";
     r_location := "Halifax"; r_geometry := Some ((-63)%Q, 45%Q);
     r_priceRange := 3; r_ownerId := "o1"; r_capacity := 2;
     r_openingHours := weekdayEvenings; r_isActive := true |}.

Definition alice : User := {| u_id := "c1"; u_name := "Alice"; u_email := "alice@example.org" |}.
Definition bob : User := {| u_id := "c2"; u_name := "Bob"; u_email := "bob@example.org" |}.
Definition owner : User := {| u_id := "o1"; u_name := "Olga"; u_email := "olga@example.org" |}.

Definition booked (id customerId time : string) (guests : Z) (s : BookingStatus)
  : Booking :=
  {| bk_id := id; bk_customerId := customerId; bk_restaurantId := "r1";
     bk_date := "2025-07-04"; bk_time := time; bk_guests := guests;
     bk_specialRequests := None; bk_status := s |}.

(** The example of the specification: capacity 20, confirmed bookings of
    10 and 8 guests at 19:00. *)
Definition fridayStore : Store :=
  {| restaurants := [trattoria; bistro];
     bookings := [booked "b1" "c1" "19:00" 10 confirmed;
                  booked "b2" "c2" "19:00" 8 confirmed;
                  booked "b3" "c2" "20:00" 4 cancelled];
     reviews := [{| rv_id := "v1"; rv_customerId := "c1"; rv_restaurantId := "r1";
                    rv_rating := 5; rv_comment := "Lovely" |}];
     users := [alice; bob; owner] |}.

Definition fresh (db : Store) : State :=
  {| store := db; restaurantCache := ∅; bookingCache := ∅ |}.

Definition request (restaurantId time : string) (guests : Z) : CreateBookingBody :=
  {| cb_restaurantId := restaurantId; cb_date := "2025-07-04"; cb_time := time;
     cb_guests := guests; cb_specialRequests := None |}.

Definition quiet (id : string) : WriteEnv :=
  {| newId := id; saveError := None; commitError := None; emailFails := false |}.

(** The same, with a mailer that throws. *)
Definition noisy (id : string) : WriteEnv :=
  {| newId := id; saveError := None; commitError := None; emailFails := true |}.

(** The service after one availability request, which filled the cache. *)
Definition warm : State :=
  (@getAvailability exampleHelpers (fresh fridayStore)
     {| aq_restaurantId := "r1"; aq_date := "2025-07-04" |}).2.

Definition browse : RestaurantQueryParams :=
  {| qp_location := None; qp_cuisine := None; qp_priceRange := None;
     qp_page := None; qp_limit := None; qp_latitude := None;
     qp_longitude := None; qp_radius := None |}.


(** The same search with a price range that is no number. *)
Definition cheapNearHalifax : RestaurantQueryParams :=
  {| qp_location := None; qp_cuisine := None;
     qp_priceRange := Some "cheap"%string;
     qp_page := None; qp_limit := None; qp_latitude := Some "44"%string;
     qp_longitude := Some "-63"%string; qp_radius := Some "200"%string |}.

(** Two customers ask for the last two seats of the same slot. *)
Definition lastSeats : System :=
  {| sys_state := fresh fridayStore;
     sys_tasks := [Arrived (quiet "n1") "c1" (request "r2" "19:00" 2);
                   Arrived (quiet "n2") "c2" (request "r2" "19:00" 2)] |}.

(** The restaurant is read once (and cached), then deleted by its owner. *)
Definition readThenDeleted : State :=
  (@deleteRestaurant exampleRestaurantRuntime
     (@getRestaurantById exampleRestaurantRuntime (fresh fridayStore) "r1").2
     "o1" "r1").2.

(** The default listing is browsed once (and cached), then a listed
    restaurant is deleted by its owner. *)
Definition browsedThenDeleted : State :=
  (@deleteRestaurant exampleRestaurantRuntime
     (@getRestaurants exampleRuntime exampleRestaurantRuntime false
        (fresh fridayStore) browse).2
     "o1" "r1").2.

(** A store whose commit throws. *)
Definition commitFails (id : string) : WriteEnv :=
  {| newId := id; saveError := None; commitError := Some OtherError;
     emailFails := false |}.

(** The same query for another page. *)
Definition withPage (page : option string) (q : RestaurantQueryParams)
  : RestaurantQueryParams :=
  {| qp_location := qp_location q; qp_cuisine := qp_cuisine q;
     qp_priceRange := qp_priceRange q; qp_page := page;
     qp_limit := qp_limit q; qp_latitude := qp_latitude q;
     qp_longitude := qp_longitude q; qp_radius := qp_radius q |}.

(** The second page of a search near Halifax, one restaurant a page. *)
Definition secondNearHalifax : RestaurantQueryParams :=
  {| qp_location := None; qp_cuisine := None; qp_priceRange := None;
     qp_page := Some "2"%string; qp_limit := Some "1"%string;
     qp_latitude := Some "44"%string; qp_longitude := Some "-63"%string;
     qp_radius := Some "200"%string |}.



(** A customer and a favourites collection. *)
Definition aliceAuth : AuthUser := {| au_id := "c1"; au_role := "customer" |}.

Definition marked (id userId restaurantId : string) (at_ : Z) : Favorite :=
  {| fav_id := id; fav_userId := userId; fav_restaurantId := restaurantId;
     fav_createdAt := at_ |}.

Definition favourites : list Favorite :=
  [marked "f1" "c1" "r2" 10; marked "f2" "c2" "r1" 20; marked "f3" "c1" "r1" 30].

(** Documents are stamped in the order of the digits of their ids. *)
Definition exampleTimestamps : Timestamps :=
  {| createdAt := fun id =>
       default 0 (readDecimal (String.substring 1 (String.length id) id)) |}.

Definition confirmedOnly : BookingsQuery :=
  {| bq_limit := None; bq_status := Some "confirmed"%string; bq_date := None |}.

(** A runtime that counts characters and lets every phone number and
    e-mail address pass. *)
Definition exampleSchemaRuntime : SchemaRuntime :=
  {| charCount := fun s => Z.of_nat (String.length s);
     phonePattern := fun _ => true;
     emailPattern := fun _ => true |}.

(** A restaurant that comes with an address and no coordinates. *)
Definition harbourGrill : CreateRestaurantBody :=
  {| crb_name := Some "Harbour Grill"%string; crb_cuisine := Some "Other"%string;
     crb_location := Some "1 Water Street, Vancouver"%string;
     crb_priceRange := Some 3; crb_description := None;
     crb_phoneNumber := None; crb_email := None; crb_capacity := None;
     crb_latitude := None; crb_longitude := None;
     crb_openingHours := weekdayEvenings;
     crb_isActive := None; crb_id := None; crb_otherErrors := [] |}.

(** The same restaurant, sent with [isActive: false]. *)
Definition closedGrill : CreateRestaurantBody :=
  {| crb_name := crb_name harbourGrill; crb_cuisine := crb_cuisine harbourGrill;
     crb_location := crb_location harbourGrill;
     crb_priceRange := crb_priceRange harbourGrill;
     crb_description := None; crb_phoneNumber := None; crb_email := None;
     crb_capacity := None; crb_latitude := None; crb_longitude := None;
     crb_openingHours := weekdayEvenings;
     crb_isActive := Some false; crb_id := None; crb_otherErrors := [] |}.

(** * Properties *)

(** ** Availability *)

Lemma orZero_Some v : orZero (Some v) = v.
Proof. unfold orZero. destruct (Z.eqb_spec v 0); congruence. Qed.

Lemma sumGuests_cons b l : sumGuests (b :: l) = bk_guests b + sumGuests l.
Proof. done. Qed.

Lemma sumGuests_app l k : sumGuests (l ++ k) = sumGuests l + sumGuests k.
Proof. induction l as [|b l IH]; simpl; [done | rewrite IH; lia]. Qed.

(** The tally, read at a time label, is the guest sum of the bookings
    carrying that label. *)
Lemma bookingCounts_from (acc : gmap string Z) l t :
  orZero (foldl (fun counts b =>
                   <[bk_time b := orZero (counts !! bk_time b) + bk_guests b]> counts)
                acc l !! t)
  = orZero (acc !! t)
    + sumGuests (List.filter (fun b => String.eqb (bk_time b) t) l).
Proof.
  revert acc. induction l as [|b l IH]; intros acc; simpl; [lia|].
  rewrite IH. destruct (String.eqb_spec (bk_time b) t) as [->|Hne]; simpl.
  - rewrite lookup_insert_eq, orZero_Some. lia.
  - by rewrite lookup_insert_ne.
Qed.

Lemma bookingCounts_lookup l t :
  orZero (bookingCounts l !! t)
  = sumGuests (List.filter (fun b => String.eqb (bk_time b) t) l).
Proof. unfold bookingCounts. rewrite bookingCounts_from, lookup_empty. done. Qed.

Lemma inConfirmedPending_true s :
  inConfirmedPending s = true ↔ s = confirmed ∨ s = pending.
Proof.
  destruct s; simpl; split; try (intros [?|?]); intros; auto; discriminate.
Qed.

Lemma CountsAt_cancelled rid date time b :
  bk_status b = cancelled → ¬ CountsAt rid date time b.
Proof. intros Hs (_ & _ & _ & [Hc|Hc]); congruence. Qed.

(** The [$match] of the capacity aggregate selects the bookings that
    count at the slot. *)
Lemma slotBookings_CountsAt db rid date time :
  slotBookings db rid date time = filter (CountsAt rid date time) (bookings db).
Proof.
  unfold slotBookings. induction (bookings db) as [|b l IH]; [done|].
  simpl. rewrite filter_cons, IH.
  destruct (decide (CountsAt rid date time b)) as [(?&?&?&Hs)|Hn].
  - apply inConfirmedPending_true in Hs.
    rewrite (proj2 (String.eqb_eq _ _)), (proj2 (String.eqb_eq _ _)),
      (proj2 (String.eqb_eq _ _)), Hs by done. done.
  - destruct (String.eqb_spec (bk_restaurantId b) rid); simpl; [|done].
    destruct (String.eqb_spec (bk_date b) date); simpl; [|done].
    destruct (String.eqb_spec (bk_time b) time); simpl; [|done].
    destruct (inConfirmedPending (bk_status b)) eqn:Hs; [|done].
    apply inConfirmedPending_true in Hs. destruct Hn. done.
Qed.

Lemma existingBookings_at db rid date t :
  List.filter (fun b => String.eqb (bk_time b) t) (existingBookings db rid date)
  = slotBookings db rid date t.
Proof.
  unfold existingBookings, slotBookings.
  induction (bookings db) as [|b l IH]; [done|]. simpl.
  destruct (String.eqb (bk_restaurantId b) rid), (String.eqb (bk_date b) date),
    (inConfirmedPending (bk_status b)), (String.eqb (bk_time b) t) eqn:Ht;
    simpl; rewrite ?Ht, ?IH; done.
Qed.

Lemma tally_is_committedGuests db rid date t :
  orZero (bookingCounts (existingBookings db rid date) !! t)
  = committedGuests db rid date t.
Proof.
  rewrite bookingCounts_lookup, existingBookings_at, slotBookings_CountsAt. done.
Qed.

Lemma totalGuests_is_committedGuests db rid date t :
  orZero (totalGuests db rid date t) = committedGuests db rid date t.
Proof.
  unfold totalGuests, committedGuests. rewrite <- slotBookings_CountsAt.
  destruct (slotBookings db rid date t); [done | apply orZero_Some].
Qed.

Lemma isRestaurantClosed_open h :
  open h ≠ close h → isRestaurantClosed (Some h) = false.
Proof. intros H. simpl. by apply String.eqb_neq. Qed.

Section AvailabilityProperties.
Context `{!BookingHelpers} `{!JsRuntime}.

(** What [getAvailability] answers when it computes (nothing cached, valid
    input, restaurant found, open that day). *)
Lemma getAvailability_computed st q restaurant h :
  bookingCache st !! availabilityKey (aq_restaurantId q) (aq_date q) = None →
  validateAvailabilityInput q = None →
  findRestaurantById (store st) (aq_restaurantId q) = inr restaurant →
  getOpeningHours restaurant (getDayOfWeek (aq_date q)) = Some h →
  open h ≠ close h →
  (getAvailability st q).1
  = json (AvailabilityBody (aq_restaurantId q) (r_name restaurant) (aq_date q)
            (getDayOfWeek (aq_date q)) h
            (map (slotFor (r_capacity restaurant)
                    (bookingCounts
                       (existingBookings (store st) (aq_restaurantId q) (aq_date q))))
               (generateTimeSlots (open h) (close h)))
            (length (generateTimeSlots (open h) (close h)))).
Proof.
  intros Hmiss Hvalid Hfound Hhours Hopen. unfold getAvailability.
  rewrite Hmiss, Hvalid, Hfound, Hhours, (isRestaurantClosed_open _ Hopen). done.
Qed.

(** C1. For a restaurant and a date on which it is open, every generated
    time slot of the computed availability carries
    availableCapacity = capacity - (guests of the confirmed or pending
    bookings at that restaurant, date and time), and available is true
    exactly when availableCapacity > 0. *)
Theorem availability_slot_capacity st q restaurant h :
  bookingCache st !! availabilityKey (aq_restaurantId q) (aq_date q) = None →
  validateAvailabilityInput q = None →
  findRestaurantById (store st) (aq_restaurantId q) = inr restaurant →
  getOpeningHours restaurant (getDayOfWeek (aq_date q)) = Some h →
  open h ≠ close h →
  ∃ slots,
    (getAvailability st q).1
    = json (AvailabilityBody (aq_restaurantId q) (r_name restaurant) (aq_date q)
              (getDayOfWeek (aq_date q)) h slots (length slots))
    ∧ map slot_time slots = generateTimeSlots (open h) (close h)
    ∧ Forall (fun s =>
                slot_availableCapacity s
                = r_capacity restaurant
                  - committedGuests (store st) (aq_restaurantId q) (aq_date q)
                      (slot_time s)
                ∧ slot_totalCapacity s = r_capacity restaurant
                ∧ (slot_available s = true ↔ 0 < slot_availableCapacity s))
             slots.
Proof.
  intros Hmiss Hvalid Hfound Hhours Hopen.
  eexists. split; [|split].
  - rewrite (getAvailability_computed _ _ _ _ Hmiss Hvalid Hfound Hhours Hopen).
    by rewrite length_map.
  - rewrite map_map. simpl. apply map_id.
  - apply List.Forall_map, Forall_forall. intros t _.
    simpl. rewrite tally_is_committedGuests. repeat split.
    + intros Hb. by apply Z.ltb_lt in Hb.
    + intros Hp. by apply Z.ltb_lt.
Qed.

(** C4. When the weekday resolved from the date has no open/close pair in
    the restaurant's table, or its open and close times are equal, the
    availability computation answers an empty slot list together with a
    closure message naming that weekday; the answer is
    the same whatever the bookings collection holds, and nothing is
    cached. *)
Theorem availability_closed_day st q restaurant :
  bookingCache st !! availabilityKey (aq_restaurantId q) (aq_date q) = None →
  validateAvailabilityInput q = None →
  findRestaurantById (store st) (aq_restaurantId q) = inr restaurant →
  (getOpeningHours restaurant (getDayOfWeek (aq_date q)) = None
   ∨ ∃ h, getOpeningHours restaurant (getDayOfWeek (aq_date q)) = Some h
          ∧ open h = close h) →
  ∀ bs,
    let st' := set_store (set_bookings bs (store st)) st in
    getAvailability st' q
    = (json (ClosedBody (aq_restaurantId q) (aq_date q) []
               ("Restaurant is closed on " +:+ getDayOfWeek (aq_date q))),
       st').
Proof.
  intros Hmiss Hvalid Hfound Hclosed bs st'. unfold getAvailability.
  replace (bookingCache st') with (bookingCache st) by done.
  rewrite Hmiss, Hvalid.
  replace (findRestaurantById (store st') (aq_restaurantId q))
    with (findRestaurantById (store st) (aq_restaurantId q)) by done.
  rewrite Hfound.
  destruct Hclosed as [-> | (h & -> & Heq)]; simpl; [done|].
  by rewrite Heq, String.eqb_refl.
Qed.

End AvailabilityProperties.

Lemma availability_slot_capacity_witness :
  ∃ slots,
    (@getAvailability exampleHelpers (fresh fridayStore)
       {| aq_restaurantId := "r1"; aq_date := "2025-07-04" |}).1
    = json (AvailabilityBody "r1" "Trattoria" "2025-07-04" "friday"
              {| open := "17:00"; close := "22:00" |} slots (length slots))
    ∧ map slot_time slots = ["18:00"; "19:00"; "20:00"]%string
    ∧ Forall (fun s =>
                slot_availableCapacity s
                = 20 - committedGuests fridayStore "r1" "2025-07-04" (slot_time s)
                ∧ slot_totalCapacity s = 20
                ∧ (slot_available s = true ↔ 0 < slot_availableCapacity s))
             slots.
Proof.
  apply (@availability_slot_capacity exampleHelpers (fresh fridayStore)
           {| aq_restaurantId := "r1"; aq_date := "2025-07-04" |} trattoria
           {| open := "17:00"; close := "22:00" |});
    [reflexivity | reflexivity | reflexivity | reflexivity | discriminate].
Defined.

(** The example of the specification: 20 seats, 10 and 8 booked at 19:00
    leave 2; the cancelled booking at 20:00 is not counted. *)
Example availability_friday :
  (@getAvailability exampleHelpers (fresh fridayStore)
     {| aq_restaurantId := "r1"; aq_date := "2025-07-04" |}).1
  = json (AvailabilityBody "r1" "Trattoria" "2025-07-04" "friday"
            {| open := "17:00"; close := "22:00" |}
            [ {| slot_time := "18:00"; slot_available := true;
                 slot_availableCapacity := 20; slot_totalCapacity := 20 |};
              {| slot_time := "19:00"; slot_available := true;
                 slot_availableCapacity := 2; slot_totalCapacity := 20 |};
              {| slot_time := "20:00"; slot_available := true;
                 slot_availableCapacity := 20; slot_totalCapacity := 20 |} ]
            3).
Proof. vm_compute. reflexivity. Qed.

Lemma availability_closed_day_witness :
  @getAvailability exampleHelpers
    (set_store (set_bookings [booked "b9" "c1" "19:00" 6 confirmed] fridayStore)
       (fresh fridayStore))
    {| aq_restaurantId := "r1"; aq_date := "2025-07-06" |}
  = (json (ClosedBody "r1" "2025-07-06" [] "Restaurant is closed on sunday"),
     set_store (set_bookings [booked "b9" "c1" "19:00" 6 confirmed] fridayStore)
       (fresh fridayStore)).
Proof.
  apply (@availability_closed_day exampleHelpers (fresh fridayStore)
           {| aq_restaurantId := "r1"; aq_date := "2025-07-06" |} trattoria);
    [reflexivity | reflexivity | reflexivity | left; reflexivity].
Defined.

(** ** Booking creation *)

Section CreationProperties.
Context `{!BookingHelpers} `{!JsRuntime}.

(** What a request that cleared the first phase has been through. *)
Lemma createBooking_check_cleared st customerId b c seen :
  createBooking_check st customerId b = (inr c, seen) →
  validateCreateBookingInput b = None
  ∧ findRestaurantById (store st) (cb_restaurantId b) = inr (cl_restaurant c)
  ∧ findUserById (store st) customerId = inr (cl_user c)
  ∧ cl_body c = b ∧ cl_customerId c = customerId
  ∧ cb_guests b
    <= r_capacity (cl_restaurant c)
       - committedGuests (store st) (cb_restaurantId b) (cb_date b) (cb_time b)
  ∧ seen = [Aggregate (cb_restaurantId b) (cb_date b) (cb_time b)].
Proof.
  unfold createBooking_check. intros Hc.
  repeat case_match; simplify_eq.
  rewrite totalGuests_is_committedGuests in *. simpl.
  repeat split; try done. lia.
Qed.

Lemma handleBookingError_status e : status (handleBookingError e) ≠ 201.
Proof. by destruct e. Qed.

(** A request rejected in the first phase is not answered 201. *)
Lemma createBooking_check_rejected st customerId b r seen :
  createBooking_check st customerId b = (inl r, seen) →
  status r ≠ 201 ∧ ∀ x, Save x ∉ seen.
Proof.
  unfold createBooking_check. intros Hc.
  repeat case_match; simplify_eq; simpl.
  all: split; [done || apply handleBookingError_status | intros x Hx].
  all: repeat (apply elem_of_cons in Hx as [Hx|Hx]; [done|]).
  all: by apply elem_of_nil in Hx.
Qed.

Lemma committedGuests_insert db nb rid date time :
  committedGuests (set_bookings (bookings db ++ [nb]) db) rid date time
  = committedGuests db rid date time
    + (if decide (CountsAt rid date time nb) then bk_guests nb else 0).
Proof.
  unfold committedGuests. simpl. rewrite filter_app, sumGuests_app.
  rewrite filter_cons, filter_nil. case_decide; simpl; lia.
Qed.

(** C2. A request for more guests than the slot has left is answered
    without any insert: the state is unchanged, the answer is not the 201
    success and no save reaches the store.  When the request has passed
    the gates that precede the capacity gate (input validation, customer
    lookup, opening hours), the answer is the 409 conflict, worded "No
    tables available" when zero or fewer seats remain and "Only N seats
    available" with the exact remaining number otherwise. *)
Theorem createBooking_over_capacity env st customerId b restaurant r st' effects :
  findRestaurantById (store st) (cb_restaurantId b) = inr restaurant →
  r_capacity restaurant
    - committedGuests (store st) (cb_restaurantId b) (cb_date b) (cb_time b)
    < cb_guests b →
  createBooking env st customerId b = (r, st', effects) →
  let remaining :=
    r_capacity restaurant
    - committedGuests (store st) (cb_restaurantId b) (cb_date b) (cb_time b) in
  (st' = st ∧ status r ≠ 201 ∧ ∀ x, Save x ∉ effects)
  ∧ ∀ user h,
      validateCreateBookingInput b = None →
      findUserById (store st) customerId = inr user →
      getOpeningHours restaurant (getDayOfWeek (cb_date b)) = Some h →
      open h ≠ close h →
      isTimeWithinHours (cb_time b) (open h) (close h) = true →
      (remaining <= 0 →
       r = sendConflictError
             ("No tables available at " +:+ cb_time b +:+ " on " +:+ cb_date b))
      ∧ (0 < remaining →
         r = sendConflictError
               ("Only " +:+ pretty remaining +:+ " seats available at "
                  +:+ cb_time b +:+ " on " +:+ cb_date b)).
Proof.
  intros Hfound Hover Hrun remaining. split.
  - unfold createBooking in Hrun.
    destruct (createBooking_check st customerId b) as [[r0|c] seen] eqn:Hc.
    + simplify_eq. apply createBooking_check_rejected in Hc as [Hs Hseen].
      repeat split; [done|]. intros x Hx.
      apply elem_of_app in Hx as [Hx|Hx]; [by eapply Hseen|].
      apply elem_of_cons in Hx as [Hx|Hx]; [done | by apply elem_of_nil in Hx].
    + apply createBooking_check_cleared in Hc as (_ & Hr & _ & _ & _ & Hle & _).
      rewrite Hfound in Hr. simplify_eq. lia.
  - intros user h Hvalid Huser Hhours Hopen Hwithin.
    unfold createBooking, createBooking_check in Hrun.
    rewrite Hvalid, Hfound, Huser, Hhours, (isRestaurantClosed_open _ Hopen),
      Hwithin, totalGuests_is_committedGuests in Hrun.
    simpl in Hrun. fold remaining in Hrun.
    destruct (Z.ltb_spec remaining (cb_guests b)); [|subst remaining; lia].
    destruct (Z.leb_spec remaining 0); simplify_eq; split; intros; (done || lia).
Qed.

(** C9. Whatever the request and the environment, [createBooking] either
    leaves the bookings collection as it is or appends exactly one booking
    whose status is confirmed; the pending bookings of the collection are
    the same before and after. *)
Theorem createBooking_stores_confirmed env st customerId b :
  let st' := (createBooking env st customerId b).1.2 in
  (bookings (store st') = bookings (store st)
   ∨ ∃ nb, bookings (store st') = bookings (store st) ++ [nb]
           ∧ bk_status nb = confirmed)
  ∧ List.filter (fun x => BookingStatus_eqb (bk_status x) pending)
      (bookings (store st'))
    = List.filter (fun x => BookingStatus_eqb (bk_status x) pending)
        (bookings (store st)).
Proof.
  unfold createBooking.
  destruct (createBooking_check st customerId b) as [[r|c] seen]; simpl;
    [by split; [left|]|].
  unfold createBooking_insert.
  destruct (saveError env); [by split; [left|]|].
  destruct (commitError env); [by split; [left|]|].
  simpl. split.
  - right. by exists (newBooking env c).
  - rewrite List.filter_app. simpl. apply app_nil_r.
Qed.

(** C8. When a booking creation commits, the confirmation mail is
    attempted right after the commit; whether the mailer throws changes
    neither the response, the 201 with the created booking, nor the
    resulting state, in which the booking is stored; a mailer failure is
    logged and no rollback follows. *)
Theorem confirmation_email_isolated env st customerId b c seen :
  createBooking_check st customerId b = (inr c, seen) →
  saveError env = None →
  commitError env = None →
  ∃ st' before after,
    createBooking env st customerId b
    = ({| status := 201;
          body := BookingBody (Some "Booking created successfully")
                    (bookingView (newBooking env c) (r_name (cl_restaurant c))) |},
       st',
       before ++ CommitTransaction
         :: SendEmail (u_email (cl_user c)) (newId env) :: after)
    ∧ bookings (store st') = bookings (store st) ++ [newBooking env c]
    ∧ (AbortTransaction ∉ before) ∧ (AbortTransaction ∉ after)
    ∧ (emailFails env = true →
       LogError "Failed to send confirmation email" ∈ after)
    ∧ ∀ outcome,
        (createBooking (withEmailFails outcome env) st customerId b).1
        = ({| status := 201;
              body := BookingBody (Some "Booking created successfully")
                        (bookingView (newBooking env c)
                           (r_name (cl_restaurant c))) |},
           st').
Proof.
  intros Hc Hsave Hcommit.
  unfold createBooking, createBooking_insert. rewrite Hc. simpl.
  rewrite Hsave, Hcommit. unfold sendConfirmationEmail.
  eexists _, (seen ++ [StartSession; StartTransaction; Save (newBooking env c)]), _.
  split; [|split; [|split; [|split; [|split]]]].
  - rewrite <- app_assoc. simpl. reflexivity.
  - done.
  - apply createBooking_check_cleared in Hc as (_&_&_&_&_&_&->).
    intros Hx. repeat (apply elem_of_cons in Hx as [Hx|Hx]; [done|]).
    by apply elem_of_nil in Hx.
  - intros Hx. destruct (emailFails env); simpl in Hx;
      repeat (apply elem_of_cons in Hx as [Hx|Hx]; [done|]);
      by apply elem_of_nil in Hx.
  - intros ->. simpl. apply elem_of_cons. by left.
  - intros outcome. done.
Qed.

(** X1. A request that runs alone keeps the capacity invariant: if no
    slot of a bookable restaurant holds more guests than the capacity
    before [createBooking], none does after it, whatever the request and
    the outcome of the write. *)
Lemma createBooking_keeps_capacity env st customerId b :
  capacityRespected (store st) →
  capacityRespected (store (createBooking env st customerId b).1.2).
Proof.
  intros Hinv. unfold createBooking.
  destruct (createBooking_check st customerId b) as [[r|c] seen] eqn:Hc;
    simpl; [done|].
  unfold createBooking_insert.
  destruct (saveError env); [done|]. destruct (commitError env); [done|].
  simpl. apply createBooking_check_cleared in Hc as (_ & Hr & _ & Hb & _ & Hle & _).
  intros rid restaurant date time Hfound.
  change (findRestaurantById (store st) rid = inr restaurant) in Hfound.
  rewrite committedGuests_insert. specialize (Hinv _ _ date time Hfound).
  case_decide as Hcount; [|lia].
  destruct Hcount as (Hrid & Hdate & Htime & _). simpl in *.
  rewrite Hb in *. subst rid date time. rewrite Hr in Hfound. simplify_eq. lia.
Qed.

(** A schedule that gives a request two turns in a row runs its handler. *)
Lemma two_turns_run_handler env st customerId b :
  run [0; 0]%nat {| sys_state := st; sys_tasks := [Arrived env customerId b] |}
  = {| sys_state := (createBooking env st customerId b).1.2;
       sys_tasks := [Answered (createBooking env st customerId b).1.1] |}.
Proof.
  unfold run, createBooking. simpl. unfold turn. simpl.
  destruct (createBooking_check st customerId b) as [[r|c] seen]; simpl; [done|].
  by destruct (createBooking_insert env st c) as [[r st'] effects].
Qed.

End CreationProperties.

Lemma createBooking_over_capacity_witness :
  let out :=
    @createBooking exampleHelpers exampleRuntime (quiet "n1") (fresh fridayStore)
      "c1" (request "r1" "19:00" 3) in
  out.1.2 = fresh fridayStore
  ∧ out.1.1
    = sendConflictError "Only 2 seats available at 19:00 on 2025-07-04".
Proof.
  intros out.
  destruct (@createBooking_over_capacity exampleHelpers exampleRuntime
              (quiet "n1") (fresh fridayStore) "c1" (request "r1" "19:00" 3)
              trattoria out.1.1 out.1.2 out.2)
    as [(Hst & _ & _) Hmsg].
  - reflexivity.
  - vm_compute. reflexivity.
  - reflexivity.
  - split; [exact Hst|].
    destruct (Hmsg alice {| open := "17:00"; close := "22:00" |}
                eq_refl eq_refl eq_refl ltac:(discriminate) eq_refl)
      as [_ Hpos].
    apply Hpos. vm_compute. reflexivity.
Defined.

(** With nothing left at the slot the wording changes. *)
Example createBooking_full_slot :
  (@createBooking exampleHelpers exampleRuntime (quiet "n1")
     (fresh (set_bookings (bookings fridayStore
                             ++ [booked "b4" "c1" "19:00" 2 pending]) fridayStore))
     "c1" (request "r1" "19:00" 1)).1.1
  = sendConflictError "No tables available at 19:00 on 2025-07-04".
Proof. vm_compute. reflexivity. Qed.

Lemma confirmation_email_isolated_witness :
  ∃ st' before after,
    @createBooking exampleHelpers exampleRuntime (noisy "n1") (fresh fridayStore)
      "c1" (request "r1" "18:00" 4)
    = ({| status := 201;
          body := BookingBody (Some "Booking created successfully")
                    {| bv_id := "n1"; bv_customerId := "c1";
                       bv_restaurantId := "r1"; bv_restaurantName := "Trattoria";
                       bv_date := "2025-07-04"; bv_time := "18:00";
                       bv_guests := 4; bv_specialRequests := None;
                       bv_status := confirmed |} |},
       st',
       before ++ CommitTransaction :: SendEmail "alice@example.org" "n1" :: after)
    ∧ LogError "Failed to send confirmation email" ∈ after.
Proof.
  destruct (@confirmation_email_isolated exampleHelpers exampleRuntime
              (noisy "n1") (fresh fridayStore) "c1" (request "r1" "18:00" 4)
              {| cl_customerId := "c1"; cl_body := request "r1" "18:00" 4;
                 cl_restaurant := trattoria; cl_user := alice |}
              [Aggregate "r1" "2025-07-04" "18:00"]
              eq_refl eq_refl eq_refl)
    as (st' & before & after & Hrun & _ & _ & _ & Hlog & _).
  exists st', before, after. split; [exact Hrun | exact (Hlog eq_refl)].
Defined.

Lemma fridayStore_capacityRespected : capacityRespected fridayStore.
Proof.
  intros rid restaurant date time Hfound.
  assert (restaurant = trattoria ∨ restaurant = bistro) as Hwhich.
  { unfold findRestaurantById, find_by in Hfound.
    change (restaurants fridayStore) with [trattoria; bistro] in Hfound.
    unfold List.find in Hfound.
    destruct (String.eqb (r_id trattoria) rid); [left; congruence|].
    destruct (String.eqb (r_id bistro) rid); [right; congruence | discriminate]. }
  unfold committedGuests.
  change (bookings fridayStore)
    with [booked "b1" "c1" "19:00" 10 confirmed;
          booked "b2" "c2" "19:00" 8 confirmed;
          booked "b3" "c2" "20:00" 4 cancelled].
  rewrite !filter_cons, filter_nil.
  destruct (decide (CountsAt rid date time (booked "b3" "c2" "20:00" 4 cancelled)))
    as [Hc|_]; [by apply CountsAt_cancelled in Hc|].
  assert (∀ b, bk_restaurantId b = "r1"%string → CountsAt rid date time b →
               r_capacity restaurant = 20) as Hr1.
  { intros b Hb (Hrid & _). rewrite Hb in Hrid. subst rid.
    vm_compute in Hfound. by injection Hfound as <-. }
  destruct (decide (CountsAt rid date time (booked "b1" "c1" "19:00" 10 confirmed)))
    as [H1|_];
    destruct (decide (CountsAt rid date time (booked "b2" "c2" "19:00" 8 confirmed)))
      as [H2|_];
    rewrite ?sumGuests_cons.
  - rewrite (Hr1 (booked "b1" "c1" "19:00" 10 confirmed) eq_refl H1). by vm_compute.
  - rewrite (Hr1 (booked "b1" "c1" "19:00" 10 confirmed) eq_refl H1). by vm_compute.
  - rewrite (Hr1 (booked "b2" "c2" "19:00" 8 confirmed) eq_refl H2). by vm_compute.
  - destruct Hwhich as [->| ->]; by vm_compute.
Qed.

(** C3. The capacity aggregate of [createBooking] runs before the session
    and the transaction are opened, so only the insert is transactional.
    Two requests for the last two seats of a slot, interleaved so that
    both pass the gate before either inserts, are both answered 201 and
    leave four guests booked at a restaurant of capacity two, so the
    capacity invariant that held before no longer holds; run one after
    the other, the second is answered 409. *)
Theorem concurrent_requests_overbook :
  let interleaved :=
    @run exampleHelpers exampleRuntime [0; 1; 0; 1]%nat lastSeats in
  let inTurn :=
    @run exampleHelpers exampleRuntime [0; 0; 1; 1]%nat lastSeats in
  capacityRespected (store (sys_state lastSeats))
  ∧ map answeredStatus (sys_tasks interleaved) = [Some 201; Some 201]
  ∧ committedGuests (store (sys_state interleaved)) "r2" "2025-07-04" "19:00" = 4
  ∧ findRestaurantById (store (sys_state interleaved)) "r2" = inr bistro
  ∧ r_capacity bistro = 2
  ∧ ¬ capacityRespected (store (sys_state interleaved))
  ∧ map answeredStatus (sys_tasks inTurn) = [Some 201; Some 409]
  ∧ committedGuests (store (sys_state inTurn)) "r2" "2025-07-04" "19:00" = 2
  ∧ take 4 (@createBooking exampleHelpers exampleRuntime (quiet "n1")
              (fresh fridayStore) "c1" (request "r2" "19:00" 2)).2
    = [Aggregate "r2" "2025-07-04" "19:00"; StartSession; StartTransaction;
       Save {| bk_id := "n1"; bk_customerId := "c1"; bk_restaurantId := "r2";
               bk_date := "2025-07-04"; bk_time := "19:00"; bk_guests := 2;
               bk_specialRequests := None; bk_status := confirmed |}].
Proof.
  intros interleaved inTurn.
  split; [exact fridayStore_capacityRespected|].
  assert (committedGuests (store (sys_state interleaved)) "r2" "2025-07-04" "19:00"
          = 4) as Hsum by (by vm_compute).
  assert (findRestaurantById (store (sys_state interleaved)) "r2" = inr bistro)
    as Hfound by (by vm_compute).
  do 4 (split; [by vm_compute|]).
  split; [|by vm_compute].
  intros Hinv. specialize (Hinv _ _ "2025-07-04" "19:00" Hfound).
  rewrite Hsum in Hinv. simpl in Hinv. lia.
Qed.

(** ** Saving a status *)

Lemma find_by_Some {A} (p : A → bool) l x :
  find_by p l = Some x → x ∈ l ∧ p x = true.
Proof.
  unfold find_by. intros Hf. apply List.find_some in Hf as [Hin Hp].
  split; [by apply list_elem_of_In | done].
Qed.

Lemma saveStatus_ids id s bs : map bk_id (saveStatus id s bs) = map bk_id bs.
Proof.
  induction bs as [|b bs IH]; simpl; [done|].
  destruct (String.eqb (bk_id b) id); simpl; by rewrite ?IH.
Qed.

(** The guest sum of a slot drops by the guests of the cancelled booking
    when that booking counted there, and is unchanged otherwise. *)
Lemma saveStatus_cancelled_sum rid date time b bs :
  NoDup (map bk_id bs) → b ∈ bs →
  sumGuests (filter (CountsAt rid date time) (saveStatus (bk_id b) cancelled bs))
  = sumGuests (filter (CountsAt rid date time) bs)
    - (if decide (CountsAt rid date time b) then bk_guests b else 0).
Proof.
  induction bs as [|x bs IH]; simpl; intros Hnd Hin.
  - by apply elem_of_nil in Hin.
  - apply NoDup_cons in Hnd as [Hx Hnd].
    destruct (String.eqb_spec (bk_id x) (bk_id b)) as [Hid|Hid].
    + assert (x = b) as ->.
      { apply elem_of_cons in Hin as [->|Hin]; [done|]. destruct Hx.
        rewrite Hid. apply list_elem_of_In, in_map, list_elem_of_In, Hin. }
      rewrite !filter_cons.
      destruct (decide (CountsAt rid date time (withStatus cancelled b)))
        as [Hc|_]; [by apply CountsAt_cancelled in Hc|].
      case_decide; rewrite ?sumGuests_cons; lia.
    + apply elem_of_cons in Hin as [->|Hin]; [done|].
      rewrite !filter_cons.
      destruct (decide (CountsAt rid date time x));
        rewrite ?sumGuests_cons, IH by done; lia.
Qed.

Lemma saveStatus_cancelled_status id bs x :
  NoDup (map bk_id bs) →
  x ∈ saveStatus id cancelled bs → bk_id x = id → bk_status x = cancelled.
Proof.
  induction bs as [|b bs IH]; simpl; intros Hnd Hx Hid.
  - by apply elem_of_nil in Hx.
  - apply NoDup_cons in Hnd as [Hb Hnd].
    destruct (String.eqb_spec (bk_id b) id) as [Hbid|Hbid].
    + apply elem_of_cons in Hx as [->|Hx]; [done|]. destruct Hb.
      rewrite Hbid, <- Hid. apply list_elem_of_In, in_map, list_elem_of_In, Hx.
    + apply elem_of_cons in Hx as [->|Hx]; [done | by apply IH].
Qed.

Lemma populateRestaurant_id db rid ref :
  populateRestaurant db rid = Some ref → ref_id ref = rid.
Proof.
  unfold populateRestaurant. destruct (find_by _ _) as [r|] eqn:Hf; [|done].
  intros [= <-]. apply find_by_Some in Hf as [_ Hf]. by apply String.eqb_eq in Hf.
Qed.

Lemma BookingStatus_eqb_eq a b : BookingStatus_eqb a b = true ↔ a = b.
Proof. destruct a, b; simpl; split; intros; (done || discriminate). Qed.

(** ** Listings *)

Lemma elem_of_map {A B} (f : A → B) l y :
  y ∈ map f l ↔ ∃ x, y = f x ∧ x ∈ l.
Proof. exact (list_elem_of_fmap f l y). Qed.

Lemma elem_of_List_filter {A} (p : A → bool) l x :
  x ∈ List.filter p l ↔ x ∈ l ∧ p x = true.
Proof. rewrite !list_elem_of_In. apply List.filter_In. Qed.

Lemma elem_of_insertBy {A} (leb : A → A → bool) x y l :
  y ∈ insertBy leb x l ↔ y = x ∨ y ∈ l.
Proof.
  induction l as [|z l IH]; simpl.
  - rewrite list_elem_of_singleton, elem_of_nil. tauto.
  - destruct (leb x z); rewrite !elem_of_cons, ?IH; tauto.
Qed.

Lemma elem_of_sortBy {A} (leb : A → A → bool) y l :
  y ∈ sortBy leb l ↔ y ∈ l.
Proof.
  induction l as [|x l IH]; simpl; [done|].
  by rewrite elem_of_insertBy, IH, elem_of_cons.
Qed.

Section Sorting.
Context {A : Type} (leb : A → A → bool).
Hypothesis leb_total : ∀ a b, leb a b = true ∨ leb b a = true.
Hypothesis leb_trans : ∀ a b c, leb a b = true → leb b c = true → leb a c = true.

Lemma insertBy_sorted x l :
  StronglySorted (fun a b => leb a b = true) l →
  StronglySorted (fun a b => leb a b = true) (insertBy leb x l).
Proof.
  induction 1 as [|y l Hl IH Hy]; simpl.
  - by repeat constructor.
  - destruct (leb x y) eqn:Hxy.
    + constructor; [by constructor|]. constructor; [done|].
      eapply Forall_impl; [exact Hy|]. intros z Hz. by eapply leb_trans.
    + constructor; [done|]. apply Forall_forall. intros z Hz.
      apply elem_of_insertBy in Hz as [->|Hz].
      * destruct (leb_total x y); congruence.
      * by eapply Forall_forall in Hy.
Qed.

Lemma sortBy_sorted l : StronglySorted (fun a b => leb a b = true) (sortBy leb l).
Proof.
  induction l as [|x l IH]; simpl; [constructor | by apply insertBy_sorted].
Qed.

End Sorting.

Lemma sublist_elem_of {A} (k l : list A) x : sublist k l → x ∈ k → x ∈ l.
Proof.
  induction 1 as [|y k l _ IH|y k l _ IH]; [done| |].
  - rewrite !elem_of_cons. intros [->|?]; auto.
  - rewrite elem_of_cons. auto.
Qed.

Lemma sublist_sorted {A} (R : A → A → Prop) (k l : list A) :
  sublist k l → StronglySorted R l → StronglySorted R k.
Proof.
  induction 1 as [|y k l Hs IH|y k l Hs IH]; intros Hl; [done| |].
  - apply StronglySorted_inv in Hl as [Hl Hy]. constructor; [by apply IH|].
    apply Forall_forall. intros z Hz. eapply Forall_forall in Hy; [done|].
    by eapply sublist_elem_of.
  - apply StronglySorted_inv in Hl as [Hl _]. by apply IH.
Qed.

Lemma window_sublist {A} skip limit (l w : list A) :
  window skip limit l = Some w → sublist w l.
Proof.
  unfold window. destruct skip as [s|], limit as [n|]; try done.
  destruct (_ && _); [|done]. intros [= <-].
  etrans; [apply sublist_take | apply sublist_drop].
Qed.

Lemma byDistance_total a b : byDistance a b = true ∨ byDistance b a = true.
Proof.
  unfold byDistance. destruct (lr_distance a) as [x|], (lr_distance b) as [y|];
    auto.
  destruct (Qlt_le_dec y x) as [Hlt|Hle].
  - right. apply Qle_bool_iff. by apply Qlt_le_weak.
  - left. by apply Qle_bool_iff.
Qed.

Lemma byDistance_trans a b c :
  byDistance a b = true → byDistance b c = true → byDistance a c = true.
Proof.
  unfold byDistance.
  destruct (lr_distance a) as [x|], (lr_distance b) as [y|],
    (lr_distance c) as [z|]; try done.
  rewrite !Qle_bool_iff. apply Qle_trans.
Qed.

Lemma sorted_by_distance l :
  StronglySorted (fun a b => byDistance a b = true) l →
  Forall (fun a => is_Some (lr_distance a)) l →
  StronglySorted NoFarther l.
Proof.
  induction 1 as [|a l Hl IH Ha]; intros Hd; [constructor|].
  apply Forall_cons in Hd as [[x Hx] Hd]. constructor; [by apply IH|].
  apply Forall_forall. intros b Hb.
  eapply Forall_forall in Ha; [|done]. eapply Forall_forall in Hd as [y Hy]; [|done].
  unfold NoFarther, byDistance in *. rewrite Hx, Hy in *. by apply Qle_bool_iff.
Qed.


Lemma cursorWindow_sublist {A} skip limit (l w : list A) :
  cursorWindow skip limit l = Some w → sublist w l.
Proof.
  unfold cursorWindow. destruct skip as [s|], limit as [n|]; try done.
  destruct (0 <=? s); [|done]. intros [= <-].
  destruct (n =? 0); [apply sublist_drop|].
  etrans; [apply sublist_take | apply sublist_drop].
Qed.


Section NearbyProperties.
Context `{!JsRuntime} `{!RestaurantRuntime}.

Lemma geoNear_elem near maxDistance query rs l :
  l ∈ geoNear near maxDistance query rs →
  ∃ r point,
    r ∈ rs ∧ r_geometry r = Some point ∧ query r = true
    ∧ (geoDistance near point <= maxDistance)%Q
    ∧ l = {| lr_doc := r; lr_owner := None;
             lr_distance := Some (geoDistance near point);
             lr_distanceKm := None |}.
Proof.
  unfold geoNear. rewrite elem_of_sortBy, list_elem_of_omap.
  intros (r & Hr & Hl). destruct (r_geometry r) as [point|] eqn:Hg; [|done].
  destruct (Qle_bool _ _) eqn:Hd; [|done]. destruct (query r) eqn:Hq; [|done].
  simpl in Hl. simplify_eq. exists r, point.
  split; [done|]. split; [done|]. split; [done|]. split; [|done].
  by apply Qle_bool_iff.
Qed.

Lemma nearbyFilter_active q r : nearbyFilter q r = true → r_isActive r = true.
Proof.
  unfold nearbyFilter. intros Hf.
  apply andb_true_iff in Hf as [Hf _]. by apply andb_true_iff in Hf as [Hf _].
Qed.

(** What the geospatial aggregation answers: active restaurants of the
    store within the radius, nearest first. *)
Lemma nearbyGeoQuery_answer geoFails db q lat lng radiusKm listed total :
  nearbyGeoQuery geoFails db q lat lng radiusKm = Some (listed, total) →
  Forall (fun l =>
            lr_doc l ∈ restaurants db ∧ r_isActive (lr_doc l) = true
            ∧ ∃ point d,
                r_geometry (lr_doc l) = Some point
                ∧ lr_distance l = Some d
                ∧ d = geoDistance (lng, lat) point
                ∧ (d <= radiusKm * 1000)%Q) listed
  ∧ StronglySorted NoFarther listed.
Proof.
  unfold nearbyGeoQuery. destruct geoFails; [done|].
  destruct (window _ _ _) as [w|] eqn:Hw; [|done].
  intros [= <- _]. apply window_sublist in Hw.
  assert (∀ l, l ∈ w →
            ∃ r point,
              r ∈ restaurants db ∧ r_geometry r = Some point
              ∧ nearbyFilter q r = true
              ∧ (geoDistance (lng, lat) point <= radiusKm * 1000)%Q
              ∧ lr_doc l = r
              ∧ lr_distance l = Some (geoDistance (lng, lat) point))
    as Hfrom.
  { intros l Hl. eapply sublist_elem_of in Hl; [|done].
    apply elem_of_sortBy, elem_of_map in Hl as (l0 & -> & Hl0).
    apply geoNear_elem in Hl0 as (r & point & ? & ? & ? & ? & ->).
    by exists r, point. }
  split.
  - apply Forall_forall. intros l (r & point & ? & ? & ? & ? & <- & ?)%Hfrom.
    split; [done|]. split; [by eapply nearbyFilter_active|].
    by exists point, (geoDistance (lng, lat) point).
  - apply sorted_by_distance.
    + eapply sublist_sorted; [done|].
      apply sortBy_sorted; [apply byDistance_total | apply byDistance_trans].
    + apply Forall_forall.
      intros l (r & point & ? & ? & ? & ? & ? & Hd)%Hfrom. by rewrite Hd.
Qed.

(** What the fallback answers: active restaurants of the store, each with
    the mock distance. *)
Lemma nearbyFallback_answer db q listed total :
  nearbyFallback db q = Some (listed, total) →
  Forall (fun l =>
            lr_doc l ∈ restaurants db ∧ r_isActive (lr_doc l) = true
            ∧ lr_distance l = Some 1000%Q ∧ lr_distanceKm l = Some 1%Q) listed.
Proof.
  unfold nearbyFallback. destruct (castsFilter q); [|done].
  destruct (cursorWindow _ _ _) as [w|] eqn:Hw; [|done].
  intros [= <- _]. apply cursorWindow_sublist in Hw.
  apply Forall_forall. intros l (r & -> & Hr)%elem_of_map. simpl.
  eapply sublist_elem_of in Hr; [|done].
  apply elem_of_List_filter in Hr as [Hr Hf].
  split; [done|]. split; [by eapply nearbyFilter_active | done].
Qed.

(** A listing answered by [getNearbyRestaurants] is the answer of the
    geospatial aggregation or, when that threw, of the fallback. *)
Lemma nearby_listing geoFails st q listed pagination :
  getNearbyRestaurants geoFails st q = json (ListingBody listed pagination) →
  ∃ lat lng radiusKm,
    parseFloat (default "" (qp_latitude q)) = Some lat
    ∧ parseFloat (default "" (qp_longitude q)) = Some lng
    ∧ parseFloat (default "5" (qp_radius q)) = Some radiusKm
    ∧ ((∃ total,
          nearbyGeoQuery geoFails (store st) q lat lng radiusKm
          = Some (listed, total))
       ∨ (nearbyGeoQuery geoFails (store st) q lat lng radiusKm = None
          ∧ ∃ total, nearbyFallback (store st) q = Some (listed, total))).
Proof.
  unfold getNearbyRestaurants.
  destruct (negb _ || negb _); [done|].
  destruct (parseFloat (default "" (qp_latitude q))) as [lat|]; [|done].
  destruct (parseFloat (default "" (qp_longitude q))) as [lng|]; [|done].
  destruct (parseFloat (default "5" (qp_radius q))) as [radiusKm|]; [|done].
  destruct (_ || _); [done|]. destruct (_ || _); [done|].
  destruct (Qle_bool radiusKm 0); [done|].
  intros Hresp. exists lat, lng, radiusKm. do 3 (split; [done|]).
  destruct (nearbyGeoQuery _ _ _ _ _ _) as [[rs total]|].
  - left. exists total. by injection Hresp as -> _.
  - right. split; [done|].
    destruct (nearbyFallback _ _) as [[rs total]|]; [|done].
    exists total. by injection Hresp as -> _.
Qed.

Lemma nearby_listing_active geoFails st q listed pagination :
  getNearbyRestaurants geoFails st q = json (ListingBody listed pagination) →
  Forall (fun l => lr_doc l ∈ restaurants (store st)
                   ∧ r_isActive (lr_doc l) = true) listed.
Proof.
  intros (lat & lng & radiusKm & _ & _ & _ & Hfrom)%nearby_listing.
  destruct Hfrom as [[total Hgeo]|[_ [total Hfall]]].
  - apply nearbyGeoQuery_answer in Hgeo as [Hall _].
    eapply Forall_impl; [exact Hall|]. by intros l (? & ? & _).
  - apply nearbyFallback_answer in Hfall.
    eapply Forall_impl; [exact Hfall|]. by intros l (? & ? & _).
Qed.



End NearbyProperties.


(** A price range that is no number: the geospatial query matches no
    restaurant, and when the store rejects it the fallback throws on the
    cast of its filter. *)
Example nearby_price_not_a_number :
  (∃ pagination,
     @getNearbyRestaurants exampleRuntime exampleRestaurantRuntime false
       (fresh fridayStore) cheapNearHalifax
     = json (ListingBody [] pagination))
  ∧ @getNearbyRestaurants exampleRuntime exampleRestaurantRuntime true
      (fresh fridayStore) cheapNearHalifax
    = {| status := 500; body := ErrorBody "Failed to fetch nearby restaurants" |}.
Proof. split; [eexists|]; by vm_compute. Qed.

(** ** Soft delete *)

Lemma saveInactive_ids id rs : map r_id (saveInactive id rs) = map r_id rs.
Proof.
  induction rs as [|r rs IH]; simpl; [done|].
  destruct (String.eqb (r_id r) id); simpl; by rewrite ?IH.
Qed.

(** A soft delete rewrites one document, the first that carries the id:
    the documents before it and after it stay as they are. *)
Lemma saveInactive_one id rs r :
  find_by (fun x => String.eqb (r_id x) id) rs = Some r →
  ∃ before after,
    rs = before ++ r :: after
    ∧ saveInactive id rs = before ++ deactivate r :: after
    ∧ Forall (fun x => r_id x ≠ id) before
    ∧ r_id r = id.
Proof.
  unfold find_by. induction rs as [|x rs IH]; simpl; [done|].
  destruct (String.eqb_spec (r_id x) id) as [Hx|Hx].
  - intros [= ->]. by exists [], rs.
  - intros (before & after & -> & -> & Hbefore & Hid)%IH.
    exists (x :: before), after. split; [done|]. split; [done|].
    split; [by constructor | done].
Qed.

(** Looking a restaurant up by id after a soft delete finds the same
    document, deactivated when it is the deleted one. *)
Lemma find_by_saveInactive id id' rs :
  find_by (fun r => String.eqb (r_id r) id) (saveInactive id' rs)
  = (fun r => if String.eqb (r_id r) id' then deactivate r else r)
      <$> find_by (fun r => String.eqb (r_id r) id) rs.
Proof.
  unfold find_by. induction rs as [|r rs IH]; simpl; [done|].
  destruct (String.eqb_spec (r_id r) id') as [Hr|Hr]; simpl.
  - destruct (String.eqb_spec (r_id r) id) as [Hi|Hi]; simpl.
    + by rewrite (proj2 (String.eqb_eq _ _) Hr).
    + destruct (List.find _ rs) as [x|] eqn:Hx; simpl; [|done].
      apply List.find_some in Hx as [_ Hx]. apply String.eqb_eq in Hx.
      destruct (String.eqb_spec (r_id x) id'); [congruence | done].
  - destruct (String.eqb_spec (r_id r) id) as [Hi|Hi]; simpl; [|done].
    by rewrite (proj2 (String.eqb_neq _ _) Hr).
Qed.

Lemma populateRestaurant_saveInactive db id rid :
  populateRestaurant (set_restaurants (saveInactive id (restaurants db)) db) rid
  = populateRestaurant db rid.
Proof.
  unfold populateRestaurant. simpl. rewrite find_by_saveInactive.
  destruct (find_by _ (restaurants db)) as [r|]; simpl; [|done].
  by destruct (String.eqb (r_id r) id).
Qed.

Section RestaurantProperties.
Context `{!JsRuntime} `{!RestaurantRuntime}.

Lemma queryRestaurants_active geoFails db q listed pagination :
  queryRestaurants geoFails db q = Some (inr (ListingBody listed pagination)) →
  Forall (fun l => lr_doc l ∈ restaurants db ∧ r_isActive (lr_doc l) = true)
         listed.
Proof.
  unfold queryRestaurants. destruct (given _ && given _).
  - destruct (parseFloat (default "" (qp_latitude q))) as [lat|]; [|done].
    destruct (parseFloat (default "" (qp_longitude q))) as [lng|]; [|done].
    destruct (parseFloat (default "10" (qp_radius q))) as [radiusInKm|]; [|done].
    destruct geoFails; [done|].
    destruct (window _ _ _) as [w|] eqn:Hw; [|done].
    destruct (afterSkip _ _) as [counted|]; [|done].
    intros [= <- _]. apply window_sublist in Hw.
    apply Forall_forall. intros l (l0 & -> & Hl0)%elem_of_map. simpl.
    eapply sublist_elem_of in Hl0; [|done].
    apply elem_of_sortBy, elem_of_List_filter in Hl0 as [Hl0 Hf].
    apply geoNear_elem in Hl0 as (r & point & ? & ? & ? & ? & ->). simpl in *.
    split; [done|]. apply andb_true_iff in Hf as [Hf _].
    by apply andb_true_iff in Hf as [Hf _].
  - destruct (castsFilter q); [|done].
    destruct (cursorWindow _ _ _) as [w|] eqn:Hw; [|done].
    intros [= <- _]. apply cursorWindow_sublist in Hw.
    apply Forall_forall. intros l Hl.
    eapply sublist_elem_of in Hl; [|done].
    apply elem_of_sortBy, elem_of_map in Hl as (l0 & -> & Hl0).
    apply elem_of_map in Hl0 as (r & -> & Hr). simpl.
    apply elem_of_List_filter in Hr as [Hr Hf].
    split; [done|]. apply andb_true_iff in Hf as [Hf _].
    apply andb_true_iff in Hf as [Hf _]. by apply andb_true_iff in Hf as [Hf _].
Qed.

Lemma queryRestaurants_early geoFails db q r :
  queryRestaurants geoFails db q = Some (inl r) → status r = 400.
Proof.
  unfold queryRestaurants. intros Hq. by repeat case_match; simplify_eq.
Qed.

(** A listing that [getRestaurants] computes holds active restaurants only. *)
Lemma getRestaurants_computed geoFails st q listed pagination :
  (defaultBrowse q = true → restaurantCache st !! stringifyQuery q = None) →
  (getRestaurants geoFails st q).1 = json (ListingBody listed pagination) →
  Forall (fun l => lr_doc l ∈ restaurants (store st)
                   ∧ r_isActive (lr_doc l) = true) listed.
Proof.
  intros Hmiss. unfold getRestaurants.
  assert ((if defaultBrowse q then restaurantCache st !! stringifyQuery q else None)
          = None) as ->.
  { destruct (defaultBrowse q); [by apply Hmiss | done]. }
  destruct (queryRestaurants geoFails (store st) q) as [[early|response]|] eqn:Hq;
    [| |done].
  - simpl. intros ->. by apply queryRestaurants_early in Hq.
  - assert (json response = json (ListingBody listed pagination) →
            response = ListingBody listed pagination) as Hinj by (by intros [= ->]).
    destruct (defaultBrowse q); simpl; intros ->%Hinj;
      by eapply queryRestaurants_active.
Qed.

Lemma getBookingById_after_delete st ownerId restaurantId customerId id :
  getBookingById (deleteRestaurant st ownerId restaurantId).2 customerId id
  = getBookingById st customerId id.
Proof.
  unfold deleteRestaurant.
  destruct (findById (store st) restaurantId) as [e|[restaurant|]]; try done.
  destruct (negb _); [done|]. simpl.
  unfold getBookingById, findUserBookingById. simpl.
  destruct (find_by _ (bookings (store st))) as [b|]; [|done]. simpl.
  by rewrite (populateRestaurant_saveInactive (store st)).
Qed.

(** C6 (as amended). Deleting a restaurant only clears its active flag
    and removes no document: the collection keeps the same ids in the
    same order; a delete that is not answered 200 changes nothing; one
    that is answered 200 rewrites exactly one document, the one found
    under the requested id, every document before and after it staying
    as it was, and the rewritten document differs from the old one in its
    active flag only, which is false; it is found again under its id.
    The bookings and reviews are kept: every booking is read by id
    exactly as before and every review is found by id as before.  Every
    nearby-search listing, and every public listing that is computed from
    the store rather than served from the listing cache, holds active
    restaurants only. *)
Theorem soft_delete_hides_restaurant st ownerId restaurantId :
  let answer := (deleteRestaurant st ownerId restaurantId).1 in
  let st' := (deleteRestaurant st ownerId restaurantId).2 in
  map r_id (restaurants (store st')) = map r_id (restaurants (store st))
  ∧ (status answer ≠ 200 → st' = st)
  ∧ (status answer = 200 →
     ∃ before r after,
       restaurants (store st) = before ++ r :: after
       ∧ restaurants (store st') = before ++ deactivate r :: after
       ∧ Forall (fun x => r_id x ≠ restaurantId) before
       ∧ r_id r = restaurantId
       ∧ findById (store st) restaurantId = inr (Some r)
       ∧ findById (store st') restaurantId = inr (Some (deactivate r)))
  ∧ (∀ r, r_isActive (deactivate r) = false
          ∧ r_id (deactivate r) = r_id r
          ∧ r_name (deactivate r) = r_name r
          ∧ r_cuisine (deactivate r) = r_cuisine r
          ∧ r_location (deactivate r) = r_location r
          ∧ r_geometry (deactivate r) = r_geometry r
          ∧ r_priceRange (deactivate r) = r_priceRange r
          ∧ r_ownerId (deactivate r) = r_ownerId r
          ∧ r_capacity (deactivate r) = r_capacity r
          ∧ r_openingHours (deactivate r) = r_openingHours r)
  ∧ bookings (store st') = bookings (store st)
  ∧ reviews (store st') = reviews (store st)
  ∧ users (store st') = users (store st)
  ∧ (∀ customerId id,
       getBookingById st' customerId id = getBookingById st customerId id)
  ∧ (∀ id, findReviewById (store st') id = findReviewById (store st) id)
  ∧ (∀ s geoFails q listed pagination,
       getNearbyRestaurants geoFails s q = json (ListingBody listed pagination) →
       Forall (fun l => r_isActive (lr_doc l) = true) listed)
  ∧ (∀ s geoFails q listed pagination,
       (defaultBrowse q = true → restaurantCache s !! stringifyQuery q = None) →
       (getRestaurants geoFails s q).1 = json (ListingBody listed pagination) →
       Forall (fun l => r_isActive (lr_doc l) = true) listed).
Proof.
  intros answer st'.
  assert (bookings (store st') = bookings (store st)
          ∧ reviews (store st') = reviews (store st)
          ∧ users (store st') = users (store st)) as (Hbookings & Hreviews & Husers).
  { subst st'. unfold deleteRestaurant.
    destruct (findById (store st) restaurantId) as [e|[restaurant|]]; try done.
    by destruct (negb _). }
  split; [|split; [|split; [|split]]].
  - subst st'. unfold deleteRestaurant.
    destruct (findById (store st) restaurantId) as [e|[restaurant|]]; try done.
    destruct (negb _); [done|]. simpl. apply saveInactive_ids.
  - subst answer st'. unfold deleteRestaurant.
    destruct (findById (store st) restaurantId) as [e|[restaurant|]]; try done.
    by destruct (negb _).
  - subst answer st'. unfold deleteRestaurant.
    destruct (findById (store st) restaurantId) as [e|[restaurant|]] eqn:Hfind;
      try done.
    destruct (negb _); [done|]. simpl. intros _.
    unfold findById in *.
    destruct (validObjectId restaurantId); [|done]. simpl.
    injection Hfind as Hfind.
    destruct (saveInactive_one _ _ _ Hfind)
      as (before & after & Hold & Hnew & Hbefore & Hid).
    exists before, restaurant, after.
    split; [done|]. split; [by rewrite Hid|]. do 3 (split; [done|]).
    rewrite Hid, find_by_saveInactive, Hfind. simpl.
    by rewrite Hid, String.eqb_refl.
  - done.
  - split; [done|]. split; [done|]. split; [done|].
    split; [|split; [|split]].
    + intros customerId id. apply getBookingById_after_delete.
    + intros id. unfold findReviewById. by rewrite Hreviews.
    + intros s geoFails q listed pagination Hresp.
      eapply Forall_impl; [by eapply nearby_listing_active|]. by intros l [_ ?].
    + intros s geoFails q listed pagination Hmiss Hresp.
      eapply Forall_impl; [by eapply getRestaurants_computed|]. by intros l [_ ?].
Qed.

(** C10 (as amended). When nothing is cached under its key, fetching a
    restaurant whose active flag is false is answered 404, like fetching
    an id that no restaurant has. *)
Theorem inactive_restaurant_not_found st id :
  restaurantCache st !! restaurantKey id = None →
  (∀ r, findById (store st) id = inr (Some r) → r_isActive r = false →
        getRestaurantById st id
        = ({| status := 404; body := ErrorBody "Restaurant is not available" |},
           st))
  ∧ (findById (store st) id = inr None →
     getRestaurantById st id
     = ({| status := 404; body := ErrorBody "Restaurant not found" |}, st)).
Proof.
  intros Hmiss. unfold getRestaurantById. rewrite Hmiss. split.
  - intros r -> Hr. by rewrite Hr.
  - by intros ->.
Qed.

End RestaurantProperties.

Lemma inactive_restaurant_not_found_witness :
  @getRestaurantById exampleRestaurantRuntime
    (fresh (set_restaurants [deactivate trattoria; bistro] fridayStore)) "r1"
  = ({| status := 404; body := ErrorBody "Restaurant is not available" |},
     fresh (set_restaurants [deactivate trattoria; bistro] fridayStore)).
Proof.
  exact (proj1 (@inactive_restaurant_not_found exampleRestaurantRuntime
                  (fresh (set_restaurants [deactivate trattoria; bistro] fridayStore))
                  "r1" eq_refl)
           (deactivate trattoria) eq_refl eq_refl).
Defined.

(** Counterexample to C10 as stated: read, delete, read again.  The
    restaurant is inactive in the store and the second read is answered
    200 from the cache. *)
Lemma cached_inactive_restaurant_served :
  @findById exampleRestaurantRuntime (store readThenDeleted) "r1"
  = inr (Some (deactivate trattoria))
  ∧ r_isActive (deactivate trattoria) = false
  ∧ (@getRestaurantById exampleRestaurantRuntime readThenDeleted "r1").1
    = json (Cached (RestaurantBody trattoria (Some ("Olga", "olga@example.org"))))%string
  ∧ status (@getRestaurantById exampleRestaurantRuntime readThenDeleted "r1").1
    ≠ 404.
Proof. vm_compute. repeat split; (reflexivity || discriminate). Qed.

(** Counterexample to C6 as stated: browse, delete, browse again.  The
    deleted restaurant is inactive in the store and still in the public
    listing, which is served from the cache. *)
Lemma cached_listing_shows_deleted :
  @findById exampleRestaurantRuntime (store browsedThenDeleted) "r1"
  = inr (Some (deactivate trattoria))
  ∧ r_isActive (deactivate trattoria) = false
  ∧ ∃ listed pagination,
      (@getRestaurants exampleRuntime exampleRestaurantRuntime false
         browsedThenDeleted browse).1
      = json (Cached (ListingBody listed pagination))
      ∧ map (fun l => r_id (lr_doc l)) listed = ["r2"; "r1"]%string.
Proof.
  split; [by vm_compute|]. split; [done|].
  eexists _, _. split; vm_compute; reflexivity.
Qed.

(** ** Histories of requests *)

Lemma saveStatus_docs id s bs x :
  x ∈ saveStatus id s bs → x ∈ bs ∨ ∃ y, y ∈ bs ∧ x = withStatus s y.
Proof.
  induction bs as [|b bs IH]; simpl; [by left|].
  destruct (String.eqb (bk_id b) id); rewrite !elem_of_cons.
  - intros [->|Hx]; [|by left; right].
    right. exists b. split; [by apply elem_of_cons; left | done].
  - intros [->|Hx]; [by left; left|].
    destruct (IH Hx) as [?|(y & ? & ->)]; [by left; right|].
    right. exists y. split; [by apply elem_of_cons; right | done].
Qed.

Lemma slotsReflect_computed capacity db rid date times :
  slotsReflect db rid date
    (map (slotFor capacity (bookingCounts (existingBookings db rid date))) times).
Proof.
  apply List.Forall_map, Forall_forall. intros t _. simpl.
  by rewrite tally_is_committedGuests.
Qed.

Lemma slotsReflect_same db db' rid date slots :
  (∀ time, committedGuests db' rid date time = committedGuests db rid date time) →
  slotsReflect db rid date slots → slotsReflect db' rid date slots.
Proof.
  intros Hsame Hagree. eapply Forall_impl; [exact Hagree|].
  intros s ->. by rewrite Hsame.
Qed.

Section HistoryProperties.
Context `{!BookingHelpers} `{!JsRuntime} `{!RestaurantRuntime}.
Hypothesis refToString_id : ∀ ref, refToString ref = ref_id ref.

(** Whenever [getAvailability] computes, the answer is for the restaurant
    and date of the query and agrees with the bookings collection. *)
Lemma getAvailability_computed_slots st q rid name date dow h slots n :
  bookingCache st !! availabilityKey (aq_restaurantId q) (aq_date q) = None →
  (getAvailability st q).1
  = json (AvailabilityBody rid name date dow h slots n) →
  rid = aq_restaurantId q ∧ date = aq_date q
  ∧ slotsReflect (store st) rid date slots.
Proof.
  intros Hmiss. unfold getAvailability. rewrite Hmiss.
  repeat case_match; simpl; intros Hr;
    try discriminate; try (by destruct e); simplify_eq.
  repeat split. apply slotsReflect_computed.
Qed.

Lemma getAvailability_consistent st q :
  Consistent st → Consistent (getAvailability st q).2.
Proof.
  intros [Hids Hrefs Hcache]. unfold getAvailability.
  repeat case_match; simpl; try by constructor.
  constructor.
  { assumption. }
  { assumption. }
  simpl.
  intros k rid name date dow h' slots n Hk.
  apply lookup_insert_Some in Hk as [[<- Hk]|[_ Hk]]; [|by eapply Hcache].
  injection Hk as <- <- <- <- <- <- <-.
  split; [done | apply slotsReflect_computed].
Qed.

Lemma createBooking_consistent env st customerId b :
  Consistent st →
  newId env ∉ map bk_id (bookings (store st)) →
  Consistent (createBooking env st customerId b).1.2.
Proof.
  intros [Hids Hrefs Hcache] Hfresh. unfold createBooking.
  destruct (createBooking_check st customerId b) as [[r|c] seen] eqn:Hc;
    simpl; [by constructor|].
  unfold createBooking_insert.
  destruct (saveError env); [by constructor|].
  destruct (commitError env); [by constructor|].
  apply createBooking_check_cleared in Hc as (_ & Hr & _ & Hb & _ & _ & _).
  simpl. constructor; simpl.
  - unfold uniqueBookingIds in *. simpl. rewrite map_app. apply NoDup_app.
    split; [done|]. split; [|apply NoDup_singleton].
    intros x Hx Hnew. apply list_elem_of_singleton in Hnew as ->. done.
  - intros x [Hx|Hx]%elem_of_app; [by apply Hrefs|].
    apply list_elem_of_singleton in Hx as ->. simpl. rewrite Hb. unfold findRestaurantById in Hr.
    destruct (find_by _ _); [by eexists | done].
  - intros k rid name date dow h slots n Hk.
    apply lookup_delete_Some in Hk as [Hslot Hk].
    apply lookup_delete_Some in Hk as [_ Hk].
    destruct (Hcache _ _ _ _ _ _ _ _ Hk) as [-> Hagree]. split; [done|].
    eapply slotsReflect_same; [|exact Hagree]. intros time.
    rewrite committedGuests_insert. case_decide as Hcount; [|lia].
    destruct Hcount as (Hrid & Hdate & _). simpl in *. congruence.
Qed.

Lemma cancelBooking_state now st customerId id :
  (cancelBooking now st customerId id).2 = st
  ∨ ∃ b,
      findUserBookingById (store st) id customerId = inr b
      ∧ (cancelBooking now st customerId id).2
        = set_bookingCache
            (delete (availabilityKey (refString (pb_restaurant b))
                       (bk_date (pb_doc b)))
               (delete (userBookingsKey customerId None None None)
                  (bookingCache st)))
            (set_store (set_bookings
                          (saveStatus (bk_id (pb_doc b)) cancelled
                             (bookings (store st)))
                          (store st)) st).
Proof.
  unfold cancelBooking.
  destruct (findUserBookingById (store st) id customerId) as [e|b]; [by left|].
  destruct (BookingStatus_eqb _ _); [by left|].
  destruct (isPast _ _); [by left|].
  right. exists b. split; [done|]. by destruct (pb_restaurant b).
Qed.

Lemma cancelBooking_consistent now st customerId id :
  Consistent st → Consistent (cancelBooking now st customerId id).2.
Proof.
  intros Hst. destruct (cancelBooking_state now st customerId id)
    as [->|(b & Hfind & ->)]; [done|].
  destruct Hst as [Hids Hrefs Hcache].
  unfold findUserBookingById in Hfind.
  destruct (find_by _ (bookings (store st))) as [doc|] eqn:Hdoc; [|done].
  simplify_eq. simpl. apply find_by_Some in Hdoc as [Hin _].
  constructor; simpl.
  - unfold uniqueBookingIds. simpl. by rewrite saveStatus_ids.
  - intros x [Hx|(y & Hy & ->)]%saveStatus_docs;
      [by apply Hrefs | by apply (Hrefs y)].
  - intros k rid name date dow h slots n Hk.
    apply lookup_delete_Some in Hk as [Hslot Hk].
    apply lookup_delete_Some in Hk as [_ Hk].
    destruct (Hcache _ _ _ _ _ _ _ _ Hk) as [-> Hagree]. split; [done|].
    eapply slotsReflect_same; [|exact Hagree]. intros time.
    unfold committedGuests. simpl. rewrite saveStatus_cancelled_sum by done.
    case_decide as Hcount; [|lia]. destruct Hcount as (Hrid & Hdate & _).
    destruct Hslot. unfold populateRestaurant.
    destruct (Hrefs _ Hin) as [r Hr]. rewrite Hr. simpl.
    apply find_by_Some in Hr as [_ Hr]. apply String.eqb_eq in Hr.
    rewrite refToString_id. simpl. congruence.
Qed.

Lemma deleteRestaurant_consistent st ownerId restaurantId :
  Consistent st → Consistent (deleteRestaurant st ownerId restaurantId).2.
Proof.
  intros [Hids Hrefs Hcache]. unfold deleteRestaurant.
  destruct (findById (store st) restaurantId) as [e|[restaurant|]];
    try by constructor.
  destruct (negb _); [by constructor|]. simpl.
  constructor; simpl; [done| |done].
  intros b Hb. rewrite find_by_saveInactive.
  destruct (Hrefs _ Hb) as [r ->]. by eexists.
Qed.

Lemma serve_consistent st rq :
  Consistent st → freshIds st [rq] → Consistent (serve st rq).
Proof.
  intros Hst [Hfresh _]. destruct rq as [q|env c b|now c id|o r|key]; simpl.
  - by apply getAvailability_consistent.
  - by apply createBooking_consistent.
  - by apply cancelBooking_consistent.
  - by apply deleteRestaurant_consistent.
  - destruct Hst as [Hids Hrefs Hcache]. constructor; simpl; [done|done|].
    intros k rid name date dow h slots n [_ Hk]%lookup_delete_Some.
    by eapply Hcache.
Qed.

(** The bookings collection after one request: unchanged, one booking
    appended under the driver's id, or one booking saved as cancelled. *)
Lemma serve_bookings st rq :
  bookings (store (serve st rq)) = bookings (store st)
  ∨ (∃ env nb, bookings (store (serve st rq)) = bookings (store st) ++ [nb]
               ∧ bk_id nb = newId env
               ∧ (freshIds st [rq] → newId env ∉ map bk_id (bookings (store st))))
  ∨ (∃ id, bookings (store (serve st rq))
           = saveStatus id cancelled (bookings (store st))).
Proof.
  destruct rq as [q|env c b|now c id|o r|key]; simpl.
  - left. unfold getAvailability. by repeat case_match.
  - unfold createBooking.
    destruct (createBooking_check st c b) as [[r|cl] seen]; simpl; [by left|].
    unfold createBooking_insert.
    destruct (saveError env); [by left|]. destruct (commitError env); [by left|].
    right. left. exists env, (newBooking env cl). simpl.
    split; [done|]. split; [done|]. by intros [? _].
  - destruct (cancelBooking_state now st c id) as [->|(b & _ & ->)]; [by left|].
    right. right. by eexists.
  - left. unfold deleteRestaurant. by repeat case_match.
  - by left.
Qed.

Lemma serve_cancelledIn st rq id :
  freshIds st [rq] → cancelledIn (store st) id →
  cancelledIn (store (serve st rq)) id.
Proof.
  intros Hfresh [Hid Hcancelled]. unfold cancelledIn.
  destruct (serve_bookings st rq)
    as [->|[(env & nb & -> & Hnb & Hnew)|(id' & ->)]]; [done| |].
  - split.
    + rewrite map_app. apply elem_of_app. by left.
    + intros x [Hx|Hx]%elem_of_app Hxid; [by apply Hcancelled|].
      apply list_elem_of_singleton in Hx as ->.
      destruct (Hnew Hfresh). congruence.
  - split; [by rewrite saveStatus_ids|].
    intros x [Hx|(y & Hy & ->)]%saveStatus_docs Hxid; [by apply Hcancelled|done].
Qed.

Lemma serveAll_invariant st rqs id :
  Consistent st → cancelledIn (store st) id → freshIds st rqs →
  Consistent (serveAll st rqs) ∧ cancelledIn (store (serveAll st rqs)) id.
Proof.
  revert st. induction rqs as [|rq rqs IH]; intros st Hst Hid Hfresh; [done|].
  destruct Hfresh as [Hrq Hrest]. simpl. apply IH; [| |done].
  - by apply serve_consistent.
  - by apply serve_cancelledIn.
Qed.

(** In a consistent state every availability answer, computed or cached,
    agrees with the bookings collection. *)
Lemma availability_agrees st q rid name date dow h slots n :
  Consistent st →
  (getAvailability st q).1 = json (AvailabilityBody rid name date dow h slots n) →
  slotsReflect (store st) rid date slots.
Proof.
  intros [_ _ Hcache] Hresp.
  destruct (bookingCache st !! availabilityKey (aq_restaurantId q) (aq_date q))
    as [cached|] eqn:Hk.
  - unfold getAvailability in Hresp. rewrite Hk in Hresp. simpl in Hresp.
    injection Hresp as ->. by eapply Hcache.
  - by eapply getAvailability_computed_slots.
Qed.

End HistoryProperties.

(** ** Cancellation *)

Lemma cancelledIn_untallied db id rid date time x :
  cancelledIn db id →
  x ∈ filter (CountsAt rid date time) (bookings db) → bk_id x ≠ id.
Proof.
  intros [_ Hcancelled] [Hcount Hx]%list_elem_of_filter Hid.
  by eapply CountsAt_cancelled; [apply Hcancelled|].
Qed.

Section CancellationProperties.
Context `{!BookingHelpers} `{!JsRuntime} `{!RestaurantRuntime}.

Lemma findUserBookingById_found db id customerId b :
  findUserBookingById db id customerId = inr b →
  pb_doc b ∈ bookings db ∧ bk_id (pb_doc b) = id
  ∧ bk_customerId (pb_doc b) = customerId
  ∧ pb_restaurant b = populateRestaurant db (bk_restaurantId (pb_doc b)).
Proof.
  unfold findUserBookingById. destruct (find_by _ _) as [x|] eqn:Hf; [|done].
  intros [= <-]. apply find_by_Some in Hf as [Hin Hp].
  apply andb_true_iff in Hp as [Hi Hc].
  apply String.eqb_eq in Hi, Hc. done.
Qed.

(** What a cancellation does when a populated restaurant document prints
    as its id.  It is answered 200 only for a booking of the requesting
    customer that is neither cancelled nor in the past; then the booking
    is stored as cancelled, the availability entry of its restaurant and
    date and the customer's booking-list entry are gone from the cache,
    the guest sum of its slot drops by its guests, and after any further
    requests served one at a time every availability answer, computed or
    cached, agrees with the bookings collection, in which no tally
    contains the booking.  A booking that is already cancelled, or whose
    date and time lie before now, is answered 400 and nothing changes; a
    booking of someone else is answered 404 and nothing changes. *)
Lemma cancelBooking_rules now st customerId id r st' :
  Consistent st →
  (∀ ref, refToString ref = ref_id ref) →
  cancelBooking now st customerId id = (r, st') →
  (status r = 200 →
   ∃ b,
     b ∈ bookings (store st) ∧ bk_id b = id ∧ bk_customerId b = customerId
     ∧ bk_status b ≠ cancelled
     ∧ (∀ t, dateTimeValue (bk_date b) (bk_time b) = Some t → now <= t)
     ∧ bookings (store st') = saveStatus id cancelled (bookings (store st))
     ∧ (∀ x, x ∈ bookings (store st') → bk_id x = id → bk_status x = cancelled)
     ∧ bookingCache st' !! availabilityKey (bk_restaurantId b) (bk_date b) = None
     ∧ bookingCache st' !! userBookingsKey customerId None None None = None
     ∧ (∀ time,
          committedGuests (store st') (bk_restaurantId b) (bk_date b) time
          = committedGuests (store st) (bk_restaurantId b) (bk_date b) time
            - (if decide (CountsAt (bk_restaurantId b) (bk_date b) time b)
               then bk_guests b else 0))
     ∧ (∀ rqs q rid name date dow h slots n,
          freshIds st' rqs →
          (getAvailability (serveAll st' rqs) q).1
          = json (AvailabilityBody rid name date dow h slots n) →
          slotsReflect (store (serveAll st' rqs)) rid date slots
          ∧ ∀ time x,
              x ∈ filter (CountsAt rid date time)
                    (bookings (store (serveAll st' rqs))) →
              bk_id x ≠ id))
  ∧ (∀ b,
       findUserBookingById (store st) id customerId = inr b →
       bk_status (pb_doc b) = cancelled
       ∨ (∃ t, dateTimeValue (bk_date (pb_doc b)) (bk_time (pb_doc b)) = Some t
               ∧ t < now) →
       status r = 400 ∧ st' = st)
  ∧ ((∀ b, b ∈ bookings (store st) → bk_id b = id →
           bk_customerId b ≠ customerId) →
     status r = 404 ∧ st' = st).
Proof.
  intros Hst Href Hrun.
  pose proof (cancelBooking_consistent Href now st customerId id Hst) as Hst'.
  rewrite Hrun in Hst'. simpl in Hst'.
  pose proof (ids_unique _ Hst) as Hunique.
  unfold cancelBooking in Hrun.
  destruct (findUserBookingById (store st) id customerId) as [e|b] eqn:Hfind.
  - (* nothing found for this customer *)
    unfold findUserBookingById in Hfind.
    destruct (find_by _ _); [done|]. simplify_eq. simpl. repeat split; done.
  - pose proof (findUserBookingById_found _ _ _ _ Hfind) as (Hin & Hid & Hcust & Hpop).
    destruct (BookingStatus_eqb (bk_status (pb_doc b)) cancelled) eqn:Hstatus.
    { simplify_eq. simpl. split; [done|]. split; [done|].
      intros Hother. destruct (Hother _ Hin eq_refl eq_refl). }
    destruct (isPast _ now) eqn:Hpast.
    { simplify_eq. simpl. split; [done|]. split; [done|].
      intros Hother. destruct (Hother _ Hin eq_refl eq_refl). }
    assert (bk_status (pb_doc b) ≠ cancelled) as Hlive.
    { intros Hc. apply BookingStatus_eqb_eq in Hc. congruence. }
    split; [|split].
    + intros Hok. destruct (pb_restaurant b) as [ref|] eqn:Hrefb;
        [|simplify_eq; done].
      symmetry in Hpop. apply populateRestaurant_id in Hpop as Hrid.
      simplify_eq. simpl in *. rewrite Href, Hrid in Hst' |- *.
      assert (∀ x,
                x ∈ saveStatus (bk_id (pb_doc b)) cancelled (bookings (store st)) →
                bk_id x = bk_id (pb_doc b) → bk_status x = cancelled)
        as Hcancelled by (intros x; by apply saveStatus_cancelled_status).
      match type of Hst' with Consistent ?s => set (after := s) in * end.
      assert (∀ rqs, freshIds after rqs →
                Consistent (serveAll after rqs)
                ∧ cancelledIn (store (serveAll after rqs)) (bk_id (pb_doc b)))
        as Hlater.
      { intros rqs. apply serveAll_invariant; [done|done|].
        split; [|done]. subst after. simpl. rewrite saveStatus_ids.
        apply elem_of_map. by exists (pb_doc b). }
      exists (pb_doc b). repeat split; try done.
      * intros t Ht. rewrite Ht in Hpast. simpl in Hpast.
        by apply Z.ltb_ge in Hpast.
      * apply lookup_delete_eq.
      * rewrite lookup_delete. case_decide; [done | apply lookup_delete_eq].
      * intros time. unfold committedGuests. simpl.
        by apply saveStatus_cancelled_sum.
      * match goal with Hf : freshIds _ _ |- _ =>
          destruct (Hlater _ Hf) as [Hcons _] end.
        by eapply availability_agrees.
      * match goal with Hf : freshIds _ _ |- _ =>
          destruct (Hlater _ Hf) as [_ Hgone] end.
        intros time x. by apply cancelledIn_untallied.
    + intros b' Hb' Hrej. simplify_eq.
      destruct Hrej as [Hc | (t & Ht & Hlt)]; [done|].
      rewrite Ht in Hpast. simpl in Hpast. apply Z.ltb_ge in Hpast. lia.
    + intros Hother. destruct (Hother _ Hin Hid Hcust).
Qed.

(** When the populated document does not print as its id, a successful
    cancellation leaves the availability entry of the booking's
    restaurant and date in the cache. *)
Lemma cancelBooking_leaves_entry now st customerId id b ref :
  findUserBookingById (store st) id customerId = inr b →
  pb_restaurant b = Some ref →
  availabilityKey (refToString ref) (bk_date (pb_doc b))
  ≠ availabilityKey (ref_id ref) (bk_date (pb_doc b)) →
  bookingCache (cancelBooking now st customerId id).2
    !! availabilityKey (ref_id ref) (bk_date (pb_doc b))
  = bookingCache st !! availabilityKey (ref_id ref) (bk_date (pb_doc b)).
Proof.
  intros Hfind Href Hkey.
  destruct (cancelBooking_state now st customerId id)
    as [->|(b' & Hfind' & ->)]; [done|].
  rewrite Hfind in Hfind'. simplify_eq. simpl. rewrite Href. simpl.
  rewrite lookup_delete_ne by done. by rewrite lookup_delete_ne.
Qed.

End CancellationProperties.

Lemma fridayStore_consistent : Consistent (fresh fridayStore).
Proof.
  constructor.
  - apply (bool_decide_unpack _). by vm_compute.
  - apply Forall_forall. repeat constructor; by eexists.
  - intros k rid name date dow h slots n Hk. simpl in Hk.
    by rewrite lookup_empty in Hk.
Qed.

Lemma warm_consistent : Consistent warm.
Proof. apply getAvailability_consistent, fridayStore_consistent. Qed.

(** In a runtime where a populated document prints as its id, the
    cancellation of the 10-guest booking of the specification's example
    clears the availability entry and leaves 8 guests counted at 19:00,
    also after the cache has been filled again and another table has been
    booked. *)
Example cancelBooking_rules_example :
  is_Some (bookingCache warm !! availabilityKey "r1" "2025-07-04")
  ∧ ∃ b,
      b ∈ bookings fridayStore ∧ bk_id b = "b1"%string
      ∧ bookingCache (@cancelBooking idRuntime 1000 warm "c1" "b1").2
          !! availabilityKey (bk_restaurantId b) (bk_date b) = None
      ∧ ∀ time,
          committedGuests (store (@cancelBooking idRuntime 1000 warm "c1" "b1").2)
            (bk_restaurantId b) (bk_date b) time
          = committedGuests fridayStore (bk_restaurantId b) (bk_date b) time
            - (if decide (CountsAt (bk_restaurantId b) (bk_date b) time b)
               then bk_guests b else 0).
Proof.
  split; [by eexists|].
  destruct (@cancelBooking_rules exampleHelpers idRuntime
              exampleRestaurantRuntime 1000 warm "c1" "b1"
              (@cancelBooking idRuntime 1000 warm "c1" "b1").1
              (@cancelBooking idRuntime 1000 warm "c1" "b1").2)
    as [Hok _].
  - exact warm_consistent.
  - intros ref. reflexivity.
  - reflexivity.
  - destruct (Hok eq_refl)
      as (b & Hin & Hid & _ & _ & _ & _ & _ & Hkey & _ & Hsum & _).
    exists b. repeat split; assumption.
Qed.

Example cancelled_not_counted :
  committedGuests fridayStore "r1" "2025-07-04" "19:00" = 18
  ∧ committedGuests (store (@cancelBooking idRuntime 1000 warm "c1" "b1").2)
      "r1" "2025-07-04" "19:00" = 8
  ∧ (@getAvailability exampleHelpers
       (@serveAll exampleHelpers idRuntime exampleRestaurantRuntime
          (@cancelBooking idRuntime 1000 warm "c1" "b1").2
          [GetAvailability {| aq_restaurantId := "r1"; aq_date := "2025-07-04" |};
           CreateBooking (quiet "n1") "c2" (request "r1" "20:00" 5)])
       {| aq_restaurantId := "r1"; aq_date := "2025-07-04" |}).1
    = json (AvailabilityBody "r1" "Trattoria" "2025-07-04" "friday"
              {| open := "17:00"; close := "22:00" |}
              [ {| slot_time := "18:00"; slot_available := true;
                   slot_availableCapacity := 20; slot_totalCapacity := 20 |};
                {| slot_time := "19:00"; slot_available := true;
                   slot_availableCapacity := 12; slot_totalCapacity := 20 |};
                {| slot_time := "20:00"; slot_available := true;
                   slot_availableCapacity := 15; slot_totalCapacity := 20 |} ]
              3).
Proof. by vm_compute. Qed.

(** C5. A cancellation by the owning customer is answered 200, stores the
    booking as cancelled and clears the customer's booking-list entry, but
    the cache key it deletes for the availability entry is built from the
    populated restaurant document instead of its id: the availability
    entry of that restaurant and date stays in the cache, and the next
    availability request still counts the cancelled guests.  Here the
    10-guest booking at 19:00 is cancelled, 8 guests remain booked, and
    availability still answers 2 free seats of 20 at 19:00. *)
Theorem cancelled_booking_still_counted :
  status (@cancelBooking exampleRuntime 1000 warm "c1" "b1").1 = 200
  ∧ bookings (store (@cancelBooking exampleRuntime 1000 warm "c1" "b1").2)
    = [booked "b1" "c1" "19:00" 10 cancelled;
       booked "b2" "c2" "19:00" 8 confirmed;
       booked "b3" "c2" "20:00" 4 cancelled]
  ∧ committedGuests (store (@cancelBooking exampleRuntime 1000 warm "c1" "b1").2)
      "r1" "2025-07-04" "19:00" = 8
  ∧ bookingCache (@cancelBooking exampleRuntime 1000 warm "c1" "b1").2
      !! userBookingsKey "c1" None None None = None
  ∧ bookingCache (@cancelBooking exampleRuntime 1000 warm "c1" "b1").2
      !! availabilityKey "r1" "2025-07-04"
    = bookingCache warm !! availabilityKey "r1" "2025-07-04"
  ∧ (@getAvailability exampleHelpers
       (@cancelBooking exampleRuntime 1000 warm "c1" "b1").2
       {| aq_restaurantId := "r1"; aq_date := "2025-07-04" |}).1
    = json (AvailabilityBody "r1" "Trattoria" "2025-07-04" "friday"
              {| open := "17:00"; close := "22:00" |}
              [ {| slot_time := "18:00"; slot_available := true;
                   slot_availableCapacity := 20; slot_totalCapacity := 20 |};
                {| slot_time := "19:00"; slot_available := true;
                   slot_availableCapacity := 2; slot_totalCapacity := 20 |};
                {| slot_time := "20:00"; slot_available := true;
                   slot_availableCapacity := 20; slot_totalCapacity := 20 |} ]
              3).
Proof. by vm_compute. Qed.

(** ** Further properties of the booking controller *)


Lemma find_by_app {A} (p : A → bool) l k :
  find_by p (l ++ k)
  = match find_by p l with Some x => Some x | None => find_by p k end.
Proof.
  unfold find_by. induction l as [|y l IH]; simpl; [done|].
  by destruct (p y).
Qed.

Lemma find_by_absent {A} (p : A → bool) l :
  (∀ x, x ∈ l → p x = false) → find_by p l = None.
Proof.
  unfold find_by. induction l as [|y l IH]; simpl; intros Hl; [done|].
  rewrite (Hl y) by (apply elem_of_cons; by left).
  apply IH. intros x Hx. apply Hl. apply elem_of_cons. by right.
Qed.

Lemma saveStatus_absent id s bs :
  id ∉ map bk_id bs → saveStatus id s bs = bs.
Proof.
  induction bs as [|b bs IH]; simpl; intros Hid; [done|].
  apply not_elem_of_cons in Hid as [Hne Hid].
  destruct (String.eqb_spec (bk_id b) id); [congruence|].
  by rewrite IH.
Qed.


(** With unique ids, the store finds the rewritten document where it found
    the original. *)
Lemma find_by_saveStatus (p : Booking → bool) id s bs :
  NoDup (map bk_id bs) →
  (∀ x, p (withStatus s x) = p x) →
  (∀ x, p x = true → bk_id x = id) →
  find_by p (saveStatus id s bs) = withStatus s <$> find_by p bs.
Proof.
  intros Hnd Hp Hid. unfold find_by.
  induction bs as [|b bs IH]; simpl; [done|].
  apply NoDup_cons in Hnd as [Hb Hnd].
  destruct (String.eqb_spec (bk_id b) id) as [Heq|Hne]; simpl.
  - rewrite Hp. destruct (p b) eqn:Hpb; [done|].
    pose proof (find_by_absent p bs) as Habs. unfold find_by in Habs.
    rewrite Habs; [done|].
    intros x Hx. destruct (p x) eqn:Hpx; [|done].
    destruct Hb. rewrite Heq, <- (Hid x Hpx). apply elem_of_map. by exists x.
  - destruct (p b) eqn:Hpb; [by destruct Hne; apply Hid | by apply IH].
Qed.

(** Membership in a trace that is written out. *)
Ltac trace_in :=
  repeat first [ by (apply elem_of_cons; left) | apply elem_of_cons; right ].
Ltac trace_out H :=
  repeat (apply elem_of_cons in H as [H|H]; [discriminate H|]);
  by apply elem_of_nil in H.

Section BookingExtras.
Context `{!BookingHelpers} `{!JsRuntime}.

(** A request that is answered 201 cleared the first phase, met no write
    error, and left the state of the success branch. *)
Lemma createBooking_created env st customerId b r st' effects :
  createBooking env st customerId b = (r, st', effects) →
  status r = 201 →
  ∃ c seen,
    createBooking_check st customerId b = (inr c, seen)
    ∧ saveError env = None ∧ commitError env = None
    ∧ r = {| status := 201;
             body := BookingBody (Some "Booking created successfully")
                       (bookingView (newBooking env c)
                          (r_name (cl_restaurant c))) |}
    ∧ st' = set_bookingCache
              (delete (availabilityKey (cb_restaurantId b) (cb_date b))
                 (delete (userBookingsKey customerId None None None)
                    (bookingCache st)))
              (set_store (set_bookings
                            (bookings (store st) ++ [newBooking env c])
                            (store st)) st).
Proof.
  unfold createBooking.
  destruct (createBooking_check st customerId b) as [[r0|c] seen] eqn:Hc.
  { intros [= <- <- <-] Hok.
    by destruct (createBooking_check_rejected _ _ _ _ _ Hc) as [Hno _]. }
  pose proof (createBooking_check_cleared _ _ _ _ _ Hc)
    as (_ & _ & _ & Hb & Hcust & _ & _).
  unfold createBooking_insert.
  destruct (saveError env) as [e|] eqn:Hsave.
  { intros [= <- <- <-] Hok. by destruct (handleBookingError_status e). }
  destruct (commitError env) as [e|] eqn:Hcommit.
  { intros [= <- <- <-] Hok. by destruct (handleBookingError_status e). }
  intros [= <- <- <-] _. exists c, seen. rewrite Hb, Hcust. done.
Qed.

(** X2. When the save or the commit of [createBooking] throws, the
    transaction is aborted and the session ended, the answer is the one
    [handleBookingError] gives for the error (never 201), the state is
    the state before the request, no confirmation mail is sent and no
    cache entry is deleted.  The commit is attempted only when the save
    went through. *)
Theorem createBooking_failed_write env st customerId b c seen e :
  createBooking_check st customerId b = (inr c, seen) →
  saveError env = Some e ∨ (saveError env = None ∧ commitError env = Some e) →
  ∃ effects,
    createBooking env st customerId b = (handleBookingError e, st, effects)
    ∧ status (handleBookingError e) ≠ 201
    ∧ Save (newBooking env c) ∈ effects
    ∧ AbortTransaction ∈ effects
    ∧ EndSession ∈ effects
    ∧ last effects = Some (Respond (handleBookingError e))
    ∧ (CommitTransaction ∈ effects ↔ saveError env = None)
    ∧ (∀ to id, SendEmail to id ∉ effects)
    ∧ (∀ key, CacheDel key ∉ effects).
Proof.
  intros Hc Hfail. unfold createBooking. rewrite Hc.
  apply createBooking_check_cleared in Hc as (_ & _ & _ & _ & _ & _ & ->).
  unfold createBooking_insert, failedWrite.
  destruct Hfail as [Hs|[Hs Hm]]; rewrite Hs; [|rewrite Hm];
    (eexists; split; [reflexivity|]);
    (split; [apply handleBookingError_status|]); simpl;
    (split; [trace_in|]); (split; [trace_in|]); (split; [trace_in|]);
    (split; [done|]); (split; [|split; intros; intros Hin; trace_out Hin]).
  - split; [intros Hin; trace_out Hin | done].
  - split; [done | intros _; trace_in].
Qed.

(** X3. A booking that is answered 201 keeps the state consistent, removes
    the availability entry of its restaurant and date and the customer's
    booking-list entry from the cache, and raises the guest sum of its
    slot (and of no other slot of that restaurant and date) by its guests;
    every availability answer given in the state it leaves, computed or
    from the cache, agrees with the bookings collection. *)
Theorem createBooking_refreshes_availability env st customerId b r st' effects :
  Consistent st →
  newId env ∉ map bk_id (bookings (store st)) →
  createBooking env st customerId b = (r, st', effects) →
  status r = 201 →
  Consistent st'
  ∧ bookingCache st' !! availabilityKey (cb_restaurantId b) (cb_date b) = None
  ∧ bookingCache st' !! userBookingsKey customerId None None None = None
  ∧ (∀ time,
       committedGuests (store st') (cb_restaurantId b) (cb_date b) time
       = committedGuests (store st) (cb_restaurantId b) (cb_date b) time
         + (if decide (time = cb_time b) then cb_guests b else 0))
  ∧ (∀ q rid name date dow h slots n,
       (getAvailability st' q).1
       = json (AvailabilityBody rid name date dow h slots n) →
       slotsReflect (store st') rid date slots).
Proof.
  intros Hst Hfresh Hrun Hok.
  pose proof (createBooking_consistent env st customerId b Hst Hfresh) as Hst'.
  rewrite Hrun in Hst'. simpl in Hst'.
  destruct (createBooking_created _ _ _ _ _ _ _ Hrun Hok)
    as (c & seen & Hc & _ & _ & _ & Hstate).
  apply createBooking_check_cleared in Hc as (_ & _ & _ & Hb & _ & _ & _).
  split; [done|]. split; [|split; [|split]].
  - subst st'. simpl. apply lookup_delete_eq.
  - subst st'. simpl. rewrite lookup_delete.
    case_decide; [done | apply lookup_delete_eq].
  - intros time. subst st'. simpl. rewrite committedGuests_insert.
    destruct (decide (CountsAt _ _ time (newBooking env c))) as [Hcount|Hcount];
      destruct (decide (time = cb_time b)) as [Ht|Ht]; simpl;
      rewrite ?Hb; try done.
    + destruct Hcount as (_ & _ & Htime & _). simpl in Htime.
      rewrite Hb in Htime. congruence.
    + destruct Hcount. unfold CountsAt. simpl. rewrite Hb. subst time. auto.
  - intros q rid name date dow h slots n. by apply availability_agrees.
Qed.

(** X4. [getAvailability] reads through its cache: it never changes the
    store or the restaurant cache; an entry under the key of the query is
    answered as it is; once a slot list has been answered, the same query
    is answered with the same slot list whatever the store holds by then;
    and an answer that is not a slot list (an error, a closed day) leaves
    the cache as it was. *)
Theorem getAvailability_read_through st q :
  store (getAvailability st q).2 = store st
  ∧ restaurantCache (getAvailability st q).2 = restaurantCache st
  ∧ (∀ cached,
       bookingCache st !! availabilityKey (aq_restaurantId q) (aq_date q)
       = Some cached →
       getAvailability st q = (json cached, st))
  ∧ (∀ rid name date dow h slots n db,
       (getAvailability st q).1
       = json (AvailabilityBody rid name date dow h slots n) →
       getAvailability (set_store db (getAvailability st q).2) q
       = (json (AvailabilityBody rid name date dow h slots n),
          set_store db (getAvailability st q).2))
  ∧ ((∀ rid name date dow h slots n,
        body (getAvailability st q).1
        ≠ AvailabilityBody rid name date dow h slots n) →
     (getAvailability st q).2 = st).
Proof.
  unfold getAvailability.
  destruct (bookingCache st !! availabilityKey (aq_restaurantId q) (aq_date q))
    as [cached|] eqn:Hcache.
  { simpl. repeat split; try done.
    - by intros ? [= <-].
    - intros rid name date dow h slots n db [= ->]. simpl. by rewrite Hcache. }
  repeat case_match; simpl; repeat split; try done;
    try (intros; discriminate); try (intros; by destruct e);
    try (intros rid name date dow h' slots n db Hr; by destruct e).
  - intros rid name date dow h' slots n db [= <- <- <- <- <- <- <-].
    by rewrite lookup_insert_eq.
  - intros Hno. by destruct (Hno _ _ _ _ _ _ _ eq_refl).
Qed.




(** X6. A booking is cancelled once: after a cancellation that was
    answered 200, a second cancellation of the same booking by the same
    customer is answered 400, already cancelled, and changes nothing. *)
Theorem cancelBooking_twice now later st customerId id r st' :
  uniqueBookingIds (store st) →
  cancelBooking now st customerId id = (r, st') →
  status r = 200 →
  cancelBooking later st' customerId id
  = (sendValidationError "Booking is already cancelled", st').
Proof.
  intros Hunique Hrun Hok. unfold cancelBooking in Hrun.
  destruct (findUserBookingById (store st) id customerId) as [e|b] eqn:Hfind.
  { simplify_eq. by destruct (handleBookingError_status e); destruct e. }
  pose proof Hfind as (Hin & Hid & Hcust & Hpop)%findUserBookingById_found.
  destruct (BookingStatus_eqb (bk_status (pb_doc b)) cancelled);
    [by simplify_eq|].
  destruct (isPast _ now); [by simplify_eq|].
  destruct (pb_restaurant b) as [ref|]; [|by simplify_eq].
  injection Hrun as _ <-.
  unfold cancelBooking, findUserBookingById. simpl.
  rewrite Hid.
  rewrite (find_by_saveStatus _ id cancelled); first last.
  { intros x [Hx _]%andb_true_iff. by apply String.eqb_eq in Hx. }
  { done. }
  { exact Hunique. }
  unfold findUserBookingById in Hfind.
  destruct (find_by _ (bookings (store st))) as [doc|]; [|done].
  done.
Qed.


(** X8. A booking that was answered 201 can be read back by the customer
    who made it: [getBookingById] answers the booking of the 201 answer,
    with the requested restaurant, date, time and guests and the status
    confirmed.  Any other customer is answered 404 for the same id. *)
Theorem created_booking_readable env st customerId b r st' effects :
  newId env ∉ map bk_id (bookings (store st)) →
  createBooking env st customerId b = (r, st', effects) →
  status r = 201 →
  (∃ view,
     body r = BookingBody (Some "Booking created successfully") view
     ∧ getBookingById st' customerId (newId env) = json (BookingBody None view)
     ∧ bv_id view = newId env ∧ bv_customerId view = customerId
     ∧ bv_restaurantId view = cb_restaurantId b
     ∧ bv_date view = cb_date b ∧ bv_time view = cb_time b
     ∧ bv_guests view = cb_guests b ∧ bv_status view = confirmed)
  ∧ ∀ other,
      other ≠ customerId →
      getBookingById st' other (newId env) = sendNotFoundError "Booking not found".
Proof.
  intros Hfresh Hrun Hok.
  destruct (createBooking_created _ _ _ _ _ _ _ Hrun Hok)
    as (c & seen & Hc & _ & _ & -> & ->).
  apply createBooking_check_cleared in Hc as (_ & Hr & _ & Hb & Hcust & _ & _).
  assert (∀ who,
            find_by (fun x => String.eqb (bk_id x) (newId env)
                              && String.eqb (bk_customerId x) who)
              (bookings (store st) ++ [newBooking env c])
            = if String.eqb customerId who then Some (newBooking env c)
              else None) as Hfind.
  { intros who. rewrite find_by_app, find_by_absent.
    - unfold find_by. simpl. rewrite Hcust. by rewrite String.eqb_refl.
    - intros x Hx. destruct (String.eqb_spec (bk_id x) (newId env)) as [Heq|];
        [|done].
      destruct Hfresh. rewrite <- Heq. apply elem_of_map. by exists x. }
  unfold findRestaurantById in Hr.
  destruct (find_by _ (restaurants (store st))) as [restaurant|] eqn:Hfound;
    [|done].
  injection Hr as Hrest.
  apply find_by_Some in Hfound as Hrid. destruct Hrid as [_ Hrid].
  apply String.eqb_eq in Hrid.
  split.
  - exists (bookingView (newBooking env c) (r_name (cl_restaurant c))).
    split; [done|].
    unfold getBookingById, findUserBookingById. simpl.
    rewrite Hfind, String.eqb_refl. simpl.
    unfold populateRestaurant. simpl. rewrite Hb, Hfound. simpl.
    rewrite Hrid, Hrest, Hcust. split; [|done].
    unfold bookingView, newBooking. simpl. by rewrite Hb, Hcust.
  - intros other Hother. unfold getBookingById, findUserBookingById. simpl.
    rewrite Hfind. destruct (String.eqb_spec customerId other); [congruence|].
    done.
Qed.

Lemma advance_appends t st :
  ∃ added,
    bookings (store (advance t st).2) = bookings (store st) ++ added
    ∧ Forall (fun nb => bk_status nb = confirmed) added
    ∧ restaurants (store (advance t st).2) = restaurants (store st)
    ∧ users (store (advance t st).2) = users (store st)
    ∧ ∀ r, t = Answered r → (advance t st).1 = Answered r.
Proof.
  destruct t as [env customerId b|env c|r]; simpl.
  - exists []. rewrite app_nil_r.
    by destruct (createBooking_check st customerId b) as [[?|?] ?].
  - unfold createBooking_insert.
    destruct (saveError env); [exists []; by rewrite app_nil_r|].
    destruct (commitError env); [exists []; by rewrite app_nil_r|].
    exists [newBooking env c]. simpl. repeat split; try done.
    by repeat constructor.
  - exists []. by rewrite app_nil_r.
Qed.

Lemma turn_appends sys i :
  ∃ added,
    bookings (store (sys_state (turn sys i)))
    = bookings (store (sys_state sys)) ++ added
    ∧ Forall (fun nb => bk_status nb = confirmed) added
    ∧ restaurants (store (sys_state (turn sys i)))
      = restaurants (store (sys_state sys))
    ∧ users (store (sys_state (turn sys i))) = users (store (sys_state sys))
    ∧ ∀ j r,
        sys_tasks sys !! j = Some (Answered r) →
        sys_tasks (turn sys i) !! j = Some (Answered r).
Proof.
  unfold turn. destruct (sys_tasks sys !! i) as [t|] eqn:Ht.
  - destruct (advance_appends t (sys_state sys))
      as (first & Hb1 & Hc1 & Hr1 & Hu1 & Ha1).
    destruct (advance t (sys_state sys)) as [t' st1] eqn:Hadv. simpl in *.
    exists first. repeat split; try done.
    intros j r Hj. destruct (decide (i = j)) as [->|Hne].
    + rewrite Hj in Ht. injection Ht as <-.
      rewrite (Ha1 r eq_refl). apply list_lookup_insert_eq.
      by eapply lookup_lt_Some.
    + by rewrite list_lookup_insert_ne.
  - exists []. by rewrite app_nil_r.
Qed.

(** X9. Under every schedule of the requests in flight the bookings
    collection only grows, at its end and by confirmed bookings: no
    interleaving of booking requests removes or rewrites a stored
    booking, or touches the restaurants and users.  A request that has
    been answered keeps its answer. *)
Theorem run_only_appends schedule sys :
  ∃ added,
    bookings (store (sys_state (run schedule sys)))
    = bookings (store (sys_state sys)) ++ added
    ∧ Forall (fun nb => bk_status nb = confirmed) added
    ∧ restaurants (store (sys_state (run schedule sys)))
      = restaurants (store (sys_state sys))
    ∧ users (store (sys_state (run schedule sys))) = users (store (sys_state sys))
    ∧ ∀ i r,
        sys_tasks sys !! i = Some (Answered r) →
        sys_tasks (run schedule sys) !! i = Some (Answered r).
Proof.
  revert sys. induction schedule as [|i schedule IH]; intros sys.
  { exists []. by rewrite app_nil_r. }
  change (run (i :: schedule) sys) with (run schedule (turn sys i)).
  destruct (IH (turn sys i)) as (later & Hb & Hc & Hr & Hu & Ha).
  destruct (turn_appends sys i) as (first & Hb1 & Hc1 & Hr1 & Hu1 & Ha1).
  exists (first ++ later).
  rewrite Hb, Hr, Hu, Hb1, Hr1, Hu1, app_assoc.
  repeat split; try done.
  - by apply Forall_app.
  - intros j r Hj. by apply Ha, Ha1.
Qed.

End BookingExtras.

Lemma createBooking_keeps_capacity_witness :
  capacityRespected
    (store (@createBooking exampleHelpers exampleRuntime (quiet "n1")
              (fresh fridayStore) "c1" (request "r1" "18:00" 4)).1.2).
Proof.
  apply (@createBooking_keeps_capacity exampleHelpers exampleRuntime).
  exact fridayStore_capacityRespected.
Defined.

Lemma createBooking_failed_write_witness :
  ∃ effects,
    @createBooking exampleHelpers exampleRuntime (commitFails "n1")
      (fresh fridayStore) "c1" (request "r1" "18:00" 4)
    = (sendError 500 "An unexpected error occurred", fresh fridayStore, effects)
    ∧ AbortTransaction ∈ effects
    ∧ CommitTransaction ∈ effects
    ∧ ∀ to id, SendEmail to id ∉ effects.
Proof.
  destruct (@createBooking_failed_write exampleHelpers exampleRuntime
              (commitFails "n1") (fresh fridayStore) "c1"
              (request "r1" "18:00" 4)
              {| cl_customerId := "c1"; cl_body := request "r1" "18:00" 4;
                 cl_restaurant := trattoria; cl_user := alice |}
              [Aggregate "r1" "2025-07-04" "18:00"] OtherError)
    as (effects & Hrun & _ & _ & Habort & _ & _ & Hcommit & Hmail & _).
  - reflexivity.
  - right. split; reflexivity.
  - exists effects. split; [exact Hrun|]. split; [exact Habort|].
    split; [apply Hcommit; reflexivity | exact Hmail].
Defined.

Lemma createBooking_refreshes_availability_witness :
  let st' :=
    (@createBooking exampleHelpers exampleRuntime (quiet "n1") warm "c1"
       (request "r1" "18:00" 4)).1.2 in
  is_Some (bookingCache warm !! availabilityKey "r1" "2025-07-04")
  ∧ Consistent st'
  ∧ bookingCache st' !! availabilityKey "r1" "2025-07-04" = None
  ∧ ∀ time,
      committedGuests (store st') "r1" "2025-07-04" time
      = committedGuests fridayStore "r1" "2025-07-04" time
        + (if decide (time = "18:00"%string) then 4 else 0).
Proof.
  split; [by eexists|].
  destruct (@createBooking_refreshes_availability exampleHelpers exampleRuntime
              (quiet "n1") warm "c1" (request "r1" "18:00" 4)
              (@createBooking exampleHelpers exampleRuntime (quiet "n1") warm
                 "c1" (request "r1" "18:00" 4)).1.1
              (@createBooking exampleHelpers exampleRuntime (quiet "n1") warm
                 "c1" (request "r1" "18:00" 4)).1.2
              (@createBooking exampleHelpers exampleRuntime (quiet "n1") warm
                 "c1" (request "r1" "18:00" 4)).2)
    as (Hcons & Hkey & _ & Hsum & _).
  - exact warm_consistent.
  - apply (bool_decide_unpack _). by vm_compute.
  - reflexivity.
  - reflexivity.
  - split; [exact Hcons|]. split; [exact Hkey | exact Hsum].
Defined.


Lemma cancelBooking_twice_witness :
  let st' := (@cancelBooking exampleRuntime 1000 (fresh fridayStore) "c1" "b1").2 in
  @cancelBooking exampleRuntime 1500 st' "c1" "b1"
  = (sendValidationError "Booking is already cancelled", st').
Proof.
  apply (@cancelBooking_twice exampleRuntime 1000 1500 (fresh fridayStore)
           "c1" "b1"
           (@cancelBooking exampleRuntime 1000 (fresh fridayStore) "c1" "b1").1).
  - apply (bool_decide_unpack _). by vm_compute.
  - reflexivity.
  - reflexivity.
Defined.


Lemma created_booking_readable_witness :
  let st' :=
    (@createBooking exampleHelpers exampleRuntime (quiet "n1")
       (fresh fridayStore) "c1" (request "r1" "18:00" 4)).1.2 in
  (∃ view,
     getBookingById st' "c1" "n1" = json (BookingBody None view)
     ∧ bv_guests view = 4 ∧ bv_status view = confirmed)
  ∧ getBookingById st' "c2" "n1" = sendNotFoundError "Booking not found".
Proof.
  destruct (@created_booking_readable exampleHelpers exampleRuntime
              (quiet "n1") (fresh fridayStore) "c1" (request "r1" "18:00" 4)
              (@createBooking exampleHelpers exampleRuntime (quiet "n1")
                 (fresh fridayStore) "c1" (request "r1" "18:00" 4)).1.1
              (@createBooking exampleHelpers exampleRuntime (quiet "n1")
                 (fresh fridayStore) "c1" (request "r1" "18:00" 4)).1.2
              (@createBooking exampleHelpers exampleRuntime (quiet "n1")
                 (fresh fridayStore) "c1" (request "r1" "18:00" 4)).2)
    as [(view & _ & Hread & _ & _ & _ & _ & _ & Hguests & Hstatus) Hother].
  - apply (bool_decide_unpack _). by vm_compute.
  - reflexivity.
  - reflexivity.
  - split; [by exists view | by apply Hother].
Defined.

(** ** Further properties of the restaurant controller *)

Lemma deactivate_idemp r : deactivate (deactivate r) = deactivate r.
Proof. done. Qed.


Lemma cursorWindow_length {A} skip n (l w : list A) :
  0 < n → cursorWindow skip (Some n) l = Some w → Z.of_nat (length w) <= n.
Proof.
  intros Hn. unfold cursorWindow. destruct skip as [s|]; [|done].
  destruct (0 <=? s); [|done]. intros [= <-].
  destruct (Z.eqb_spec n 0); [lia|].
  rewrite length_take. lia.
Qed.

Lemma window_length {A} skip n (l w : list A) :
  window skip (Some n) l = Some w → Z.of_nat (length w) <= n.
Proof.
  unfold window. destruct skip as [s|]; [|done].
  destruct (_ && _) eqn:Hok; [|done]. intros [= <-].
  apply andb_true_iff in Hok as [_ Hn%Z.ltb_lt].
  rewrite length_take. lia.
Qed.

(** A branch that answers 400 before the store is read. *)
Ltac rejected :=
  simpl; split; [by right; left|];
  split; [intros Hne; by destruct Hne | by intros].

Section RestaurantExtras.
Context `{!JsRuntime} `{!RestaurantRuntime}.



(** X12. A page is never longer than its limit: when the limit of the
    query is a positive number, a listing answered by
    [getNearbyRestaurants] or computed by [getRestaurants] holds at most
    that many restaurants, and the pagination object repeats the
    limit. *)
Theorem listing_page_bound geoFails st q n :
  parseInt (default "10" (qp_limit q)) = Some n →
  0 < n →
  (∀ listed pagination,
     getNearbyRestaurants geoFails st q = json (ListingBody listed pagination) →
     Z.of_nat (length listed) <= n ∧ pg_limit pagination = Some n)
  ∧ (∀ listed pagination,
       (defaultBrowse q = true → restaurantCache st !! stringifyQuery q = None) →
       (getRestaurants geoFails st q).1 = json (ListingBody listed pagination) →
       Z.of_nat (length listed) <= n ∧ pg_limit pagination = Some n).
Proof.
  intros Hlimit Hn. split.
  - intros listed pagination Hrun.
    assert (pg_limit pagination = Some n) as Hpg.
    { unfold getNearbyRestaurants in Hrun. rewrite Hlimit in Hrun.
      repeat case_match; try discriminate; by simplify_eq. }
    split; [|done].
    apply nearby_listing in Hrun
      as (lat & lng & radiusKm & _ & _ & _ & [(total & Hgeo)|(_ & total & Hfb)]).
    + unfold nearbyGeoQuery in Hgeo. rewrite Hlimit in Hgeo.
      destruct geoFails; [done|].
      destruct (window _ _ _) as [w|] eqn:Hw; [|done].
      injection Hgeo as <- _. by eapply window_length.
    + unfold nearbyFallback in Hfb. rewrite Hlimit in Hfb.
      destruct (castsFilter q); [|done].
      destruct (cursorWindow _ _ _) as [w|] eqn:Hw; [|done].
      injection Hfb as <- _. rewrite length_map.
      by eapply cursorWindow_length.
  - intros listed pagination Hmiss Hrun. unfold getRestaurants in Hrun.
    destruct (defaultBrowse q) eqn:Hdefault.
    + rewrite Hmiss in Hrun by done.
      destruct (queryRestaurants geoFails (store st) q) as [[early|response]|]
        eqn:Hquery; simpl in Hrun; [| |done].
      { apply queryRestaurants_early in Hquery. by subst early. }
      injection Hrun as ->. revert Hquery. clear Hmiss.
      unfold queryRestaurants. rewrite Hlimit.
      repeat case_match; intros; simplify_eq; simpl;
        (split; [|done]); rewrite ?length_map;
        first [ by eapply window_length | by eapply cursorWindow_length ].
    + destruct (queryRestaurants geoFails (store st) q) as [[early|response]|]
        eqn:Hquery; simpl in Hrun; [| |done].
      { apply queryRestaurants_early in Hquery. by subst early. }
      injection Hrun as ->. revert Hquery. clear Hmiss.
      unfold queryRestaurants. rewrite Hlimit.
      repeat case_match; intros; simplify_eq; simpl;
        (split; [|done]); rewrite ?length_map;
        first [ by eapply window_length | by eapply cursorWindow_length ].
Qed.

(** X13. The total of the pagination object depends on the path.  On the
    text path it is the number of matching restaurants, the same on
    every page.  On the geospatial path of [getRestaurants] the count
    pipeline keeps the skip stage, so the total is what is left from the
    requested page on: the total of page 1 less the restaurants of the
    pages before. *)
Theorem listing_total_by_path geoFails db q one p n listed pagination
    first firstPage :
  parseInt one = Some 1 →
  parseInt (default "1" (qp_page q)) = Some p →
  parseInt (default "10" (qp_limit q)) = Some n →
  queryRestaurants geoFails db q = Some (inr (ListingBody listed pagination)) →
  queryRestaurants geoFails db (withPage (Some one) q)
  = Some (inr (ListingBody first firstPage)) →
  if given (qp_latitude q) && given (qp_longitude q)
  then pg_total pagination = Z.max 0 (pg_total firstPage - (p - 1) * n)
  else pg_total pagination = pg_total firstPage.
Proof.
  intros Hone Hp Hn. unfold queryRestaurants. simpl.
  rewrite Hone, Hp, Hn. simpl.
  destruct (given (qp_latitude q) && given (qp_longitude q)).
  - destruct (parseFloat (default "" (qp_latitude q))) as [lat|]; [|done].
    destruct (parseFloat (default "" (qp_longitude q))) as [lng|]; [|done].
    destruct (parseFloat (default "10" (qp_radius q))) as [radiusInKm|];
      [|done].
    destruct geoFails; [done|].
    match goal with
    | |- context [drop _ ?l] => generalize l; intros sorted
    end.
    generalize ((p - 1) * n). intros s.
    destruct (Z.leb_spec 0 s) as [Hskip|]; simpl; [|done].
    destruct (0 <? n); simpl; [|done].
    replace ((1 - 1) * n) with 0 by lia. simpl.
    intros [= _ <-] [= _ <-]. simpl.
    rewrite !length_drop. change (Z.to_nat 0) with 0%nat. lia.
  - repeat case_match; try done; by intros [= _ <-] [= _ <-].
Qed.

(** X14. [getNearbyRestaurants] answers 200, 400 or 500.  Whatever is not
    answered 400 came with a latitude, a longitude and a radius that are
    numbers, the latitude within -90..90, the longitude within -180..180
    and the radius positive; and a 400 is decided on the query alone, so
    it is the answer whatever the store holds. *)
Theorem nearby_validation geoFails st q :
  (status (getNearbyRestaurants geoFails st q) = 200
   ∨ status (getNearbyRestaurants geoFails st q) = 400
   ∨ status (getNearbyRestaurants geoFails st q) = 500)
  ∧ (status (getNearbyRestaurants geoFails st q) ≠ 400 →
     ∃ lat lng radiusKm,
       given (qp_latitude q) = true ∧ given (qp_longitude q) = true
       ∧ parseFloat (default "" (qp_latitude q)) = Some lat
       ∧ parseFloat (default "" (qp_longitude q)) = Some lng
       ∧ parseFloat (default "5" (qp_radius q)) = Some radiusKm
       ∧ (-90 <= lat)%Q ∧ (lat <= 90)%Q
       ∧ (-180 <= lng)%Q ∧ (lng <= 180)%Q
       ∧ (0 < radiusKm)%Q)
  ∧ (status (getNearbyRestaurants geoFails st q) = 400 →
     ∀ geoFails' st',
       getNearbyRestaurants geoFails' st' q = getNearbyRestaurants geoFails st q).
Proof.
  unfold getNearbyRestaurants.
  destruct (given (qp_latitude q)); simpl; [|rejected].
  destruct (given (qp_longitude q)); simpl; [|rejected].
  destruct (parseFloat (default "" (qp_latitude q))) as [lat|]; [|rejected].
  destruct (parseFloat (default "" (qp_longitude q))) as [lng|]; [|rejected].
  destruct (parseFloat (default "5" (qp_radius q))) as [radiusKm|]; [|rejected].
  unfold Qlt_bool.
  destruct (Qle_bool (-90) lat) eqn:Hlat1; simpl; [|rejected].
  destruct (Qle_bool lat 90) eqn:Hlat2; simpl; [|rejected].
  destruct (Qle_bool (-180) lng) eqn:Hlng1; simpl; [|rejected].
  destruct (Qle_bool lng 180) eqn:Hlng2; simpl; [|rejected].
  destruct (Qle_bool radiusKm 0) eqn:Hradius; simpl; [rejected|].
  apply Qle_bool_iff in Hlat1, Hlat2, Hlng1, Hlng2.
  assert (0 < radiusKm)%Q as Hpos.
  { apply Qnot_le_lt. intros Hle. apply Qle_bool_iff in Hle. congruence. }
  split; [|split].
  - destruct (match nearbyGeoQuery _ _ _ _ _ _ with
              | Some answer => Some answer
              | None => nearbyFallback (store st) q
              end) as [[? ?]|]; simpl; auto.
  - intros _. exists lat, lng, radiusKm. done.
  - destruct (match nearbyGeoQuery _ _ _ _ _ _ with
              | Some answer => Some answer
              | None => nearbyFallback (store st) q
              end) as [[? ?]|]; simpl; discriminate.
Qed.

(** X15. [getRestaurantById] reads through its cache.  It never changes
    the store or the booking cache, and an answer other than 200 leaves
    the whole state as it was (errors are not cached).  After a 200 the
    restaurant is in the cache under its key, and the same request is
    answered from the cache, marked as cached, whatever the store holds
    by then. *)
Theorem getRestaurantById_read_through st id :
  let out := getRestaurantById st id in
  store out.2 = store st
  ∧ bookingCache out.2 = bookingCache st
  ∧ (status out.1 ≠ 200 → out.2 = st)
  ∧ (status out.1 = 200 →
     ∃ cached,
       restaurantCache out.2 !! restaurantKey id = Some cached
       ∧ (body out.1 = cached ∨ body out.1 = Cached cached)
       ∧ ∀ db,
           getRestaurantById (set_store db out.2) id
           = (json (Cached cached), set_store db out.2)).
Proof.
  unfold getRestaurantById.
  destruct (restaurantCache st !! restaurantKey id) as [cached|] eqn:Hcache.
  { simpl. repeat split; try done. intros _. exists cached.
    split; [done|]. split; [by right|]. intros db. simpl. by rewrite Hcache. }
  destruct (findById (store st) id) as [e|[r|]]; simpl.
  - destruct e; simpl; repeat split; done.
  - destruct (r_isActive r); simpl; [|repeat split; done].
    repeat split; try done. intros _. eexists.
    split; [apply lookup_insert_eq|]. split; [by left|].
    intros db. simpl. by rewrite lookup_insert_eq.
  - repeat split; done.
Qed.

(** X16. The cache policy of [getRestaurants].  A query with a filter or
    with coordinates neither reads nor fills the cache: its answer does
    not depend on the cache and the state stays as it was.  A default
    browse that was answered 200 is in the cache afterwards under the
    serialised query, and the same query is answered from the cache,
    marked as cached, whatever the store holds by then.  No answer
    changes the store, and an answer other than 200 changes nothing. *)
Theorem getRestaurants_cache_policy geoFails st q :
  let out := getRestaurants geoFails st q in
  store out.2 = store st
  ∧ bookingCache out.2 = bookingCache st
  ∧ (status out.1 ≠ 200 → out.2 = st)
  ∧ (defaultBrowse q = false →
     out.2 = st
     ∧ ∀ c,
         getRestaurants geoFails (set_restaurantCache c st) q
         = (out.1, set_restaurantCache c st))
  ∧ (defaultBrowse q = true → status out.1 = 200 →
     ∃ cached,
       restaurantCache out.2 !! stringifyQuery q = Some cached
       ∧ (body out.1 = cached ∨ body out.1 = Cached cached)
       ∧ ∀ db fails,
           getRestaurants fails (set_store db out.2) q
           = (json (Cached cached), set_store db out.2)).
Proof.
  unfold getRestaurants.
  destruct (defaultBrowse q) eqn:Hdefault.
  - destruct (restaurantCache st !! stringifyQuery q) as [cached|] eqn:Hcache.
    { simpl. repeat split; try done. intros _ _. exists cached.
      split; [done|]. split; [by right|]. intros db fails. simpl.
      by rewrite Hcache. }
    destruct (queryRestaurants geoFails (store st) q) as [[early|response]|]
      eqn:Hquery; simpl.
    + apply queryRestaurants_early in Hquery.
      repeat split; try done. intros _ Hok. congruence.
    + repeat split; try done. intros _ _. exists response.
      split; [apply lookup_insert_eq|]. split; [by left|].
      intros db fails. simpl. by rewrite lookup_insert_eq.
    + repeat split; done.
  - simpl.
    destruct (queryRestaurants geoFails (store st) q) as [[early|response]|];
      simpl; repeat split; done.
Qed.

End RestaurantExtras.


Lemma listing_page_bound_witness :
  ∃ listed pagination,
    @getNearbyRestaurants exampleRuntime exampleRestaurantRuntime false
      (fresh fridayStore) secondNearHalifax
    = json (ListingBody listed pagination)
    ∧ map (fun l => r_name (lr_doc l)) listed = ["Bistro"]%string
    ∧ Z.of_nat (length listed) <= 1 ∧ pg_limit pagination = Some 1.
Proof.
  eexists _, _. split; [reflexivity|]. split; [reflexivity|].
  apply (proj1 (@listing_page_bound exampleRuntime exampleRestaurantRuntime
                  false (fresh fridayStore) secondNearHalifax 1
                  eq_refl eq_refl)).
  reflexivity.
Defined.

Lemma listing_total_by_path_witness :
  ∃ listed pagination first firstPage,
    @queryRestaurants exampleRuntime exampleRestaurantRuntime false fridayStore
      secondNearHalifax
    = Some (inr (ListingBody listed pagination))
    ∧ @queryRestaurants exampleRuntime exampleRestaurantRuntime false fridayStore
        (withPage (Some "1"%string) secondNearHalifax)
      = Some (inr (ListingBody first firstPage))
    ∧ pg_total firstPage = 2
    ∧ pg_total pagination = Z.max 0 (pg_total firstPage - (2 - 1) * 1).
Proof.
  eexists _, _, _, _. split; [reflexivity|]. split; [reflexivity|].
  split; [reflexivity|].
  exact (@listing_total_by_path exampleRuntime exampleRestaurantRuntime false
           fridayStore secondNearHalifax "1" 2 1 _ _ _ _
           eq_refl eq_refl eq_refl eq_refl eq_refl).
Defined.

(** ** Favourites *)






Lemma deleteOne_absent id favs :
  id ∉ map fav_id favs → deleteOne id favs = favs.
Proof.
  induction favs as [|y favs IH]; simpl; intros Hid; [done|].
  apply not_elem_of_cons in Hid as [Hne Hid].
  destruct (String.eqb_spec (fav_id y) id); [congruence|]. by rewrite IH.
Qed.








Lemma StronglySorted_weaken {A} (R S : A → A → Prop) l :
  (∀ a b, R a b → S a b) → StronglySorted R l → StronglySorted S l.
Proof.
  intros HRS. induction 1 as [|x l Hl IH Hx]; constructor; [done|].
  eapply Forall_impl; [exact Hx|]. intros y. apply HRS.
Qed.

Lemma insertBy_Permutation {A} (leb : A → A → bool) x l :
  Permutation (insertBy leb x l) (x :: l).
Proof.
  induction l as [|y l IH]; simpl; [done|].
  destruct (leb x y); [done|]. rewrite IH. apply Permutation_swap.
Qed.

(** Sorting rearranges: nothing is lost and nothing is listed twice. *)
Lemma sortBy_Permutation {A} (leb : A → A → bool) l :
  Permutation (sortBy leb l) l.
Proof.
  unfold sortBy. induction l as [|x l IH]; simpl; [done|].
  by rewrite insertBy_Permutation, IH.
Qed.

Section FavoriteProperties.
Context `{!RestaurantRuntime}.




(** X19. Who may use the favourites and on what.  The three handlers
    answer 403 to every role but customer.  [toggleFavorite] answers 200,
    201, 403, 404 or 500, changes the collection only with a 200 or a
    201, and answers a customer 404 exactly when the id names no stored
    restaurant or an inactive one. *)
Theorem favorites_refusals env db favs user restaurantId :
  let out := toggleFavorite env db favs user restaurantId in
  (au_role user ≠ "customer"%string →
   rp_status out.1 = 403
   ∧ rp_status (getFavorites db favs user) = 403
   ∧ rp_status (checkFavoriteStatus favs user restaurantId) = 403)
  ∧ (rp_status out.1 = 200 ∨ rp_status out.1 = 201 ∨ rp_status out.1 = 403
     ∨ rp_status out.1 = 404 ∨ rp_status out.1 = 500)
  ∧ (rp_status out.1 ≠ 200 → rp_status out.1 ≠ 201 → out.2 = favs)
  ∧ (au_role user = "customer"%string →
     (rp_status out.1 = 404 ↔
      findById db restaurantId = inr None
      ∨ ∃ r, findById db restaurantId = inr (Some r) ∧ r_isActive r = false)).
Proof.
  unfold toggleFavorite, getFavorites, checkFavoriteStatus.
  destruct (String.eqb_spec (au_role user) "customer") as [Hrole|Hrole]; simpl.
  - split; [done|].
    destruct (findById db restaurantId) as [e|[r|]] eqn:Hfind; simpl.
    + repeat split; try done; try tauto.
      intros [?|(r & ? & _)]; discriminate.
    + destruct (r_isActive r) eqn:Hactive; simpl.
      * destruct (findFavorite favs (au_id user) restaurantId); simpl;
          (split; [tauto|]); (split; [done|]); intros _;
          (split; [done|]); intros [?|(r' & [= <-] & ?)]; congruence.
      * split; [tauto|]. split; [done|]. intros _.
        split; [|done]. intros _. right. by exists r.
    + split; [tauto|]. split; [done|]. intros _. split; [|done]. by left.
  - split; [done|]. split; [tauto|]. split; [done|]. done.
Qed.

(** X20. A favourite outlives its restaurant.  After a deletion that was
    answered 200, toggling the deleted restaurant is answered 404 and
    changes nothing, so a customer who had it as a favourite can no
    longer remove it; [getFavorites] answers what it answered before the
    deletion, the deleted restaurant included. *)
Theorem favorite_of_deleted_restaurant env st favs user ownerId restaurantId :
  au_role user = "customer"%string →
  status (deleteRestaurant st ownerId restaurantId).1 = 200 →
  let st' := (deleteRestaurant st ownerId restaurantId).2 in
  toggleFavorite env (store st') favs user restaurantId
  = (favoriteError 404 "Restaurant not found or not active", favs)
  ∧ ∀ who, getFavorites (store st') favs who = getFavorites (store st) favs who.
Proof.
  intros Hrole. unfold deleteRestaurant, findById.
  destruct (validObjectId restaurantId) eqn:Hvalid; [|done].
  destruct (find_by _ (restaurants (store st))) as [r|] eqn:Hfind; [|done].
  destruct (String.eqb_spec (r_ownerId r) ownerId) as [Heq|Hne]; [|done].
  simpl. intros _.
  apply find_by_Some in Hfind as Hid. destruct Hid as [_ Hid].
  apply String.eqb_eq in Hid. split.
  - unfold toggleFavorite, findById. simpl.
    rewrite Hrole, Hvalid, find_by_saveInactive, Hfind. simpl.
    rewrite Hid, String.eqb_refl. reflexivity.
  - intros who. unfold getFavorites. destruct (negb _); [done|].
    do 2 f_equal. apply map_ext. intros f. unfold populateFavorite. simpl.
    rewrite find_by_saveInactive.
    destruct (find_by (fun r0 => String.eqb (r_id r0) (fav_restaurantId f)) _)
      as [x|]; [|done].
    simpl. by destruct (String.eqb (r_id x) (r_id r)).
Qed.

(** X21. [getFavorites] answers a customer the favourites of that
    customer and no others, as many as the collection holds for that
    customer, the most recently created first; a restaurant that comes
    populated is the stored restaurant the favourite refers to. *)
Theorem getFavorites_lists_own db favs user :
  au_role user = "customer"%string →
  ∃ listed,
    getFavorites db favs user
    = {| rp_status := 200; rp_body := FavoritesBody listed |}
    ∧ (∀ f, f ∈ map pf_doc listed ↔ f ∈ favs ∧ fav_userId f = au_id user)
    ∧ length listed
      = length (List.filter (fun f => String.eqb (fav_userId f) (au_id user)) favs)
    ∧ StronglySorted (fun a b => fav_createdAt b <= fav_createdAt a)
        (map pf_doc listed)
    ∧ Forall (fun p =>
                ∀ r, pf_restaurant p = Some r →
                     frs_id r = fav_restaurantId (pf_doc p)
                     ∧ ∃ doc, doc ∈ restaurants db ∧ r_id doc = frs_id r
                              ∧ r_name doc = frs_name r) listed.
Proof.
  intros Hrole. unfold getFavorites. rewrite Hrole. simpl.
  eexists. split; [done|].
  assert (∀ l, map pf_doc (map (populateFavorite db) l) = l) as Hdocs.
  { intros l. rewrite map_map. simpl. apply map_id. }
  rewrite Hdocs, length_map.
  split; [|split; [|split]].
  - intros f. rewrite elem_of_sortBy, elem_of_List_filter.
    by rewrite String.eqb_eq.
  - generalize (List.filter (fun f => String.eqb (fav_userId f) (au_id user)) favs).
    intros l. apply Permutation_length, sortBy_Permutation.
  - eapply StronglySorted_weaken; [|apply sortBy_sorted].
    + intros a b Hab. simpl in Hab. by apply Z.leb_le.
    + intros a b. destruct (Z.leb_spec (fav_createdAt b) (fav_createdAt a));
        [by left | right; apply Z.leb_le; lia].
    + intros a b c Hab%Z.leb_le Hbc%Z.leb_le. apply Z.leb_le. lia.
  - apply Forall_forall. intros p (f & -> & _)%elem_of_map r.
    unfold populateFavorite. simpl.
    destruct (find_by _ (restaurants db)) as [doc|] eqn:Hdoc; [|done].
    intros [= <-]. simpl. apply find_by_Some in Hdoc as [Hin Hid].
    apply String.eqb_eq in Hid. split; [done|]. by exists doc.
Qed.

End FavoriteProperties.




Lemma favorite_of_deleted_restaurant_witness :
  let st' :=
    (@deleteRestaurant exampleRestaurantRuntime (fresh fridayStore) "o1" "r1").2 in
  is_Some (findFavorite favourites "c1" "r1")
  ∧ @toggleFavorite exampleRestaurantRuntime {| fe_newId := "f9"; fe_now := 40 |}
      (store st') favourites aliceAuth "r1"
    = (favoriteError 404 "Restaurant not found or not active", favourites)
  ∧ getFavorites (store st') favourites aliceAuth
    = getFavorites fridayStore favourites aliceAuth.
Proof.
  split; [by eexists|].
  destruct (@favorite_of_deleted_restaurant exampleRestaurantRuntime
              {| fe_newId := "f9"; fe_now := 40 |} (fresh fridayStore)
              favourites aliceAuth "o1" "r1")
    as [Htoggle Hlist].
  - reflexivity.
  - reflexivity.
  - split; [exact Htoggle | exact (Hlist aliceAuth)].
Defined.

Lemma getFavorites_lists_own_witness :
  ∃ listed,
    getFavorites fridayStore favourites aliceAuth
    = {| rp_status := 200; rp_body := FavoritesBody listed |}
    ∧ map (fun p => fav_id (pf_doc p)) listed = ["f3"; "f1"]%string
    ∧ ∀ f, f ∈ map pf_doc listed ↔ f ∈ favourites ∧ fav_userId f = "c1"%string.
Proof.
  destruct (getFavorites_lists_own fridayStore favourites aliceAuth)
    as (listed & Hrun & Hown & _).
  - reflexivity.
  - exists listed. split; [exact Hrun|]. split; [|exact Hown].
    injection Hrun as <-. reflexivity.
Defined.

(** ** The owner's views *)

Lemma List_filter_map {A B} (g : A → B) (q : B → bool) l :
  List.filter q (map g l) = map g (List.filter (fun x => q (g x)) l).
Proof.
  induction l as [|x l IH]; simpl; [done|].
  destruct (q (g x)); simpl; by rewrite IH.
Qed.

Lemma List_filter_all {A} (q : A → bool) l :
  (∀ x, x ∈ l → q x = true) → List.filter q l = l.
Proof.
  intros Hl. apply List.forallb_filter_id, forallb_forall.
  intros x Hx%list_elem_of_In. by apply Hl.
Qed.

Section SortedFilter.
Context {A : Type} (leb : A → A → bool) (q : A → bool).
Hypothesis leb_trans : ∀ a b c, leb a b = true → leb b c = true → leb a c = true.

Lemma insertBy_head x l :
  Forall (fun y => leb x y = true) l → insertBy leb x l = x :: l.
Proof. intros Hl. destruct l as [|y l]; simpl; [done|]. inversion Hl; subst. by rewrite H1. Qed.

Lemma filter_insertBy x l :
  StronglySorted (fun a b => leb a b = true) l →
  List.filter q (insertBy leb x l)
  = if q x then insertBy leb x (List.filter q l) else List.filter q l.
Proof.
  induction 1 as [|y l Hl IH Hy]; simpl.
  { by destruct (q x). }
  destruct (leb x y) eqn:Hxy; simpl.
  - destruct (q x) eqn:Hqx; [|done].
    destruct (q y) eqn:Hqy; simpl; [by rewrite Hxy|].
    symmetry. apply insertBy_head.
    apply Forall_forall. intros z [Hz _]%elem_of_List_filter.
    rewrite Forall_forall in Hy. eapply leb_trans; [exact Hxy | by apply Hy].
  - rewrite IH. destruct (q y) eqn:Hqy; simpl; [|done].
    destruct (q x); [|done]. by rewrite Hxy.
Qed.

End SortedFilter.

(** Selecting from a sorted list and sorting the selection give the same
    list. *)
Lemma filter_sortBy {A} (leb : A → A → bool) (q : A → bool) l :
  (∀ a b, leb a b = true ∨ leb b a = true) →
  (∀ a b c, leb a b = true → leb b c = true → leb a c = true) →
  List.filter q (sortBy leb l) = sortBy leb (List.filter q l).
Proof.
  intros Htotal Htrans. induction l as [|x l IH]; simpl; [done|].
  rewrite filter_insertBy by (done || by apply sortBy_sorted).
  destruct (q x); simpl; by rewrite IH.
Qed.

Lemma newestFirst_total `{!Timestamps} {A} (id : A → string) a b :
  newestFirst id a b = true ∨ newestFirst id b a = true.
Proof.
  unfold newestFirst.
  destruct (Z.leb_spec (createdAt (id b)) (createdAt (id a)));
    [by left | right; apply Z.leb_le; lia].
Qed.

Lemma newestFirst_trans `{!Timestamps} {A} (id : A → string) a b c :
  newestFirst id a b = true → newestFirst id b c = true →
  newestFirst id a c = true.
Proof. unfold newestFirst. rewrite !Z.leb_le. lia. Qed.

(** The owner's active restaurants after a soft delete, with unique ids. *)
Lemma filter_saveInactive (p : Restaurant → bool) id rs :
  NoDup (map r_id rs) →
  (∀ r, p (deactivate r) = p r) →
  List.filter (fun r => p r && r_isActive r) (saveInactive id rs)
  = List.filter (fun r => negb (String.eqb (r_id r) id))
      (List.filter (fun r => p r && r_isActive r) rs).
Proof.
  intros Hnd Hp. induction rs as [|y rs IH]; simpl; [done|].
  apply NoDup_cons in Hnd as [Hy Hnd].
  destruct (String.eqb_spec (r_id y) id) as [Heq|Hne]; simpl.
  - rewrite andb_false_r.
    assert (List.filter (fun r => negb (String.eqb (r_id r) id))
              (List.filter (fun r => p r && r_isActive r) rs)
            = List.filter (fun r => p r && r_isActive r) rs) as Hrest.
    { apply List_filter_all. intros x [Hx _]%elem_of_List_filter.
      destruct (String.eqb_spec (r_id x) id) as [Hxid|]; [|done].
      destruct Hy. rewrite Heq, <- Hxid. apply elem_of_map. by exists x. }
    destruct (p y && r_isActive y); simpl; [|done].
    by rewrite (proj2 (String.eqb_eq _ _) Heq).
  - destruct (p y && r_isActive y); simpl; [|by apply IH].
    rewrite (proj2 (String.eqb_neq _ _) Hne). simpl. by rewrite IH.
Qed.

Lemma sumRatings_bounds lo hi (vs : list Review) :
  (∀ v, v ∈ vs → lo <= rv_rating v <= hi) →
  lo * Z.of_nat (length vs)
  <= foldr (fun v acc => rv_rating v + acc) 0 vs
  <= hi * Z.of_nat (length vs).
Proof.
  induction vs as [|v vs IH]; intros Hvs; [simpl; lia|].
  assert (lo <= rv_rating v <= hi) by (apply Hvs, elem_of_cons; by left).
  assert (∀ x, x ∈ vs → lo <= rv_rating x <= hi) as Hrest
    by (intros x Hx; apply Hvs, elem_of_cons; by right).
  specialize (IH Hrest). simpl foldr. rewrite length_cons. lia.
Qed.

(** The average of ratings within bounds is within the bounds. *)
Lemma avgRating_bounds lo hi vs a :
  (∀ v, v ∈ vs → lo <= rv_rating v <= hi) →
  avgRating vs = Some a →
  (inject_Z lo <= a)%Q ∧ (a <= inject_Z hi)%Q.
Proof.
  intros Hvs. unfold avgRating. destruct vs as [|v vs]; [done|].
  intros [= <-]. pose proof (sumRatings_bounds lo hi (v :: vs) Hvs) as [Hlo Hhi].
  set (sum := foldr _ 0 (v :: vs)) in *.
  set (count := Z.of_nat (length (v :: vs))) in *.
  assert (0 < count) as Hcount by (subst count; rewrite length_cons; lia).
  assert (0 < inject_Z count)%Q as Hq
    by (change 0%Q with (inject_Z 0); by rewrite <- Zlt_Qlt).
  split.
  - apply Qle_shift_div_l; [done|]. rewrite <- inject_Z_mult.
    by rewrite <- Zle_Qle.
  - apply Qle_shift_div_r; [done|]. rewrite <- inject_Z_mult.
    by rewrite <- Zle_Qle.
Qed.

Lemma countWhere_nonneg {A} (p : A → bool) l : 0 <= countWhere p l.
Proof. unfold countWhere. lia. Qed.

Lemma countWhere_mono {A} (p q : A → bool) l :
  (∀ x, p x = true → q x = true) → countWhere p l <= countWhere q l.
Proof.
  intros Hpq. unfold countWhere. apply inj_le.
  induction l as [|x l IH]; simpl; [done|].
  destruct (p x) eqn:Hp.
  - rewrite (Hpq x Hp). simpl. lia.
  - destruct (q x); simpl; lia.
Qed.

Section OwnerProperties.
Context `{!JsRuntime} `{!RestaurantRuntime} `{!Timestamps}.

(** X22. [getMyRestaurants] lists the restaurants of the requesting owner
    that are active and no others, as many as the collection holds, the
    most recently created first, each with its owner populated and no
    distance; the total is the length of the list. *)
Theorem getMyRestaurants_lists_own st ownerId :
  validObjectId ownerId = true →
  ∃ listed,
    getMyRestaurants st ownerId
    = {| rp_status := 200;
         rp_body := MyRestaurantsBody listed (Z.of_nat (length listed)) |}
    ∧ (∀ r, r ∈ map lr_doc listed ↔
            r ∈ restaurants (store st) ∧ r_ownerId r = ownerId
            ∧ r_isActive r = true)
    ∧ Permutation (map lr_doc listed)
        (List.filter (fun r => String.eqb (r_ownerId r) ownerId && r_isActive r)
           (restaurants (store st)))
    ∧ StronglySorted (fun a b => createdAt (r_id b) <= createdAt (r_id a))
        (map lr_doc listed)
    ∧ Forall (fun l => lr_owner l = ownerOf (store st) (lr_doc l)
                       ∧ lr_distance l = None) listed.
Proof.
  intros Hvalid. unfold getMyRestaurants. rewrite Hvalid.
  eexists. split; [reflexivity|].
  set (mine := List.filter _ (restaurants (store st))).
  set (listed := sortBy _ _).
  assert (Permutation (map lr_doc listed) mine) as Hperm.
  { subst listed. rewrite sortBy_Permutation, !map_map. simpl.
    by rewrite map_id. }
  split; [|split; [done|split]].
  - intros r. rewrite Hperm. subst mine. rewrite elem_of_List_filter.
    rewrite andb_true_iff, String.eqb_eq. tauto.
  - assert (StronglySorted
              (fun a b => newestFirst (fun l => r_id (lr_doc l)) a b = true)
              listed) as Hsorted.
    { apply sortBy_sorted; [apply newestFirst_total | apply newestFirst_trans]. }
    clearbody listed. clear Hperm.
    induction Hsorted as [|l ls Hls IH Hl]; simpl; constructor; [done|].
    apply Forall_forall. intros r (x & -> & Hx)%elem_of_map.
    rewrite Forall_forall in Hl. apply Hl in Hx. by apply Z.leb_le in Hx.
  - apply Forall_forall. intros l Hl. subst listed.
    apply elem_of_sortBy in Hl. apply elem_of_map in Hl as (x & -> & Hx).
    by apply elem_of_map in Hx as (r & -> & _).
Qed.

(** X23. The owner's list follows a deletion at once.  With unique
    restaurant ids, after a deletion that was answered 200 every owner's
    list is the list before the deletion without the deleted restaurant:
    the list is never served from a cache. *)
Theorem getMyRestaurants_after_delete st ownerId restaurantId who listed total :
  NoDup (map r_id (restaurants (store st))) →
  status (deleteRestaurant st ownerId restaurantId).1 = 200 →
  getMyRestaurants st who
  = {| rp_status := 200; rp_body := MyRestaurantsBody listed total |} →
  let remaining :=
    List.filter (fun l => negb (String.eqb (r_id (lr_doc l)) restaurantId))
      listed in
  getMyRestaurants (deleteRestaurant st ownerId restaurantId).2 who
  = {| rp_status := 200;
       rp_body := MyRestaurantsBody remaining (Z.of_nat (length remaining)) |}.
Proof.
  intros Hnd. unfold deleteRestaurant, findById.
  destruct (validObjectId restaurantId) eqn:Hvalid; [|done].
  destruct (find_by _ (restaurants (store st))) as [r|] eqn:Hfind; [|done].
  destruct (String.eqb_spec (r_ownerId r) ownerId) as [Heq|Hne]; [|done].
  simpl. intros _.
  apply find_by_Some in Hfind as Hid. destruct Hid as [_ Hid].
  apply String.eqb_eq in Hid. rewrite Hid.
  unfold getMyRestaurants. destruct (validObjectId who); [|done]. simpl.
  intros [= <- _].
  rewrite (filter_saveInactive (fun r => String.eqb (r_ownerId r) who)) by done.
  rewrite filter_sortBy
    by (intros; apply newestFirst_total || eapply newestFirst_trans; done).
  rewrite !List_filter_map. simpl. done.
Qed.

(** X24. [getRestaurantBookings] is the owner's view of one restaurant.
    A 200 is answered only to the owner of the stored restaurant, active
    or not.  The bookings listed are stored bookings of that restaurant
    that match the status and date of the query, the most recently
    created first, each with its customer populated; the total is their
    number, and a limit other than 0 bounds it. *)
Theorem getRestaurantBookings_owner_view st ownerId restaurantId q
    rid name listed total :
  getRestaurantBookings st ownerId restaurantId q
  = {| rp_status := 200;
       rp_body := RestaurantBookingsBody rid name listed total |} →
  (∃ r, findById (store st) restaurantId = inr (Some r)
        ∧ r_ownerId r = ownerId ∧ name = r_name r)
  ∧ rid = restaurantId
  ∧ total = Z.of_nat (length listed)
  ∧ Forall (fun ob =>
              ob_doc ob ∈ bookings (store st)
              ∧ bk_restaurantId (ob_doc ob) = restaurantId
              ∧ (given (bq_date q) = true →
                 bk_date (ob_doc ob) = default "" (bq_date q))
              ∧ (given (bq_status q) = true →
                 default "" (bq_status q) ≠ "all"%string →
                 statusName (bk_status (ob_doc ob)) = default "" (bq_status q))
              ∧ ob = customerOf (store st) (ob_doc ob)) listed
  ∧ StronglySorted (fun a b => createdAt (bk_id b) <= createdAt (bk_id a))
      (map ob_doc listed)
  ∧ (∀ n, parseInt (default "10" (bq_limit q)) = Some n → n ≠ 0 →
          Z.of_nat (length listed) <= Z.abs n).
Proof.
  unfold getRestaurantBookings.
  destruct (findById (store st) restaurantId) as [e|[r|]] eqn:Hfind; [done| |done].
  destruct (String.eqb_spec (r_ownerId r) ownerId) as [Heq|Hne]; [|done].
  cbn [negb].
  destruct (cursorWindow _ _ _) as [found|] eqn:Hwindow; [|done].
  intros [= <- <- <- <-].
  pose proof (cursorWindow_sublist _ _ _ _ Hwindow) as Hsub.
  assert (map ob_doc (map (customerOf (store st)) found) = found) as Hdocs.
  { rewrite map_map. simpl. apply map_id. }
  split; [by exists r|]. split; [done|]. split; [done|].
  split; [|split].
  - apply Forall_forall. intros ob (b & -> & Hb)%elem_of_map. simpl.
    eapply sublist_elem_of in Hb; [|exact Hsub].
    apply elem_of_sortBy, elem_of_List_filter in Hb as [Hin Hb].
    unfold bookingsFilter in Hb.
    apply andb_true_iff in Hb as [Hb Hdate].
    apply andb_true_iff in Hb as [Hrid Hstatus].
    apply String.eqb_eq in Hrid.
    split; [done|]. split; [done|]. split; [|split; [|done]].
    + intros Hgiven. rewrite Hgiven in Hdate. by apply String.eqb_eq.
    + intros Hgiven Hall. rewrite Hgiven in Hstatus.
      rewrite (proj2 (String.eqb_neq _ _) Hall) in Hstatus. simpl in Hstatus.
      by apply String.eqb_eq.
  - rewrite Hdocs.
    eapply StronglySorted_weaken;
      [|eapply sublist_sorted;
        [exact Hsub
        |apply sortBy_sorted; [apply newestFirst_total | apply newestFirst_trans]]].
    intros a b Hab. by apply Z.leb_le in Hab.
  - intros n Hn Hnz. rewrite Hn in Hwindow. rewrite length_map.
    unfold cursorWindow in Hwindow. simpl in Hwindow.
    destruct (Z.eqb_spec n 0); [done|]. injection Hwindow as <-.
    rewrite length_take. lia.
Qed.

(** X25. The counts of [getRestaurantStats].  A 200 is answered only to
    the owner of the stored restaurant.  Today's bookings are among the
    upcoming ones and those among all bookings of the restaurant, so the
    three counts are ordered; the average rating is 0 when the
    restaurant has no review and lies within any bounds that hold for
    the ratings otherwise; and the answer is the same after any soft
    delete, of this restaurant or another. *)
Theorem getRestaurantStats_counts today st ownerId restaurantId rid name stats :
  getRestaurantStats today st ownerId restaurantId
  = {| rp_status := 200; rp_body := RestaurantStatsBody rid name stats |} →
  (∃ r, findById (store st) restaurantId = inr (Some r)
        ∧ r_ownerId r = ownerId ∧ name = r_name r)
  ∧ 0 <= todayBookings stats <= upcomingBookings stats
  ∧ upcomingBookings stats <= totalBookings stats
  ∧ 0 <= totalReviews stats
  ∧ (totalReviews stats = 0 → averageRating stats = 0%Q)
  ∧ (∀ lo hi,
       (∀ v, v ∈ reviews (store st) → lo <= rv_rating v <= hi) →
       0 < totalReviews stats →
       (inject_Z lo <= averageRating stats)%Q
       ∧ (averageRating stats <= inject_Z hi)%Q)
  ∧ (∀ someone anyId,
       getRestaurantStats today (deleteRestaurant st someone anyId).2
         ownerId restaurantId
       = getRestaurantStats today st ownerId restaurantId).
Proof.
  intros Hrun.
  assert (∀ someone anyId,
            getRestaurantStats today (deleteRestaurant st someone anyId).2
              ownerId restaurantId
            = getRestaurantStats today st ownerId restaurantId) as Hsame.
  { intros someone anyId. unfold deleteRestaurant.
    destruct (findById (store st) anyId) as [e|[gone|]]; [done| |done].
    destruct (negb _); [done|]. simpl.
    unfold getRestaurantStats, findById. simpl.
    destruct (validObjectId restaurantId); [|done].
    rewrite find_by_saveInactive.
    destruct (find_by _ (restaurants (store st))) as [x|]; [|done]. simpl.
    by destruct (String.eqb (r_id x) (r_id gone)). }
  revert Hrun. unfold getRestaurantStats.
  destruct (findById (store st) restaurantId) as [e|[r|]] eqn:Hfind;
    [done| |done].
  destruct (String.eqb_spec (r_ownerId r) ownerId) as [Heq|Hne]; [|done].
  cbn [negb]. intros [= <- <- <-]. cbn [todayBookings upcomingBookings
    totalBookings totalReviews averageRating].
  assert (r_id r = restaurantId) as Hid.
  { unfold findById in Hfind. destruct (validObjectId restaurantId); [|done].
    injection Hfind as Hfind. apply find_by_Some in Hfind as [_ Hfind].
    by apply String.eqb_eq. }
  rewrite Hid.
  set (matched := List.filter _ (reviews (store st))).
  split; [by exists r|]. split; [|split; [|split; [|split; [|split]]]].
  - split; [apply countWhere_nonneg|]. apply countWhere_mono. intros b Hb.
    apply andb_true_iff in Hb as [Hb Hs].
    apply andb_true_iff in Hb as [Hr Hd]. apply String.eqb_eq in Hd.
    rewrite Hr, Hs, Hd.
    by destruct (String.leb_total today today) as [->| ->].
  - apply countWhere_mono. intros b Hb.
    apply andb_true_iff in Hb as [Hb _]. by apply andb_true_iff in Hb as [Hr _].
  - apply countWhere_nonneg.
  - unfold countWhere. fold matched. intros Hnone.
    by destruct matched.
  - intros lo hi Hbounds Hsome. unfold countWhere in Hsome. fold matched in Hsome.
    destruct (avgRating matched) as [a|] eqn:Havg;
      [|by destruct matched].
    apply (avgRating_bounds lo hi) in Havg as [Hlo Hhi].
    + simpl. destruct (Qeq_bool a 0) eqn:Hzero; [|done].
      apply Qeq_bool_iff in Hzero. by rewrite Hzero in Hlo, Hhi.
    + intros v [Hv _]%elem_of_List_filter. by apply Hbounds.
  - intros someone anyId.
    transitivity (getRestaurantStats today st ownerId restaurantId);
      [exact (Hsame _ _)|].
    unfold getRestaurantStats.
    rewrite Hfind, (proj2 (String.eqb_eq _ _) Heq). cbn [negb].
    by rewrite Hid.
Qed.

End OwnerProperties.

Lemma getMyRestaurants_lists_own_witness :
  ∃ listed,
    @getMyRestaurants exampleRestaurantRuntime exampleTimestamps
      (fresh fridayStore) "o1"
    = {| rp_status := 200;
         rp_body := MyRestaurantsBody listed (Z.of_nat (length listed)) |}
    ∧ map (fun l => r_name (lr_doc l)) listed = ["Bistro"; "Trattoria"]%string
    ∧ ∀ r, r ∈ map lr_doc listed ↔
           r ∈ restaurants fridayStore ∧ r_ownerId r = "o1"%string
           ∧ r_isActive r = true.
Proof.
  destruct (@getMyRestaurants_lists_own exampleRestaurantRuntime
              exampleTimestamps (fresh fridayStore) "o1")
    as (listed & Hrun & Hown & _).
  - reflexivity.
  - exists listed. split; [exact Hrun|]. split; [|exact Hown].
    injection Hrun as <-. reflexivity.
Defined.

Lemma getMyRestaurants_after_delete_witness :
  ∃ remaining,
    @getMyRestaurants exampleRestaurantRuntime exampleTimestamps
      (@deleteRestaurant exampleRestaurantRuntime (fresh fridayStore) "o1" "r1").2
      "o1"
    = {| rp_status := 200;
         rp_body := MyRestaurantsBody remaining (Z.of_nat (length remaining)) |}
    ∧ map (fun l => r_name (lr_doc l)) remaining = ["Bistro"]%string.
Proof.
  eexists. split.
  - eapply (@getMyRestaurants_after_delete exampleRestaurantRuntime
              exampleTimestamps (fresh fridayStore) "o1" "r1" "o1").
    + apply (bool_decide_unpack _). by vm_compute.
    + reflexivity.
    + reflexivity.
  - reflexivity.
Defined.

Lemma getRestaurantBookings_owner_view_witness :
  ∃ listed,
    @getRestaurantBookings exampleRuntime exampleRestaurantRuntime
      exampleTimestamps (fresh fridayStore) "o1" "r1" confirmedOnly
    = {| rp_status := 200;
         rp_body := RestaurantBookingsBody "r1" "Trattoria" listed 2 |}
    ∧ map (fun ob => bk_id (ob_doc ob)) listed = ["b2"; "b1"]%string
    ∧ Forall (fun ob =>
                bk_restaurantId (ob_doc ob) = "r1"%string
                ∧ statusName (bk_status (ob_doc ob)) = "confirmed"%string)
        listed.
Proof.
  eexists. split; [reflexivity|]. split; [reflexivity|].
  destruct (@getRestaurantBookings_owner_view exampleRuntime
              exampleRestaurantRuntime exampleTimestamps (fresh fridayStore)
              "o1" "r1" confirmedOnly _ _ _ _ eq_refl)
    as (_ & _ & _ & Hall & _).
  eapply Forall_impl; [exact Hall|]. simpl.
  intros ob (_ & Hrid & _ & Hstatus & _). split; [exact Hrid|].
  apply Hstatus; [reflexivity | discriminate].
Defined.

Lemma getRestaurantStats_counts_witness :
  ∃ stats,
    @getRestaurantStats exampleRestaurantRuntime "2025-07-04"
      (fresh fridayStore) "o1" "r1"
    = {| rp_status := 200;
         rp_body := RestaurantStatsBody "r1" "Trattoria" stats |}
    ∧ totalBookings stats = 3 ∧ todayBookings stats = 2
    ∧ totalReviews stats = 1 ∧ averageRating stats = 5%Q
    ∧ 0 <= todayBookings stats <= upcomingBookings stats
    ∧ upcomingBookings stats <= totalBookings stats.
Proof.
  eexists. split; [reflexivity|].
  split; [reflexivity|]. split; [reflexivity|]. split; [reflexivity|].
  split; [reflexivity|].
  destruct (@getRestaurantStats_counts exampleRestaurantRuntime "2025-07-04"
              (fresh fridayStore) "o1" "r1" _ _ _ eq_refl)
    as (_ & Htoday & Hupcoming & _).
  split; [exact Htoday | exact Hupcoming].
Defined.

(** ** The pages and the favourites controller *)

Section FavoritePages.
Context `{!RestaurantRuntime}.

(** X26. The two pages read the favourite status under different names.
    The controller sends it as [isFavorited].  The restaurant detail page
    reads that name: for a customer and a well-formed restaurant id its
    flag is set exactly when the pair is a favourite, and after a toggle
    that was answered 200 or 201 it is the status the toggle reports.
    The restaurants list page reads [isFavorite], which no answer of the
    controller carries: it shows every restaurant as not a favourite,
    whatever the collection holds, and a toggle from the list leaves the
    flag it shows as it was, although the collection has changed. *)
Theorem favorite_flag_by_page env db favs user restaurantId flag :
  listFavoriteFlag (checkFavoriteStatus favs user restaurantId) = false
  ∧ listToggledFlag flag (toggleFavorite env db favs user restaurantId).1 = flag
  ∧ (au_role user = "customer"%string → validObjectId restaurantId = true →
     (detailFavoriteFlag (checkFavoriteStatus favs user restaurantId) = true
      ↔ is_Some (findFavorite favs (au_id user) restaurantId)))
  ∧ (∀ message isFavorited,
       rp_body (toggleFavorite env db favs user restaurantId).1
       = ToggledBody message isFavorited →
       detailToggledFlag flag (toggleFavorite env db favs user restaurantId).1
       = isFavorited
       ∧ (isFavorited = true ↔
          findFavorite favs (au_id user) restaurantId = None))
  ∧ (rp_status (toggleFavorite env db favs user restaurantId).1 ≠ 200 →
     rp_status (toggleFavorite env db favs user restaurantId).1 ≠ 201 →
     detailToggledFlag flag (toggleFavorite env db favs user restaurantId).1
     = flag).
Proof.
  split; [|split; [|split; [|split]]].
  - unfold listFavoriteFlag, delivered, checkFavoriteStatus.
    destruct (negb _); [done|]. by destruct (validObjectId restaurantId).
  - unfold listToggledFlag, delivered, toggleFavorite.
    destruct (negb (String.eqb _ _)); [done|].
    destruct (findById db restaurantId) as [e|[r|]]; [done| |done].
    destruct (negb (r_isActive r)); [done|].
    by destruct (findFavorite favs (au_id user) restaurantId).
  - intros Hrole Hvalid.
    unfold detailFavoriteFlag, delivered, checkFavoriteStatus.
    rewrite Hrole, Hvalid. simpl.
    destruct (findFavorite favs (au_id user) restaurantId); simpl.
    + split; [by eexists | done].
    + split; [done | by intros [? ?]].
  - intros message isFavorited.
    unfold detailToggledFlag, delivered, toggleFavorite.
    destruct (negb (String.eqb _ _)); [done|].
    destruct (findById db restaurantId) as [e|[r|]]; [done| |done].
    destruct (negb (r_isActive r)); [done|].
    destruct (findFavorite favs (au_id user) restaurantId); simpl;
      intros [= <- <-]; done.
  - unfold detailToggledFlag, delivered, toggleFavorite.
    destruct (negb (String.eqb _ _)); [done|].
    destruct (findById db restaurantId) as [e|[r|]]; [done| |done].
    destruct (negb (r_isActive r)); [done|].
    by destruct (findFavorite favs (au_id user) restaurantId).
Qed.

End FavoritePages.

(** The favourite of the example is shown on the detail page and not on
    the list. *)
Example favorite_flag_example :
  is_Some (findFavorite favourites "c1" "r1")
  ∧ detailFavoriteFlag
      (@checkFavoriteStatus exampleRestaurantRuntime favourites aliceAuth "r1")
    = true
  ∧ listFavoriteFlag
      (@checkFavoriteStatus exampleRestaurantRuntime favourites aliceAuth "r1")
    = false.
Proof. split; [by eexists | done]. Qed.

(** ** The reviews panel *)

Lemma countRating_counted (dist : gmap Z (option Z)) reviews k n :
  dist !! k = Some (Some n) →
  foldl (fun distribution review => countRating distribution (rv_rating review))
        dist reviews !! k
  = Some (Some (n + countWhere (fun v => rv_rating v =? k) reviews)).
Proof.
  revert dist n. induction reviews as [|v reviews IH]; intros dist n Hk; simpl.
  { rewrite Hk. unfold countWhere. simpl. do 2 f_equal. lia. }
  destruct (Z.eqb_spec (rv_rating v) k) as [Heq|Hne].
  - rewrite (IH _ (n + 1)).
    + unfold countWhere. simpl. rewrite (proj2 (Z.eqb_eq _ _) Heq). simpl.
      do 2 f_equal. lia.
    + unfold countRating. rewrite Heq, Hk. apply lookup_insert_eq.
  - rewrite (IH _ n).
    + unfold countWhere. simpl. by rewrite (proj2 (Z.eqb_neq _ _) Hne).
    + unfold countRating. by rewrite lookup_insert_ne.
Qed.

Lemma countRating_NaN (dist : gmap Z (option Z)) reviews k :
  dist !! k = Some None →
  foldl (fun distribution review => countRating distribution (rv_rating review))
        dist reviews !! k
  = Some None.
Proof.
  revert dist. induction reviews as [|v reviews IH]; intros dist Hk; simpl;
    [done|].
  apply IH. unfold countRating.
  destruct (decide (rv_rating v = k)) as [->|Hne].
  - rewrite Hk. apply lookup_insert_eq.
  - by rewrite lookup_insert_ne.
Qed.

Lemma countRating_missing (dist : gmap Z (option Z)) reviews k :
  dist !! k = None → k ∈ map rv_rating reviews →
  foldl (fun distribution review => countRating distribution (rv_rating review))
        dist reviews !! k
  = Some None.
Proof.
  revert dist. induction reviews as [|v reviews IH]; intros dist Hk Hin; simpl.
  { by apply elem_of_nil in Hin. }
  destruct (decide (rv_rating v = k)) as [Heq|Hne].
  - apply countRating_NaN. unfold countRating. rewrite Heq, Hk.
    apply lookup_insert_eq.
  - apply IH.
    + unfold countRating. by rewrite lookup_insert_ne.
    + simpl in Hin. apply elem_of_cons in Hin as [Hin|Hin]; [congruence|done].
Qed.

Lemma ratings_counted reviews :
  (∀ v, v ∈ reviews → 1 <= rv_rating v <= 5) →
  countWhere (fun v => rv_rating v =? 1) reviews
  + countWhere (fun v => rv_rating v =? 2) reviews
  + countWhere (fun v => rv_rating v =? 3) reviews
  + countWhere (fun v => rv_rating v =? 4) reviews
  + countWhere (fun v => rv_rating v =? 5) reviews
  = Z.of_nat (length reviews).
Proof.
  unfold countWhere. induction reviews as [|v reviews IH]; intros Hall; [done|].
  assert (1 <= rv_rating v <= 5) as Hv by (apply Hall, elem_of_cons; by left).
  assert (∀ x, x ∈ reviews → 1 <= rv_rating x <= 5) as Hrest
    by (intros x Hx; apply Hall, elem_of_cons; by right).
  specialize (IH Hrest). simpl.
  destruct (Z.eqb_spec (rv_rating v) 1); destruct (Z.eqb_spec (rv_rating v) 2);
    destruct (Z.eqb_spec (rv_rating v) 3); destruct (Z.eqb_spec (rv_rating v) 4);
    destruct (Z.eqb_spec (rv_rating v) 5); simpl; lia.
Qed.

Lemma countWhere_bounds {A} (p : A → bool) l :
  0 <= countWhere p l <= Z.of_nat (length l).
Proof.
  unfold countWhere. pose proof (List.filter_length_le p l). lia.
Qed.

Section ReviewsPanelProperties.
Context `{!Doubles}.

(** X27. The statistics of the reviews panel.  [calculateStats] counts
    under each of the ratings 1 to 5 the loaded reviews with that rating,
    whatever else has been loaded; a rating outside 1 to 5 that occurs
    leaves NaN under its own key, and its percentage is NaN.  Each of
    the five counts lies between 0 and the number of reviews and, when
    every rating is within 1 to 5, the five counts add up to the number
    of reviews.  The percentage of a rating from 1 to 5 is the rounded
    quotient of its count by the number of reviews, times 100, and 0 when
    there is no review; nothing is said of the sum of the percentages,
    which rounding keeps from being 100.  The average is 0 when there is
    no review and otherwise the quotient of the sum of the ratings, added
    up from the first review on, by their number: the same double that
    [getAverageRating] of the customer's page computes. *)
Theorem calculateStats_distribution reviews :
  let stats := calculateStats reviews in
  let count k := countWhere (fun v => rv_rating v =? k) reviews in
  rs_totalReviews stats = Z.of_nat (length reviews)
  ∧ (∀ k, 1 <= k <= 5 →
          rs_ratingDistribution stats !! k = Some (Some (count k))
          ∧ 0 <= count k <= rs_totalReviews stats
          ∧ getRatingPercentage stats k
            = Some (if rs_totalReviews stats =? 0 then ofInteger 0
                    else times (divide (ofInteger (count k))
                                  (ofInteger (rs_totalReviews stats)))
                           (ofInteger 100)))
  ∧ (∀ k, ¬ 1 <= k <= 5 → k ∈ map rv_rating reviews →
          rs_ratingDistribution stats !! k = Some None
          ∧ getRatingPercentage stats k = None)
  ∧ ((∀ v, v ∈ reviews → 1 <= rv_rating v <= 5) →
     count 1 + count 2 + count 3 + count 4 + count 5 = rs_totalReviews stats)
  ∧ rs_averageRating stats = getAverageRating reviews
  ∧ rs_averageRating stats
    = match reviews with
      | [] => ofInteger 0
      | _ =>
        divide (foldl plus (ofInteger 0) (map (fun v => ofInteger (rv_rating v))
                                              reviews))
               (ofInteger (Z.of_nat (length reviews)))
      end.
Proof.
  intros stats count.
  assert (rs_totalReviews stats = Z.of_nat (length reviews)) as Htotal.
  { subst stats. unfold calculateStats. by destruct (_ =? _). }
  assert (∀ k, 1 <= k <= 5 →
            rs_ratingDistribution stats !! k = Some (Some (count k))) as Hcount.
  { intros k Hk. subst stats count. unfold calculateStats.
    assert (noRatings !! k = Some (Some 0)) as Hzero.
    { assert (k = 1 ∨ k = 2 ∨ k = 3 ∨ k = 4 ∨ k = 5) as Hcase by lia.
      by destruct Hcase as [->|[->|[->|[->| ->]]]]. }
    destruct (Z.eqb_spec (Z.of_nat (length reviews)) 0) as [Hnone|_].
    - destruct reviews; [|simpl in Hnone; lia]. exact Hzero.
    - cbn [rs_ratingDistribution].
      by rewrite (countRating_counted _ _ _ 0 Hzero). }
  split; [done|]. split; [|split; [|split; [|split]]].
  - intros k Hk. split; [by apply Hcount|]. split.
    + rewrite Htotal. apply countWhere_bounds.
    + unfold getRatingPercentage. rewrite (Hcount k Hk).
      by destruct (rs_totalReviews stats =? 0).
  - intros k Hk Hin.
    assert (rs_ratingDistribution stats !! k = Some None) as Hnan.
    { subst stats. unfold calculateStats.
      destruct (Z.eqb_spec (Z.of_nat (length reviews)) 0) as [Hnone|_].
      { destruct reviews; [by apply elem_of_nil in Hin | simpl in Hnone; lia]. }
      cbn [rs_ratingDistribution].
      apply countRating_missing; [|done]. unfold noRatings.
      rewrite !lookup_insert_ne by lia. apply lookup_singleton_ne. lia. }
    split; [done|]. unfold getRatingPercentage. rewrite Hnan, Htotal.
    destruct (Z.eqb_spec (Z.of_nat (length reviews)) 0) as [Hnone|_]; [|done].
    destruct reviews; [by apply elem_of_nil in Hin | simpl in Hnone; lia].
  - intros Hall. rewrite Htotal. by apply ratings_counted.
  - subst stats. unfold calculateStats, getAverageRating.
    by destruct (_ =? _).
  - subst stats. unfold calculateStats.
    destruct (Z.eqb_spec (Z.of_nat (length reviews)) 0) as [Hnone|Hsome].
    { by destruct reviews; [|simpl in Hnone; lia]. }
    cbn [rs_averageRating]. destruct reviews as [|v reviews]; [done|].
    f_equal. generalize (ofInteger 0). generalize (v :: reviews).
    intros l. induction l as [|x l IH]; intros start; simpl; [done|].
    apply IH.
Qed.

(** Three reviews of the example restaurant, rated 5, 4 and 5: two of
    three is the quotient whose percentages do not add up to 100 in
    doubles, and the model claims no sum for them. *)
Example calculateStats_example :
  let stats :=
    calculateStats
      [ {| rv_id := "v1"; rv_customerId := "c1"; rv_restaurantId := "r1";
           rv_rating := 5; rv_comment := "Lovely" |};
        {| rv_id := "v2"; rv_customerId := "c2"; rv_restaurantId := "r1";
           rv_rating := 4; rv_comment := "Good" |};
        {| rv_id := "v3"; rv_customerId := "c3"; rv_restaurantId := "r1";
           rv_rating := 5; rv_comment := "Again" |} ] in
  rs_ratingDistribution stats !! 5 = Some (Some 2)
  ∧ rs_ratingDistribution stats !! 4 = Some (Some 1)
  ∧ rs_ratingDistribution stats !! 3 = Some (Some 0)
  ∧ rs_averageRating stats
    = divide (plus (plus (plus (ofInteger 0) (ofInteger 5)) (ofInteger 4))
                (ofInteger 5))
             (ofInteger 3)
  ∧ getRatingPercentage stats 5
    = Some (times (divide (ofInteger 2) (ofInteger 3)) (ofInteger 100)).
Proof. simpl. repeat split; reflexivity. Qed.

End ReviewsPanelProperties.

(** ** Creating a restaurant *)


Section RestaurantCreationProperties.
Context `{!JsRuntime} `{!RestaurantRuntime} `{!SchemaRuntime} `{!Timestamps}.








End RestaurantCreationProperties.

(** The address is in Vancouver; the restaurant is stored in Halifax. *)
Example createRestaurant_example :
  let out :=
    @createRestaurant exampleRuntime exampleRestaurantRuntime
      exampleSchemaRuntime {| ce_newId := "r3"; ce_saveFails := false |}
      (fresh fridayStore) "o1" harbourGrill in
  rp_status out.1 = 201
  ∧ map (fun r => (r_name r, r_geometry r, r_capacity r, r_isActive r))
      (restaurants (store out.2))
    = [("Trattoria"%string, Some ((-63)%Q, 44%Q), 20, true);
       ("Bistro"%string, Some ((-63)%Q, 45%Q), 2, true);
       ("Harbour Grill"%string, Some (-635752 # 10000, 446488 # 10000), 50,
        true)].
Proof. by vm_compute. Qed.

(** The same body with [isActive: false] is stored inactive: the
    restaurant is created and cannot be read. *)
Example createRestaurant_inactive :
  let out :=
    @createRestaurant exampleRuntime exampleRestaurantRuntime
      exampleSchemaRuntime {| ce_newId := "r3"; ce_saveFails := false |}
      (fresh fridayStore) "o1" closedGrill in
  rp_status out.1 = 201
  ∧ map (fun r => (r_id r, r_isActive r)) (restaurants (store out.2))
    = [("r1"%string, true); ("r2"%string, true); ("r3"%string, false)]
  ∧ status (@getRestaurantById exampleRestaurantRuntime out.2 "r3").1 = 404.
Proof. by vm_compute. Qed.

